(** * YATSM: record plumbing, segment lookup and export

    A shallow embedding of the parts of the YATSM time-series package that
    build, look up and export segment records:

    - [yatsm/algorithms/yatsm.py]: the [YATSM] base class (constructor,
      record template, [__len__], [__iter__]);
    - [scripts/yatsm_map.py]: [find_result_attributes], [find_indices],
      [get_classification], [get_coefficients], [get_prediction],
      [write_output], [main] and the parsing of the arguments;
    - [yatsm/cli/train_mult.py]: [get_training_inputs], the training cache
      and the lookup of the design information;
    - [yatsm/cli/pixel.py]: [plot_results] and [plot_VAL];
    - [yatsm/config_parser.py] and [yatsm/plots.py];
    - the change detector, which is not among these sources, as section 4.4
      of the specification describes it.

    Conventions.  Integers are [Z]; fixed-width NumPy fields have their
    wrap-around written out ([to_u2], [wrap_i4]).  Floating-point values are
    idealised as rationals [Q]: the theorems speak about which expression
    the code evaluates, not about rounding.  Python exceptions are values of
    [exn]; code that may raise returns [result].  Dictionaries are [gmap]s,
    arrays are lists indexed with [!!].  The result files on disk are a
    state ([Store.disk]) that the functions reading them pass along. *)

From stdpp Require Import base option list sorting gmap strings pretty.
From Stdlib Require Import ZArith QArith Qabs Lia.

Local Open Scope Z_scope.

(** ** Python exceptions and the error monad *)

Inductive exn : Type :=
| AttributeError (msg : string)
| TypeError (msg : string)
| IndexError (msg : string)
| ValueError (msg : string)
| IOError (msg : string)
| NotImplementedError (msg : string)
| UnboundLocalError (msg : string)
| TrainingDataException (y col row : Z).

(** The name of the exception's class, as [type(e).__name__] gives it. *)
Definition exn_class (e : exn) : string :=
  match e with
  | AttributeError _ => "AttributeError"
  | TypeError _ => "TypeError"
  | IndexError _ => "IndexError"
  | ValueError _ => "ValueError"
  | IOError _ => "IOError"
  | NotImplementedError _ => "NotImplementedError"
  | UnboundLocalError _ => "UnboundLocalError"
  | TrainingDataException _ _ _ => "TrainingDataException"
  end.

Inductive result (A : Type) : Type :=
| Ok (a : A)
| Raise (e : exn).
Arguments Ok {A} a.
Arguments Raise {A} e.

#[global] Instance result_ret : MRet result := fun _ a => Ok a.
#[global] Instance result_bind : MBind result := fun _ _ f m =>
  match m with
  | Ok a => f a
  | Raise e => Raise e
  end.

Definition raises {A} (m : result A) : Prop := exists e, m = Raise e.

(** ** Fixed-width integer fields *)

(** Storing a Python integer into a ['u2'] field keeps its low 16 bits. *)
Definition to_u2 (v : Z) : Z := v mod 65536.

(** ['i4'] arithmetic wraps into the signed 32-bit range. *)
Definition wrap_i4 (v : Z) : Z := (v + 2147483648) mod 4294967296 - 2147483648.

(** ** yatsm/algorithms/yatsm.py *)

Module YATSM.

(** A Python [slice]; only [start] is read. *)
Record slice := { slice_start : Z; slice_stop : Z }.

(** The part of [patsy.DesignInfo] the constructor reads. *)
Record DesignInfo := {
  term_name_slices : gmap string slice;
  column_names : list string
}.

(** Objects a caller may pass for [fit_indices] and [test_indices]. *)
Inductive pyobj : Type :=
| PyNone
| PySeq (l : list Z).

(** What [np.asarray] returns for them: a one-dimensional integer array,
    or, for [None], a zero-dimensional object array that wraps [None]. *)
Inductive ndarray : Type :=
| Array1 (l : list Z)
| Array0_object.

Definition np_asarray (o : pyobj) : ndarray :=
  match o with
  | PyNone => Array0_object
  | PySeq l => Array1 l
  end.

(** [x is None] where [x] is bound to an [ndarray]: the array is an object
    of its own, so the identity test is false whatever it holds. *)
Definition ndarray_is_None (a : ndarray) : bool := false.

(** [len(a)]: zero-dimensional arrays are unsized. *)
Definition np_len (a : ndarray) : result nat :=
  match a with
  | Array1 l => Ok (length l)
  | Array0_object => Raise (TypeError "len() of unsized object")
  end.

(** One element of the structured array declared in [__init__]. *)
Record segment := {
  start : Z;
  end_ : Z;
  break : Z;
  coef : list (list Q);
  px : Z;
  py : Z
}.

(** A structured array: the sub-array shape of its ['coef'] field and its
    elements. *)
Record recarray := {
  coef_shape : nat * nat;
  items : list segment
}.

(** [np.zeros(n, dtype=[... ('coef', 'float32', (p, nb)) ...])]. *)
Definition np_zeros (n p nb : nat) : recarray :=
  {| coef_shape := (p, nb);
     items := replicate n {| start := 0; end_ := 0; break := 0;
                             coef := replicate p (replicate nb 0%Q);
                             px := 0; py := 0 |} |}.

(** [a['px'] = v] and [a['py'] = v]: broadcast over all elements. *)
Definition set_px (v : Z) (a : recarray) : recarray :=
  {| coef_shape := coef_shape a;
     items := (fun r => {| start := start r; end_ := end_ r; break := break r;
                           coef := coef r; px := to_u2 v; py := py r |})
              <$> items a |}.

Definition set_py (v : Z) (a : recarray) : recarray :=
  {| coef_shape := coef_shape a;
     items := (fun r => {| start := start r; end_ := end_ r; break := break r;
                           coef := coef r; px := px r; py := to_u2 v |})
              <$> items a |}.

(** [kwargs.get(k, d)]. *)
Definition kwargs_get (kwargs : gmap string Z) (k : string) (d : Z) : Z :=
  default d (kwargs !! k).

(** [object.__init__] called with the keyword arguments that are left:
    the end of the chain of initialisers takes none. *)
Definition object_init (kwargs : gmap string Z) : result unit :=
  if decide (kwargs = ∅) then Ok tt
  else Raise (TypeError "object.__init__() takes no parameters").

(** The attributes of a model instance. *)
Record model := {
  fit_indices : ndarray;
  design_info : DesignInfo;
  i_x : Z;
  test_indices : ndarray;
  record_template : recarray;
  n_record : Z;
  record : recarray
}.

(** The message of the error raised for a design without slope term; it
    quotes the term name. *)
Definition no_slope_msg : string :=
  "Design info must specify " +:+ String (Ascii.ascii_of_nat 34) "x"
  +:+ String (Ascii.ascii_of_nat 34) " (slope)".

(** [YATSM.__init__].  [next_init] is the initialiser that
    [super(YATSM, self).__init__] resolves to: [object_init] when the class
    is instantiated on its own, the next class of the method resolution
    order under cooperative inheritance. *)
Definition __init__ (next_init : gmap string Z -> result unit)
    (fit_indices_arg : pyobj) (design : DesignInfo)
    (test_indices_arg : pyobj) (kwargs : gmap string Z) : result model :=
  let fit := np_asarray fit_indices_arg in
  match term_name_slices design !! "x" with
  | None => Raise (AttributeError no_slope_msg)
  | Some sl =>
      let ix := slice_start sl in
      let test0 := np_asarray test_indices_arg in
      let test := if ndarray_is_None test0 then fit else test0 in
      nb ← np_len fit;
      let template0 := np_zeros 1 (length (column_names design)) nb in
      let template1 := set_px (kwargs_get kwargs "px" 0) template0 in
      let template2 := set_py (kwargs_get kwargs "py" 0) template1 in
      _ ← next_init kwargs;
      Ok {| fit_indices := fit;
            design_info := design;
            i_x := ix;
            test_indices := test;
            record_template := template2;
            n_record := 0;
            record := template2 |}
  end.

(** [YATSM.fit]; [predict], [score] and [plot] raise in the same way. *)
Definition fit (m : model) : result unit :=
  Raise (NotImplementedError "Subclasses should implement fit method").

(** [YATSM.__iter__]: the records in array order. *)
Definition __iter__ (m : model) : list segment := items (record m).

(** [YATSM.__len__]: [self.record.shape[0]]. *)
Definition __len__ (m : model) : nat := length (items (record m)).

End YATSM.

(** ** NumPy and Python helpers shared by the scripts *)

(** [np.where(cond)[0]] for a one-dimensional condition: the positions at
    which it holds, ascending. *)
Fixpoint where_from {A} (p : A -> bool) (i : nat) (a : list A) : list nat :=
  match a with
  | [] => []
  | x :: a' => if p x then i :: where_from p (S i) a' else where_from p (S i) a'
  end.

Definition np_where {A} (p : A -> bool) (a : list A) : list nat := where_from p 0 a.

(** Position of the first occurrence of [v]. *)
Fixpoint first_index (v : Z) (l : list Z) : option nat :=
  match l with
  | [] => None
  | x :: l' => if Z.eqb x v then Some 0%nat else S <$> first_index v l'
  end.

(** Insertion of a value into an ascending list without duplicates. *)
Fixpoint insert_unique (v : Z) (l : list Z) : list Z :=
  match l with
  | [] => [v]
  | x :: l' => if Z.ltb v x then v :: l
               else if Z.eqb v x then l
               else x :: insert_unique v l'
  end.

(** The first value returned by [np.unique]: the distinct values, ascending. *)
Definition np_unique (l : list Z) : list Z := foldr insert_unique [] l.

(** The second value of [np.unique(l, return_index=True)]: for each distinct
    value, in ascending order of the values, the position of its first
    occurrence in [l]. *)
Definition np_unique_index (l : list Z) : list nat :=
  omap (fun v => first_index v l) (np_unique l).

(** [a[idx]] for an index array whose entries are known to be in range. *)
Definition take_indices {A} (a : list A) (idx : list nat) : list A :=
  omap (fun i => a !! i) idx.

(** Python indexing with one integer: negative indices count from the end,
    anything outside raises. *)
Definition py_index {A} (l : list A) (i : Z) : result A :=
  let n := Z.of_nat (length l) in
  let j := if i <? 0 then i + n else i in
  match (if (0 <=? j) && (j <? n) then l !! Z.to_nat j else None) with
  | Some x => Ok x
  | None => Raise (IndexError "index out of bounds")
  end.

(** [for x in l: s = body(x, s)], stopping at the first exception. *)
Fixpoint for_each {S A} (body : A -> S -> result S) (l : list A) (s : S) : result S :=
  match l with
  | [] => Ok s
  | x :: l' => s' ← body x s; for_each body l' s'
  end.

(** [[f(x) for x in l]], stopping at the first exception. *)
Fixpoint map_result {A B} (f : A -> result B) (l : list A) : result (list B) :=
  match l with
  | [] => Ok []
  | x :: l' => y ← f x; ys ← map_result f l'; Ok (y :: ys)
  end.

(** Sum of the products of corresponding entries, as [np.dot] and
    [np.tensordot] compute it along the contracted axis. *)
Definition sum_product (u v : list Q) : Q :=
  foldr Qplus 0%Q (zip_with Qmult u v).

(** ** Saved results: the structured array read back by the scripts *)

Module Saved.

(** One element of a saved ['record'] array, with the fields the scripts
    read. *)
Record segment := {
  start : Z;
  end_ : Z;
  break : Z;
  coef : list (list Q);
  rmse : list Q;
  robust_coef : list (list Q);
  robust_rmse : list Q;
  px : Z;
  py : Z
}.

(** [rec[_coef]] and [rec[_rmse]] with
    [_coef = 'robust_coef' if use_robust else 'coef']. *)
Definition get_coef (use_robust : bool) (r : segment) : list (list Q) :=
  if use_robust then robust_coef r else coef r.

Definition get_rmse (use_robust : bool) (r : segment) : list Q :=
  if use_robust then robust_rmse r else rmse r.

Definition set_coef (use_robust : bool) (c : list (list Q)) (r : segment) : segment :=
  if use_robust
  then {| start := start r; end_ := end_ r; break := break r; coef := coef r;
          rmse := rmse r; robust_coef := c; robust_rmse := robust_rmse r;
          px := px r; py := py r |}
  else {| start := start r; end_ := end_ r; break := break r; coef := c;
          rmse := rmse r; robust_coef := robust_coef r;
          robust_rmse := robust_rmse r; px := px r; py := py r |}.

(** [rec[i]] where [i] came from [np.where] on [rec] itself. *)
Definition at_index (rec : list segment) (i : nat) : result segment :=
  match rec !! i with
  | Some r => Ok r
  | None => Raise (IndexError "index out of bounds")
  end.

End Saved.

(** ** Output rasters *)

Module Raster.

(** A [(RasterYSize, RasterXSize, nband)] array created by
    [np.ones(shape) * ndv]: cells never written hold [ndv] in every band. *)
Record t (V : Type) := {
  ysize : Z;
  xsize : Z;
  nband : nat;
  ndv : V;
  cells : gmap (Z * Z) (list V)
}.
Arguments ysize {V} _.
Arguments xsize {V} _.
Arguments nband {V} _.
Arguments ndv {V} _.
Arguments cells {V} _.

Definition create {V} (ys xs : Z) (nb : nat) (v : V) : t V :=
  {| ysize := ys; xsize := xs; nband := nb; ndv := v; cells := ∅ |}.

(** [raster[y, x, :]] for in-range [y], [x]. *)
Definition cell {V} (r : t V) (y x : Z) : list V :=
  default (replicate (nband r) (ndv r)) (cells r !! (y, x)).

(** Python's treatment of one integer index into an axis of length [n]. *)
Definition norm_index (n i : Z) : result Z :=
  let j := if i <? 0 then i + n else i in
  if (0 <=? j) && (j <? n) then Ok j
  else Raise (IndexError "index out of bounds").

(** [raster[y, x, lo:hi] = vs]; the slice is clipped to the number of bands
    and [vs] has to fill it. *)
Definition assign_cell {V} (r : t V) (y x : Z) (lo hi : nat) (vs : list V)
    : result (t V) :=
  y' ← norm_index (ysize r) y;
  x' ← norm_index (xsize r) x;
  if decide (length vs = (hi `min` nband r - lo)%nat) then
    let old := cell r y' x' in
    let new := take lo old ++ vs ++ drop (lo + length vs) old in
    Ok {| ysize := ysize r; xsize := xsize r; nband := nband r; ndv := ndv r;
          cells := <[(y', x') := new]> (cells r) |}
  else Raise (ValueError "could not broadcast input array").

(** [raster[ys, xs, lo:hi] = rows] with index arrays [ys], [xs]: one cell
    per position, in order, so the last write to a cell stays. *)
Fixpoint assign {V} (r : t V) (yxs : list (Z * Z)) (lo hi : nat)
    (rows : list (list V)) : result (t V) :=
  match yxs, rows with
  | (y, x) :: yxs', vs :: rows' =>
      r' ← assign_cell r y x lo hi vs; assign r' yxs' lo hi rows'
  | _, _ => Ok r
  end.

(** Conversion of a float to an integer type, for values in its range:
    the fraction is dropped. *)
Definition truncate (q : Q) : Z := Z.quot (Qnum q) (Zpos (Qden q)).

End Raster.

(** ** scripts/yatsm_map.py *)

Module YatsmMap.
Import Saved.

(** *** [find_indices] *)

(** Model before the date, as long as it did not change. *)
Definition index_before (date : Z) (record : list segment) : list nat :=
  np_where (fun r => (end_ r <=? date) && (break r =? 0)) record.

(** First model starting after the date, per pixel column. *)
Definition index_after (date : Z) (record : list segment) : list nat :=
  let index := np_where (fun r => start r >=? date) record in
  let _index := np_unique_index (px <$> take_indices record index) in
  take_indices index _index.

(** Model intersecting the date. *)
Definition index_intersecting (date : Z) (record : list segment) : list nat :=
  np_where (fun r => (start r <=? date) && (end_ r >=? date)) record.

(** The generator's yield points, in order.  Each one reads [record] when
    the generator is resumed, so a caller that changes the array between
    two yields is seen by the later one. *)
Definition find_indices_steps (date : Z) (after before : bool)
    : list (list segment -> list nat) :=
  (if before then [index_before date] else [])
  ++ (if after then [index_after date] else [])
  ++ [index_intersecting date].

(** [list(find_indices(record, date, after, before))] on an array that is
    left alone meanwhile. *)
Definition find_indices (record : list segment) (date : Z) (after before : bool)
    : list (list nat) :=
  (fun step => step record) <$> find_indices_steps date after before.

(** *** [get_coefficients] *)

(** [(rec['start'][i] + rec['end'][i]) / 2.0]: the sum is taken in ['i4']. *)
Definition midpoint (r : segment) : Q :=
  (inject_Z (wrap_i4 (start r + end_ r)) / 2)%Q.

(** Right-hand side of the [+=] for one selected element:
    [rec[_coef][i, 0, :] + midpoint * rec[_coef][i, 1, :]]. *)
Definition normalized_intercept (use_robust : bool) (r : segment) : result (list Q) :=
  c0 ← py_index (get_coef use_robust r) 0;
  c1 ← py_index (get_coef use_robust r) 1;
  Ok (zip_with (fun a b => (a + midpoint r * b)%Q) c0 c1).

(** [rec[_coef][i, 0, :] = row]. *)
Definition set_intercept (use_robust : bool) (row : list Q) (r : segment) : segment :=
  set_coef use_robust (<[0%nat := row]> (get_coef use_robust r)) r.

(** [rec[_coef][index, 0, :] += mid[:, None] * rec[_coef][index, 1, :]]:
    the right-hand side is computed for all of [index] from the array as
    it is, then stored back into that same array. *)
Definition normalize_intercepts (use_robust : bool) (index : list nat)
    (rec : list segment) : result (list segment) :=
  rows ← map_result (fun i => r ← at_index rec i; normalized_intercept use_robust r) index;
  Ok (foldl (fun a ir => alter (set_intercept use_robust ir.2) ir.1 a)
            rec (zip index rows)).

(** [rec[_coef][i][i_coefs, :][:, i_bands]] flattened in row-major order. *)
Definition extract_coefficients (use_robust : bool) (i_coefs i_bands : list Z)
    (r : segment) : result (list Q) :=
  rows ← map_result (py_index (get_coef use_robust r)) i_coefs;
  sel ← map_result (fun row => map_result (py_index row) i_bands) rows;
  Ok (concat sel).

(** [rec[_rmse][i][i_bands]]. *)
Definition extract_rmse (use_robust : bool) (i_bands : list Z) (r : segment)
    : result (list Q) :=
  map_result (py_index (get_rmse use_robust r)) i_bands.

(** Body of the inner loop for one yielded [index]; the state is the
    raster together with the loaded array [rec]. *)
Definition export_index (use_robust : bool) (i_coefs i_bands : list Z)
    (use_rmse : bool) (index : list nat)
    (st : Raster.t Q * list segment) : result (Raster.t Q * list segment) :=
  let '(raster, rec) := st in
  match index with
  | [] => Ok st
  | _ =>
      rec' ← normalize_intercepts use_robust index rec;
      sel ← map_result (at_index rec') index;
      let yxs := (fun r => (py r, px r)) <$> sel in
      vals ← map_result (extract_coefficients use_robust i_coefs i_bands) sel;
      let k := (length i_coefs * length i_bands)%nat in
      raster' ← Raster.assign raster yxs 0 k vals;
      if negb use_rmse then Ok (raster', rec')
      else
        rms ← map_result (extract_rmse use_robust i_bands) sel;
        raster'' ← Raster.assign raster' yxs k (Raster.nband raster') rms;
        Ok (raster'', rec')
  end.

(** The inner loop over one loaded array. *)
Definition export_rec (use_robust : bool) (i_coefs i_bands : list Z)
    (use_rmse : bool) (date : Z) (after before : bool)
    (rec : list segment) (raster : Raster.t Q)
    : result (Raster.t Q * list segment) :=
  for_each (fun step st => export_index use_robust i_coefs i_bands use_rmse (step st.2) st)
           (find_indices_steps date after before) (raster, rec).

(** The outer loop over the arrays that [iter_records] yields.  The state
    keeps, next to the raster, every array as the loop left it. *)
Fixpoint export_records (use_robust : bool) (i_coefs i_bands : list Z)
    (use_rmse : bool) (date : Z) (after before : bool)
    (records : list (list segment)) (raster : Raster.t Q)
    : result (Raster.t Q * list (list segment)) :=
  match records with
  | [] => Ok (raster, [])
  | rec :: records' =>
      '(raster', rec') ← export_rec use_robust i_coefs i_bands use_rmse
                                     date after before rec raster;
      '(raster'', recs') ← export_records use_robust i_coefs i_bands use_rmse
                                     date after before records' raster';
      Ok (raster'', rec' :: recs')
  end.

(** [get_coefficients], from the allocation of the raster on.  [i_bands],
    [i_coefs] and [use_rmse] are what [find_result_attributes] returned;
    the band names play no part in the values and are left out.  Returned
    are the raster and the loaded arrays in their final state; the function
    itself drops the arrays, see [MapFunctions.get_coefficients] below,
    which is the function from its first line. *)
Definition get_coefficients (date : Z) (records : list (list segment))
    (ysize xsize : Z) (i_bands i_coefs : list Z) (use_rmse : bool)
    (use_robust after before : bool) (ndv : Q)
    : result (Raster.t Q * list (list segment)) :=
  let n_bands := length i_bands in
  let n_coefs := length i_coefs in
  let n_rmse := if use_rmse then n_bands else 0%nat in
  export_records use_robust i_coefs i_bands use_rmse date after before records
    (Raster.create ysize xsize (n_bands * n_coefs + n_rmse) ndv).

(** *** [get_prediction] *)

Section Prediction.
(** [make_X]: the design row of a date (defined in [yatsm.utils]). *)
Variable make_X : Z -> list Q.
(** Conversion of a float to the raster's integer type on assignment. *)
Variable astype_int : Q -> Z.

(** [np.tensordot(rec['coef'][i][:, i_bands], X, axes=(0, 0))] for one
    selected element: the feature axis is contracted against [X]. *)
Definition tensordot (i_bands : list Z) (X : list Q) (r : segment) : result (list Q) :=
  if decide (length (coef r) = length X) then
    map_result (fun b => col ← map_result (fun row => py_index row b) (coef r);
                         Ok (sum_product col X)) i_bands
  else Raise (ValueError "shape-mismatch for sum").

Definition predict_index (i_bands : list Z) (X : list Q) (rec : list segment)
    (index : list nat) (raster : Raster.t Z) : result (Raster.t Z) :=
  match index with
  | [] => Ok raster
  | _ =>
      sel ← map_result (at_index rec) index;
      yhat ← map_result (tensordot i_bands X) sel;
      Raster.assign raster ((fun r => (py r, px r)) <$> sel)
                    0 (Raster.nband raster) (map (map astype_int) yhat)
  end.

Definition predict_rec (i_bands : list Z) (X : list Q) (date : Z)
    (after before : bool) (rec : list segment) (raster : Raster.t Z)
    : result (Raster.t Z) :=
  for_each (fun step => predict_index i_bands X rec (step rec))
           (find_indices_steps date after before) raster.

(** The loops of [get_prediction], from the construction of [X] on;
    [MapFunctions.get_prediction] below is the function from its first
    line. *)
Definition get_prediction (date : Z) (records : list (list segment))
    (ysize xsize : Z) (i_bands : list Z) (after before : bool) (ndv : Z)
    : result (Raster.t Z) :=
  let X := make_X date in
  for_each (predict_rec i_bands X date after before) records
           (Raster.create ysize xsize (length i_bands) ndv).
End Prediction.

End YatsmMap.

(** ** yatsm/cli/train_mult.py *)

Module TrainMult.
Import Saved.

(** Find intersecting time segment:
    [np.where((rec['start'] < training_start) & (rec['end'] > training_end)
              & (rec['px'] == _col))[0]]. *)
Definition find_model (training_start training_end _col : Z)
    (rec : list segment) : list nat :=
  np_where (fun r => (start r <? training_start) && (end_ r >? training_end)
                     && (px r =? _col)) rec.

(** Extract coefficients with intercept term rescaled.  [rec[i]] with an
    index array is a copy, so the assignment to [coef[0, :]] leaves [rec]
    as it was. *)
Definition rescale_intercept (r : segment) : result (list (list Q)) :=
  c0 ← py_index (coef r) 0;
  c1 ← py_index (coef r) 1;
  Ok (<[0%nat := zip_with
          (fun a b => (a + b * inject_Z (wrap_i4 (start r + end_ r)) / 2)%Q)
          c0 c1]> (coef r)).

(** [np.concatenate((coef.reshape(coef.size), rec[i]['rmse'][0]))]. *)
Definition features (r : segment) : result (list Q) :=
  c ← rescale_intercept r;
  Ok (concat c ++ rmse r).

(** Local variables of the loop over the samples. *)
Record locals := {
  rec : list segment;
  _row_previous : option Z;
  X : list (list Q);
  out_y : list Z;
  out_row : list Z;
  out_col : list Z
}.

Definition init : locals :=
  {| rec := []; _row_previous := None; X := []; out_y := [];
     out_row := []; out_col := [] |}.

Section Loop.
(** [np.load(utils.get_output_name(cfg['dataset'], _row))['record']]. *)
Variable load : Z -> result (list segment).
Variable exit_on_missing : bool.
Variables training_start training_end : Z.

(** Load result: [Ok None] stands for [continue]. *)
Definition load_result (_row : Z) (s : locals) : result (option locals) :=
  if decide (Some _row = _row_previous s) then Ok (Some s)
  else match load _row with
       | Ok r => Ok (Some {| rec := r; _row_previous := Some _row;
                             X := X s; out_y := out_y s;
                             out_row := out_row s; out_col := out_col s |})
       | Raise e => if exit_on_missing then Raise e else Ok None
       end.

(** One iteration for the sample [(_row, _col, _y)]. *)
Definition sample (rcy : Z * Z * Z) (s : locals) : result locals :=
  let '(_row, _col, _y) := rcy in
  o ← load_result _row s;
  match o with
  | None => Ok s
  | Some s1 =>
      match find_model training_start training_end _col (rec s1) with
      | [] => Ok s1
      | [i] =>
          r ← at_index (rec s1) i;
          x ← features r;
          Ok {| rec := rec s1; _row_previous := _row_previous s1;
                X := X s1 ++ [x]; out_y := out_y s1 ++ [_y];
                out_row := out_row s1 ++ [_row];
                out_col := out_col s1 ++ [_col] |}
      | _ => Raise (TrainingDataException _y _col _row)
      end
  end.

(** The loop of [get_training_inputs] over [izip(row, col, y)] and the
    four arrays it fills, with the name lookup and the load taken as one
    step; [TrainingInputs.get_training_inputs] below is the function from
    its first line.  [get_mult_training_inputs] runs the same loop. *)
Definition get_training_inputs (samples : list (Z * Z * Z))
    : result (list (list Q) * list Z * list Z * list Z) :=
  s ← for_each sample samples init;
  Ok (X s, out_y s, out_row s, out_col s).
End Loop.

End TrainMult.

(** ** yatsm/cli/train_mult.py: [get_training_inputs] from its first line *)

Module TrainingInputs.
Import Saved TrainMult.

(** [labels[out_row, out_col]]: one entry per pair of indices. *)
Definition index_labels (labels : list (list Z)) (rows cols : list Z)
    : result (list Z) :=
  map_result (fun rc => row ← py_index labels rc.1; py_index row rc.2)
             (zip rows cols).

Section Inputs.
(** Lines 201 to 228, up to the loop: the training image is read, the two
    dates are parsed (a failure is logged and raised again) and the mask is
    applied.  When none of this raises it gives the two ordinal dates, the
    samples [(row, col, y)] in the order of [np.where], and the band of
    labels when the image has one. *)
Variable training_data
  : result (Z * Z * list (Z * Z * Z) * option (list (list Z))).
(** [utils.get_output_name(cfg['dataset'], _row)], called outside the
    [try]. *)
Variable get_output_name : Z -> result string.
(** [np.load(output_name)['record']], called inside the [try]. *)
Variable np_load : string -> result (list segment).
Variable exit_on_missing : bool.

(** Load result: [Ok None] stands for [continue]. *)
Definition load_result (_row : Z) (s : locals) : result (option locals) :=
  if decide (Some _row = _row_previous s) then Ok (Some s)
  else
    output_name ← get_output_name _row;
    match np_load output_name with
    | Ok r => Ok (Some {| rec := r; _row_previous := Some _row;
                          X := X s; out_y := out_y s;
                          out_row := out_row s; out_col := out_col s |})
    | Raise e => if exit_on_missing then Raise e else Ok None
    end.

(** One iteration for the sample [(_row, _col, _y)]. *)
Definition sample (training_start training_end : Z) (rcy : Z * Z * Z)
    (s : locals) : result locals :=
  let '(_row, _col, _y) := rcy in
  o ← load_result _row s;
  match o with
  | None => Ok s
  | Some s1 =>
      match find_model training_start training_end _col (rec s1) with
      | [] => Ok s1
      | [i] =>
          r ← at_index (rec s1) i;
          x ← features r;
          Ok {| rec := rec s1; _row_previous := _row_previous s1;
                X := X s1 ++ [x]; out_y := out_y s1 ++ [_y];
                out_row := out_row s1 ++ [_row];
                out_col := out_col s1 ++ [_col] |}
      | _ => Raise (TrainingDataException _y _col _row)
      end
  end.

(** [get_training_inputs]: [(X, y, row, col, labels)]. *)
Definition get_training_inputs
    : result (list (list Q) * list Z * list Z * list Z * option (list Z)) :=
  data ← training_data;
  let '(training_start, training_end, samples, labels) := data in
  s ← for_each (sample training_start training_end) samples init;
  labels' ← match labels with
            | None => Ok None
            | Some l => v ← index_labels l (out_row s) (out_col s); Ok (Some v)
            end;
  Ok (X s, out_y s, out_row s, out_col s, labels').
End Inputs.

End TrainingInputs.

(** ** Python's [datetime], as far as [plot_results] uses it *)

Module Datetime.

(** A date is identified with its proleptic Gregorian ordinal; day 1 is
    January 1 of year 1, and [MAXORDINAL] is December 31 of year 9999. *)
Definition MAXORDINAL : Z := 3652059.

(** [datetime.fromordinal(n)]. *)
Definition fromordinal (n : Z) : result Z :=
  if n <? 1 then Raise (ValueError "ordinal must be >= 1")
  else if MAXORDINAL <? n then Raise (ValueError "year is out of range")
  else Ok n.

(** The number of days before January 1 of [year]. *)
Definition days_before_year (year : Z) : Z :=
  let y := year - 1 in y * 365 + y / 4 - y / 100 + y / 400.

(** [date(year, 1, 1).toordinal()]. *)
Definition jan1 (year : Z) : result Z :=
  if (1 <=? year) && (year <=? 9999) then Ok (days_before_year year + 1)
  else Raise (ValueError "year is out of range").

(** [d.year] of the date with ordinal [n], by cycles of 400, 100, 4 and 1
    years. *)
Definition year (n : Z) : Z :=
  let n0 := n - 1 in
  let n400 := n0 / 146097 in
  let n1 := n0 mod 146097 in
  let n100 := n1 / 36524 in
  let n2 := n1 mod 36524 in
  let n4 := n2 / 1461 in
  let n3 := n2 mod 1461 in
  let n1y := n3 / 365 in
  let y := n400 * 400 + 1 + n100 * 100 + n4 * 4 + n1y in
  if (n1y =? 4) || (n100 =? 4) then y - 1 else y.

(** [d.timetuple().tm_yday]. *)
Definition tm_yday (n : Z) : Z := n - days_before_year (year n).

End Datetime.

(** ** yatsm/cli/pixel.py *)

Module Pixel.

(** [np.arange(a, b, step)] for a step of 1 or -1. *)
Definition arange (a b step : Z) : list Z :=
  (fun k => a + step * Z.of_nat k) <$> seq 0 (Z.to_nat ((b - a) * step)).

Section PlotResults.
(** [patsy.dmatrix(design, {'x': mx})]: the design row of each date. *)
Variable design_row : Z -> list Q.

(** [np.dot(r['coef'][:, band], mX)], where [mX] has one column per date
    of [mx]. *)
Definition dot_dates (band : Z) (r : YATSM.segment) (mx : list Z)
    : result (list Q) :=
  col ← map_result (fun row => py_index row band) (YATSM.coef r);
  map_result (fun d =>
                if decide (length col = length (design_row d))
                then Ok (sum_product col (design_row d))
                else Raise (ValueError "shapes not aligned")) mx.

(** The body of the loop of [plot_results] for the record [r]: the two
    arrays handed to [ax1.plot], the horizontal positions [mx_date] and the
    values [my].  The division in [yr_mid] is Python 2's division of
    integers, which rounds down.  A plot type other than ['TS'] and ['DOY']
    binds neither array, and the call of [ax1.plot] fails on the first. *)
Definition plot_record (plot_type : string) (reverse : bool) (band : Z)
    (r : YATSM.segment) : result (list Z * list Q) :=
  let step := if reverse then -1 else 1 in
  if decide (plot_type = "TS") then
    let mx := arange (YATSM.start r) (YATSM.end_ r) step in
    my ← dot_dates band r mx;
    mx_date ← map_result Datetime.fromordinal mx;
    Ok (mx_date, my)
  else if decide (plot_type = "DOY") then
    end_date ← Datetime.fromordinal (YATSM.end_ r);
    let yr_end := Datetime.year end_date in
    start_date ← Datetime.fromordinal (YATSM.start r);
    let yr_start := Datetime.year start_date in
    let yr_mid := yr_end - (yr_end - yr_start) / 2 in
    first ← Datetime.jan1 yr_mid;
    next ← Datetime.jan1 (yr_mid + 1);
    let mx := arange first next 1 in
    my ← dot_dates band r mx;
    mx_date ← map_result (fun d => date ← Datetime.fromordinal d;
                                   Ok (Datetime.tm_yday date)) mx;
    Ok (mx_date, my)
  else
    Raise (UnboundLocalError
             "local variable 'mx_date' referenced before assignment").

(** [plot_results]: one curve per record of the model. *)
Definition plot_results (plot_type : string) (reverse : bool) (band : Z)
    (records : list YATSM.segment) : result (list (list Z * list Q)) :=
  map_result (plot_record plot_type reverse band) records.
End PlotResults.

End Pixel.

(** ** The change detector

    The detector itself (the subclass that implements [fit]) is not among
    the sources above: the base class only raises [NotImplementedError].
    Its state machine is taken from section 4.4 of the specification, with
    the numerical parts (fitting, the residual statistic, screening) left as
    parameters. *)

Module Detector.

(** Modelled from the spec: an Observation, one (date, band values) sample
    of one pixel together with the value of its mask band. *)
Record Observation := {
  date : Z;
  bands : list Q;
  mask : Z
}.

(** Modelled from the spec: the Segment Record emitted by the detector
    (section 3). *)
Record SegmentRecord := {
  start : Z;
  end_ : Z;
  break : Z;
  coef : list (list Q);
  rmse : list Q;
  px : Z;
  py : Z
}.

(** Modelled from the spec: the configuration fields that drive the state
    machine (section 6), with the bound on fit retries of section 7. *)
Record Config := {
  min_obs : nat;
  threshold : Q;
  consecutive : nat;
  max_retries : nat;
  refit : bool;
  remove_noise : bool
}.

(** Modelled from the spec: what the detector returns; too few usable
    observations give an empty result, not an error. *)
Inductive outcome : Type :=
| Records (l : list SegmentRecord)
| ConfigurationError.

(** [a < b] on rationals, as a boolean. *)
Definition Qlt_bool (a b : Q) : bool := negb (Qle_bool b a).

Definition first_date (w : list Observation) : Z :=
  match w with
  | [] => 0
  | o :: _ => date o
  end.

Definition last_date (w : list Observation) : Z :=
  match last w with
  | Some o => date o
  | None => 0
  end.

Section Machine.
(** The Segment Fitter: a fit of a window, or a fit failure. *)
Variable Fit : Type.
Variable fit : list Observation -> option Fit.
Variable fit_coef : Fit -> list (list Q).
Variable fit_rmse : Fit -> list Q.
(** The per-observation test statistic under a fit (with the dynamic
    RMSE policy, when enabled, folded in). *)
Variable statistic : Fit -> Observation -> Q.
(** The Observation Screener: range mask and mask-band filter. *)
Variable usable : Observation -> bool.
Variable cfg : Config.
Variables pixel_x pixel_y : Z.

(** Modelled from the spec: the states of the detector.  [CLOSING] is
    passed through within one step (see [step]), so it carries nothing
    of its own. *)
Inductive state : Type :=
| ACCUMULATING (window : list Observation) (retries : nat)
| MONITORING (window : list Observation) (model : Fit) (run : list Observation)
| DONE.

(** Modelled from the spec: ACCUMULATING to MONITORING once the window
    reaches [min_obs] and a fit succeeds; a failed fit waits for one
    more observation, and gives the series up after [max_retries]. *)
Definition try_fit (w : list Observation) (retries : nat) : state :=
  if (min_obs cfg <=? length w)%nat then
    match fit w with
    | Some f => MONITORING w f []
    | None => if (retries <? max_retries cfg)%nat
              then ACCUMULATING w (S retries) else DONE
    end
  else ACCUMULATING w retries.

(** Modelled from the spec: the record closed on a break; [end] is the
    date of the observation just before the break (the last one of the
    window), [break] the date of the first of the exceeding observations. *)
Definition close (w : list Observation) (f : Fit) (run : list Observation)
    : SegmentRecord :=
  {| start := first_date w; end_ := last_date w; break := first_date run;
     coef := fit_coef f; rmse := fit_rmse f; px := pixel_x; py := pixel_y |}.

(** Modelled from the spec: the final record of an exhausted series;
    [break = 0] and [end] is the last observation date. *)
Definition finalize (w : list Observation) (f : Fit) (run : list Observation)
    : SegmentRecord :=
  {| start := first_date w; end_ := last_date (w ++ run); break := 0;
     coef := fit_coef f; rmse := fit_rmse f; px := pixel_x; py := pixel_y |}.

(** Modelled from the spec: the statistic of an observation is above the
    threshold. *)
Definition exceeds (f : Fit) (o : Observation) : bool :=
  Qlt_bool (threshold cfg) (statistic f o).

(** Modelled from the spec: one transition of the detector on the next
    observation; the second component is the Record Store. *)
Definition step (st : state * list SegmentRecord) (o : Observation)
    : state * list SegmentRecord :=
  match st.1 with
  | ACCUMULATING w n => (try_fit (w ++ [o]) n, st.2)
  | MONITORING w f run =>
      if exceeds f o then
        let run' := run ++ [o] in
        if (consecutive cfg <=? length run')%nat
        then (try_fit run' 0, st.2 ++ [close w f run'])
        else (MONITORING w f run', st.2)
      else
        let w' := (if remove_noise cfg then w else w ++ run) ++ [o] in
        let f' := if refit cfg then default f (fit w') else f in
        (MONITORING w' f' [], st.2)
  | DONE => st
  end.

(** Modelled from the spec: the transition to DONE when the observations
    are exhausted. *)
Definition finish (st : state * list SegmentRecord) : list SegmentRecord :=
  match st.1 with
  | MONITORING w f run => st.2 ++ [finalize w f run]
  | _ => st.2
  end.

(** Modelled from the spec: threshold and consecutive have to be
    positive (section 7). *)
Definition valid_config : bool :=
  Qlt_bool 0 (threshold cfg) && (1 <=? consecutive cfg)%nat.

(** Modelled from the spec: the per-pixel detector,
    [(observations, config) -> sequence of records]. *)
Definition detect (obs : list Observation) : outcome :=
  if valid_config then
    let series := filter (fun o => usable o = true) obs in
    if (length series <? min_obs cfg)%nat then Records []
    else Records (finish (foldl step (ACCUMULATING [] 0, []) series))
  else ConfigurationError.
End Machine.

End Detector.

(** ** Temporal order of a sequence of segments *)

(** The [(start, end)] spans are ordered and do not overlap: every span
    ends no later than the next one starts, and none ends before it
    starts. *)
Definition temporally_ordered (spans : list (Z * Z)) : Prop :=
  (forall i a b, spans !! i = Some a -> spans !! S i = Some b -> a.2 <= b.1)
  /\ Forall (fun a => a.1 <= a.2) spans.

(** ** Predicates used in the statements *)

(** [col] is column [b] of the matrix [m], read with Python indexing. *)
Definition is_column (b : Z) (m : list (list Q)) (col : list Q) : Prop :=
  Forall2 (fun row c => py_index row b = Ok c) m col.



Section PredictionSpec.
Import Saved YatsmMap.

Variable make_X : Z -> list Q.
Variable astype_int : Q -> Z.
Variables (date : Z) (records : list (list segment)).
Variables (ysize xsize : Z) (i_bands : list Z) (after before : bool).

(** The values [vs] of the cell [(y, x)] are the prediction of a stored
    record that the lookup selected for this pixel. *)
Definition predicted (y x : Z) (vs : list Z) : Prop :=
  exists rec i r yhat,
    rec ∈ records /\ rec !! i = Some r
    /\ (exists index, index ∈ find_indices rec date after before /\ i ∈ index)
    /\ Raster.norm_index ysize (py r) = Ok y
    /\ Raster.norm_index xsize (px r) = Ok x
    /\ length (coef r) = length (make_X date)
    /\ vs = map astype_int yhat
    /\ Forall2 (fun b v => exists col, is_column b (coef r) col
                                       /\ v = sum_product col (make_X date))
               i_bands yhat.

(** A raster of the declared shape all of whose written cells are
    predictions. *)
Definition prediction_raster (r : Raster.t Z) : Prop :=
  Raster.ysize r = ysize /\ Raster.xsize r = xsize
  /\ Raster.nband r = length i_bands
  /\ forall y x vs, Raster.cells r !! (y, x) = Some vs -> predicted y x vs.
End PredictionSpec.

Section DetectorSpec.
Import Detector.

Variable Fit : Type.

(** Dates do not decrease from [a] to [b]. *)
Definition not_later (a b : Observation) : Prop := date a <= date b.

(** The observations a state still holds. *)
Definition pending (s : state Fit) : list Observation :=
  match s with
  | ACCUMULATING _ w _ => w
  | MONITORING _ w _ run => w ++ run
  | DONE _ => []
  end.

(** The [(start, end)] spans of a sequence of records. *)
Definition spans (recs : list SegmentRecord) : list (Z * Z) :=
  (fun r => (start r, end_ r)) <$> recs.

(** What holds between two observations: the observations held and those to
    come are in time order, no emitted record ends after any of them, the
    records emitted so far are ordered, and a monitored window is not
    empty. *)
Definition detector_invariant (st : state Fit * list SegmentRecord)
    (rest : list Observation) : Prop :=
  StronglySorted not_later (pending st.1 ++ rest)
  /\ (forall r o, r ∈ st.2 -> o ∈ pending st.1 ++ rest -> end_ r <= date o)
  /\ temporally_ordered (spans st.2)
  /\ match st.1 with
     | MONITORING _ w _ _ => w <> []
     | _ => True
     end.
End DetectorSpec.


(** ** Example inputs *)

Module Examples.

(** A design with an intercept and a slope term. *)
Definition design_with_slope : YATSM.DesignInfo :=
  {| YATSM.term_name_slices :=
       {[ "Intercept" := {| YATSM.slice_start := 0; YATSM.slice_stop := 1 |};
          "x" := {| YATSM.slice_start := 1; YATSM.slice_stop := 2 |} ]};
     YATSM.column_names := ["Intercept"; "x"] |}.

(** A design with an intercept only. *)
Definition design_without_slope : YATSM.DesignInfo :=
  {| YATSM.term_name_slices :=
       {[ "Intercept" := {| YATSM.slice_start := 0; YATSM.slice_stop := 1 |} ]};
     YATSM.column_names := ["Intercept"] |}.

(** The initialiser of a sibling class that takes the keyword arguments. *)
Definition cooperative_init (kwargs : gmap string Z) : result unit := Ok tt.

(** A saved segment over one band. *)
Definition saved (s e b : Z) (c0 c1 : Q) (x y : Z) : Saved.segment :=
  {| Saved.start := s; Saved.end_ := e; Saved.break := b;
     Saved.coef := [[c0]; [c1]]; Saved.rmse := [0%Q];
     Saved.robust_coef := []; Saved.robust_rmse := [];
     Saved.px := x; Saved.py := y |}.

(** Days 10 to 20, no break, intercept 1 and slope 1, at pixel (0, 0). *)
Definition segment_10_20 : Saved.segment := saved 10 20 0 1 1 0 0.

(** One pixel with a break at day 25 and a second pixel column. *)
Definition broken_series : list Saved.segment :=
  [saved 1 5 0 1 1 0 0; saved 10 20 25 1 1 0 0; saved 26 30 0 1 1 0 0;
   saved 26 30 0 1 1 1 0; saved 40 50 0 1 1 1 0].

(** The design row [1, x] of a date. *)
Definition linear_row (d : Z) : list Q := [1%Q; inject_Z d].

(** Saved results for the training lookup: two segments cover days 12 to 18
    at column 0, one at column 1. *)
Definition training_record : list Saved.segment :=
  [saved 10 20 0 1 1 0 0; saved 5 25 0 2 1 0 0; saved 10 20 0 3 1 1 0].

Definition load_training (_row : Z) : result (list Saved.segment) :=
  if _row =? 0 then Ok training_record else Raise (IOError "no such file").

(** A detector whose fit is the first value of the window and whose
    statistic is the distance from it. *)
Definition level_fit (w : list Detector.Observation) : option Q :=
  match w with
  | o :: _ => head (Detector.bands o)
  | [] => None
  end.

Definition level_statistic (f : Q) (o : Detector.Observation) : Q :=
  Qabs (default 0%Q (head (Detector.bands o)) - f).

Definition level_config : Detector.Config :=
  {| Detector.min_obs := 2; Detector.threshold := 1%Q;
     Detector.consecutive := 2; Detector.max_retries := 3;
     Detector.refit := false; Detector.remove_noise := false |}.

Definition observation (d : Z) (v : Q) : Detector.Observation :=
  {| Detector.date := d; Detector.bands := [v]; Detector.mask := 0 |}.

(** Six observations with a step between the third and the fourth. *)
Definition step_series : list Detector.Observation :=
  [observation 1 0; observation 2 0; observation 3 0;
   observation 4 10; observation 5 10; observation 6 10].

Definition level_detect : list Detector.Observation -> Detector.outcome :=
  Detector.detect Q level_fit (fun f => [[f]]) (fun _ => [0%Q])
                  level_statistic (fun _ => true) level_config 0 0.

End Examples.

(** ** Python strings *)

Module Text.
Import Stdlib.Strings.Ascii.

Definition comma : ascii := ","%char.
Definition space : ascii := " "%char.
Definition dot : ascii := "."%char.

(** [s.replace(a, b)] for one-character [a] and [b]. *)
Fixpoint replace_char (a b : Ascii.ascii) (s : string) : string :=
  match s with
  | EmptyString => EmptyString
  | String c s' => String (if decide (c = a) then b else c) (replace_char a b s')
  end.

(** [s.split(sep)] for a one-character separator: every occurrence of the
    separator ends a piece, so empty pieces are kept and the result is never
    empty. *)
Fixpoint split_on (sep : Ascii.ascii) (s : string) : list string :=
  match s with
  | EmptyString => [EmptyString]
  | String c s' =>
      if decide (c = sep) then EmptyString :: split_on sep s'
      else match split_on sep s' with
           | p :: ps => String c p :: ps
           | [] => [String c EmptyString]
           end
  end.

(** [sep.join(pieces)]. *)
Fixpoint join (sep : Ascii.ascii) (pieces : list string) : string :=
  match pieces with
  | [] => EmptyString
  | [p] => p
  | p :: ps => p +:+ String sep (join sep ps)
  end.

(** [[t for t in s.replace(',', ' ').split(' ') if t != '']]. *)
Definition tokens (s : string) : list string :=
  filter (fun t => t <> EmptyString)
         (split_on space (replace_char comma space s)).

(** [str.lower] on one byte: only the letters A to Z change. *)
Definition lower_char (c : Ascii.ascii) : Ascii.ascii :=
  let n := Ascii.nat_of_ascii c in
  if (65 <=? n)%nat && (n <=? 90)%nat then Ascii.ascii_of_nat (n + 32) else c.

Fixpoint lower (s : string) : string :=
  match s with
  | EmptyString => EmptyString
  | String c s' => String (lower_char c) (lower s')
  end.

(** The characters of a string. *)
Fixpoint chars (s : string) : list Ascii.ascii :=
  match s with
  | EmptyString => []
  | String c s' => c :: chars s'
  end.

End Text.

(** ** What a command-line function ends with *)

(** A function of the scripts returns, leaves through [sys.exit(code)], or
    lets an exception escape. *)
Inductive outcome (A : Type) : Type :=
| Return (a : A)
| Exit (code : Z)
| Thrown (e : exn).
Arguments Return {A} a.
Arguments Exit {A} code.
Arguments Thrown {A} e.

(** ** scripts/yatsm_map.py: result attributes and argument parsing *)

Module MapAttributes.

(** Possible coefficients. *)
Definition _coefs : list string :=
  ["all"; "intercept"; "slope"; "seasonality"; "rmse"].

(** What [np.load] gives for one result file, as far as
    [find_result_attributes] looks at it: the field names of the record
    array, its number of elements, the sub-array shapes of the two
    coefficient fields and the saved frequencies. *)
Record result_file := {
  dtype_names : list string;
  n_elements : nat;
  coef_shape : list nat;
  robust_coef_shape : list nat;
  freq : list Z
}.

(** [range(a, b)]. *)
Definition range (a b : Z) : list Z :=
  (fun k => a + Z.of_nat k) <$> seq 0 (Z.to_nat (b - a)).

(** The loop over the result files.  [None] stands for a file that could
    not be loaded or lacks ['record'] or ['freq'].  Returned are the shape
    found, if any, and the frequencies of the last file read. *)
Fixpoint scan_results (use_robust : bool) (results : list (option result_file))
    (freq_seen : option (list Z)) : outcome (option (nat * nat) * option (list Z)) :=
  match results with
  | [] => Return (None, freq_seen)
  | None :: rest => scan_results use_robust rest freq_seen
  | Some f :: rest =>
      let _coef := if use_robust then "robust_coef" else "coef" in
      let _rmse := if use_robust then "robust_rmse" else "rmse" in
      let freq_seen' := Some (freq f) in
      match dtype_names f with
      | [] => scan_results use_robust rest freq_seen'
      | _ =>
          if bool_decide (_coef ∈ dtype_names f) && bool_decide (_rmse ∈ dtype_names f)
          then match n_elements f,
                     (if use_robust then robust_coef_shape f else coef_shape f) with
               | S _, [result_coefs; result_bands] =>
                   Return (Some (result_coefs, result_bands), freq_seen')
               | _, _ => scan_results use_robust rest freq_seen'
               end
          else Exit 1
      end
  end.

(** Truth value of a one-dimensional array, as [if not freq] asks for it. *)
Definition array_truth (a : list Z) : result bool :=
  match a with
  | [] => Ok false
  | [x] => Ok (negb (x =? 0))
  | _ => Raise (ValueError "The truth value of an array with more than one element is ambiguous")
  end.

(** The bands asked for: ['all'] or a list of band numbers. *)
Inductive band_choice : Type :=
| AllBands
| Bands (l : list Z).

(** How many bands does the user want? *)
Definition select_bands (output_bands : band_choice) (result_bands : nat)
    : outcome (list Z) :=
  match output_bands with
  | AllBands => Return (range 0 (Z.of_nat result_bands))
  | Bands l =>
      let i_bands := (fun b => b - 1) <$> l in
      if existsb (fun b => b >? Z.of_nat result_bands) i_bands then Exit 1
      else Return i_bands
  end.

(** How many coefficients did the user want?  The loop over
    [output_coefs] with its [break] at ['all']. *)
Fixpoint select_coefs (result_coefs : nat) (output_coefs : list string)
    (i_coefs : list Z) (use_rmse : bool) : list Z * bool :=
  match output_coefs with
  | [] => (i_coefs, use_rmse)
  | c :: rest =>
      if decide (c = "all") then
        (i_coefs ++ range 0 (Z.of_nat result_coefs), true)
      else if decide (c = "intercept") then
        select_coefs result_coefs rest (i_coefs ++ [0]) use_rmse
      else if decide (c = "slope") then
        select_coefs result_coefs rest (i_coefs ++ [1]) use_rmse
      else if decide (c = "seasonality") then
        select_coefs result_coefs rest
                     (i_coefs ++ range 2 (Z.of_nat result_coefs)) use_rmse
      else if decide (c = "rmse") then
        select_coefs result_coefs rest i_coefs true
      else select_coefs result_coefs rest i_coefs use_rmse
  end.

(** [find_result_attributes]: [(i_bands, i_coefs, use_rmse, freq)]. *)
Definition find_result_attributes (results : list (option result_file))
    (output_bands : band_choice) (output_coefs : option (list string))
    (use_robust : bool) : outcome (list Z * list Z * bool * list Z) :=
  match scan_results use_robust results None with
  | Return (shape, freq_seen) =>
      match shape with
      | Some (S result_coefs', S result_bands') =>
          let result_coefs := S result_coefs' in
          let result_bands := S result_bands' in
          match freq_seen with
          | None => Exit 1
          | Some fr =>
              match array_truth fr with
              | Raise e => Thrown e
              | Ok false => Exit 1
              | Ok true =>
                  match select_bands output_bands result_bands with
                  | Return i_bands =>
                      let '(i_coefs, use_rmse) :=
                        match output_coefs with
                        | Some (c :: cs) => select_coefs result_coefs (c :: cs) [] false
                        | _ => ([], false)
                        end in
                      Return (i_bands, i_coefs, use_rmse, fr)
                  | Exit code => Exit code
                  | Thrown e => Thrown e
                  end
              end
          end
      | _ => Exit 1
      end
  | Exit code => Exit code
  | Thrown e => Thrown e
  end.

(** The band names set up by [get_coefficients]. *)
Definition band_names (i_coefs i_bands : list Z) (use_rmse : bool) : list string :=
  (_c ← i_coefs; _b ← i_bands;
     ["B" +:+ pretty (_b + 1) +:+ "_beta" +:+ pretty _c])
  ++ (_b ← i_bands;
        if use_rmse then ["B" +:+ pretty (_b + 1) +:+ "_RMSE"] else []).

(** The coefficient part of [parse_args]: the tokens of [--coef], refused
    with [sys.exit(1)] unless the lower-case form of each is a known
    name. *)
Definition parse_coefs (arg : string) : outcome (list string) :=
  let coefs := Text.tokens arg in
  if forallb (fun c => bool_decide (Text.lower c ∈ _coefs)) coefs
  then Return coefs else Exit 1.

End MapAttributes.

(** ** scripts/yatsm_map.py: [get_classification] *)

Module Classification.
Import Saved YatsmMap.

(** A loaded record array together with its ['class'] and ['class_proba']
    columns; a column is [None] when the array has no field of that name.
    Both are taken as one number per element. *)
Record labelled := {
  segments : list segment;
  class : option (list Z);
  class_proba : option (list Z)
}.

(** [column[i]] for an index from [np.where] on the same array. *)
Definition at_column (column : list Z) (i : nat) : result Z :=
  match column !! i with
  | Some v => Ok v
  | None => Raise (IndexError "index out of bounds")
  end.

Section Classify.
(** Conversion of a value to the raster's unsigned integer type. *)
Variable astype : Z -> Z.

(** Body of the inner loop for one yielded [index]. *)
Definition classify_index (pred_proba : bool) (rec : list segment)
    (cls : list Z) (proba : list Z) (index : list nat) (raster : Raster.t Z)
    : result (Raster.t Z) :=
  match index with
  | [] => Ok raster
  | _ =>
      sel ← map_result (at_index rec) index;
      let yxs := (fun r => (py r, px r)) <$> sel in
      labels ← map_result (at_column cls) index;
      raster' ← Raster.assign raster yxs 0 1 ((fun v => [astype v]) <$> labels);
      if pred_proba then
        ps ← map_result (at_column proba) index;
        Raster.assign raster' yxs 0 1 ((fun v => [astype v]) <$> ps)
      else Ok raster'
  end.

(** One iteration of the loop over the record arrays: the two checks of
    the field names, then the loop over [find_indices]. *)
Definition classify_rec (date : Z) (after before pred_proba : bool)
    (rec : labelled) (raster : Raster.t Z) : result (Raster.t Z) :=
  match class rec with
  | None => Raise (ValueError "Results do not have classification labels")
  | Some cls =>
      match class_proba rec, pred_proba with
      | None, true =>
          Raise (ValueError "Results do not have classification prediction probability values")
      | proba, _ =>
          for_each (fun step => classify_index pred_proba (segments rec) cls
                                               (default [] proba)
                                               (step (segments rec)))
                   (find_indices_steps date after before) raster
      end
  end.

(** [get_classification], from the allocation of the raster on. *)
Definition get_classification (date : Z) (records : list labelled)
    (ysize xsize : Z) (after before pred_proba : bool) (ndv : Z)
    : result (Raster.t Z * list string) :=
  let nband := if pred_proba then 2%nat else 1%nat in
  let band_names :=
    ["Classification"] ++ (if pred_proba then ["Pred Proba"] else []) in
  raster ← for_each (classify_rec date after before pred_proba) records
                    (Raster.create ysize xsize nband ndv);
  Ok (raster, band_names).
End Classify.

End Classification.

(** ** scripts/yatsm_map.py: [write_output] and [main] *)

Module MapMain.
Import Saved YatsmMap.

(** The parsed arguments [main] reads. *)
Record arguments := {
  class : bool;
  coef : bool;
  predict : bool;
  date : Z;
  bands : MapAttributes.band_choice;
  coefs : list string;
  use_robust : bool;
  after : bool;
  before : bool;
  pred_proba : bool;
  ndv : Q
}.

(** The three functions return arrays of different element types. *)
Inductive array : Type :=
| IntArray (raster : Raster.t Z)
| FloatArray (raster : Raster.t Q).

Definition shape_2 (a : array) : nat :=
  match a with
  | IntArray r => Raster.nband r
  | FloatArray r => Raster.nband r
  end.

(** What [write_output] puts into the data set: the bands of the array,
    the no-data value set on each band, and the band descriptions. *)
Record dataset := {
  bands_written : array;
  nodata : Q;
  descriptions : option (list string)
}.

(** How [main] ends: with the data set written, through [sys.exit], with an
    exception, or at the read of the local [raster] that no branch bound. *)
Inductive ending : Type :=
| Written (d : dataset)
| Exited (code : Z)
| Raised (e : exn)
| UnboundLocal (name : string).

(** [write_output] for the three-dimensional arrays the three functions
    return. *)
Definition write_output (raster : array) (ndv : Q)
    (band_names : option (list string)) : ending :=
  let nband := shape_2 raster in
  match band_names with
  | Some names =>
      if decide (length names <> nband) then Exited 1
      else Written {| bands_written := raster; nodata := ndv;
                      descriptions := Some names |}
  | None => Written {| bands_written := raster; nodata := ndv;
                       descriptions := None |}
  end.

Section Main.
(** [make_X(date, freq)] of [yatsm.utils]. *)
Variable make_X : list Z -> Z -> list Q.
(** Conversion to the 16-bit integers of the prediction raster. *)
Variable astype_int : Q -> Z.
(** Conversion to the unsigned integers of the classification raster:
    [np.uint16] with [pred_proba], [np.uint8] without. *)
Variable astype_uint : bool -> Z -> Z.

(** [main].  [files] is what the result files show to
    [find_result_attributes], [records] what [iter_records] yields from
    them; [ysize] and [xsize] are the size of the example image. *)
Definition main (args : arguments)
    (files : list (option MapAttributes.result_file))
    (records : list Classification.labelled) (ysize xsize : Z) : ending :=
  if class args then
    match Classification.get_classification
            (astype_uint (pred_proba args)) (date args) records ysize xsize
            (after args) (before args) (pred_proba args) 0 with
    | Ok (raster, band_names) =>
        write_output (IntArray raster) (ndv args) (Some band_names)
    | Raise e => Raised e
    end
  else if coef args then
    match MapAttributes.find_result_attributes
            files (bands args) (Some (coefs args)) (use_robust args) with
    | Return (i_bands, i_coefs, use_rmse, _) =>
        match get_coefficients (date args)
                (Classification.segments <$> records) ysize xsize
                i_bands i_coefs use_rmse (use_robust args)
                (after args) (before args) (ndv args) with
        | Ok (raster, _) =>
            write_output (FloatArray raster) (ndv args)
              (Some (MapAttributes.band_names i_coefs i_bands use_rmse))
        | Raise e => Raised e
        end
    | Exit code => Exited code
    | Thrown e => Raised e
    end
  else if predict args then
    match MapAttributes.find_result_attributes
            files (bands args) None (use_robust args) with
    | Return (i_bands, _, _, freq) =>
        match get_prediction (make_X freq) astype_int (date args)
                (Classification.segments <$> records) ysize xsize i_bands
                (after args) (before args) (Raster.truncate (ndv args)) with
        | Ok raster => write_output (IntArray raster) (ndv args) None
        | Raise e => Raised e
        end
    | Exit code => Exited code
    | Thrown e => Raised e
    end
  else UnboundLocal "raster".
End Main.

End MapMain.

(** ** The result files on disk *)

Module Store.

(** One result file as it was saved: what [find_result_attributes] reads
    of it, and its ['record'] array. *)
Record saved_file := {
  attributes : MapAttributes.result_file;
  record : list Saved.segment
}.

(** The result files by name. *)
Definition disk := gmap string saved_file.

(** A computation that has the result files at hand: it returns a value
    and the files as it leaves them. *)
Definition io (A : Type) : Type := disk -> A * disk.

Definition ret {A} (a : A) : io A := fun d => (a, d).

Definition bind {A B} (m : io A) (f : A -> io B) : io B :=
  fun d => let '(a, d') := m d in f a d'.

(** [np.load(name)]: the arrays of the file as new objects, [None] when
    the file cannot be read.  The file stays as it is. *)
Definition np_load (name : string) : io (option saved_file) :=
  fun d => (d !! name, d).

(** [np.load] on each name in turn. *)
Fixpoint load_each (names : list string) : io (list (option saved_file)) :=
  match names with
  | [] => ret []
  | name :: rest =>
      bind (np_load name) (fun o =>
      bind (load_each rest) (fun os => ret (o :: os)))
  end.

End Store.

(** ** scripts/yatsm_map.py: the functions from their first line *)

Module MapFunctions.
Import Saved Store.

(** The [np.load] calls of [find_result_attributes], then its decisions.
    The files after the one it stops at are read here too; nothing depends
    on them. *)
Definition find_result_attributes (results : list string)
    (output_bands : MapAttributes.band_choice)
    (output_coefs : option (list string)) (use_robust : bool)
    : io (outcome (list Z * list Z * bool * list Z)) :=
  bind (load_each results) (fun files =>
  ret (MapAttributes.find_result_attributes
         (map (option_map attributes) files)
         output_bands output_coefs use_robust)).

(** [iter_records(records)] is defined in [yatsm.utils], which is not
    among the sources; it is taken to yield [np.load(r)['record']] for
    every result file that can be read, in order.  Each array is a new
    object, local to the loop that receives it. *)
Definition iter_records (records : list string) : io (list (list segment)) :=
  bind (load_each records) (fun files =>
  ret (map record (omap id files))).

(** [get_coefficients]: [records] are the file names [find_results]
    found, [ysize] and [xsize] the size of the example image.  Returned are
    the raster and the band names; the arrays the loop worked on are
    dropped. *)
Definition get_coefficients (date : Z) (records : list string)
    (ysize xsize : Z) (bands : MapAttributes.band_choice)
    (coefs : list string) (use_robust after before : bool) (ndv : Q)
    : io (outcome (Raster.t Q * list string)) :=
  bind (find_result_attributes records bands (Some coefs) use_robust)
    (fun attrs =>
  match attrs with
  | Return (i_bands, i_coefs, use_rmse, _) =>
      bind (iter_records records) (fun recs =>
      ret (match YatsmMap.get_coefficients date recs ysize xsize i_bands
                   i_coefs use_rmse use_robust after before ndv with
           | Ok (raster, _) =>
               Return (raster,
                       MapAttributes.band_names i_coefs i_bands use_rmse)
           | Raise e => Thrown e
           end))
  | Exit code => ret (Exit code)
  | Thrown e => ret (Thrown e)
  end).

Section Prediction.
(** [make_X(date, freq)] of [yatsm.utils]. *)
Variable make_X : list Z -> Z -> list Q.
(** Conversion to the 16-bit integers of the prediction raster. *)
Variable astype_int : Q -> Z.

(** [get_prediction]: the raster is filled with [int(ndv)]. *)
Definition get_prediction (date : Z) (records : list string)
    (ysize xsize : Z) (bands : MapAttributes.band_choice)
    (use_robust after before : bool) (ndv : Q)
    : io (outcome (Raster.t Z)) :=
  bind (find_result_attributes records bands None use_robust) (fun attrs =>
  match attrs with
  | Return (i_bands, _, _, freq) =>
      bind (iter_records records) (fun recs =>
      ret (match YatsmMap.get_prediction (make_X freq) astype_int date recs
                   ysize xsize i_bands after before (Raster.truncate ndv) with
           | Ok raster => Return raster
           | Raise e => Thrown e
           end))
  | Exit code => ret (Exit code)
  | Thrown e => ret (Thrown e)
  end).
End Prediction.

End MapFunctions.

(** ** yatsm/cli/pixel.py: [plot_VAL] *)

Module PixelPlots.

(** [np.tile(a, n)] for a one-dimensional array. *)
Definition np_tile {A} (a : list A) (n : nat) : list A := concat (replicate n a).

(** The three arrays [plot_VAL] hands to [plt.scatter]: the days of year
    shifted by multiples of 366, the years and the values, each repeated
    [reps + 1] times. *)
Definition plot_VAL (doy year : list Z) (y : list Q) (reps : Z)
    : result (list Z * list Z * list Q) :=
  let _doy := foldl (fun acc r => acc ++ ((fun d => d + r * 366) <$> doy))
                    doy (MapAttributes.range 1 (reps + 1)) in
  if reps + 1 <? 0 then Raise (ValueError "negative dimensions are not allowed")
  else Ok (_doy, np_tile year (Z.to_nat (reps + 1)),
           np_tile y (Z.to_nat (reps + 1))).

End PixelPlots.

(** ** yatsm/plots.py *)

Module Plots.

(** [l.remove(x)]: the first occurrence goes, a missing value raises. *)
Fixpoint list_remove (x : Z) (l : list Z) : result (list Z) :=
  match l with
  | [] => Raise (ValueError "list.remove(x): x not in list")
  | y :: l' =>
      if decide (y = x) then Ok l'
      else l'' ← list_remove x l'; Ok (y :: l'')
  end.

(** The tick labels built by [plot_feature_importance] from the number of
    frequencies, the number of bands and the index of the mask band. *)
Definition feature_names (n_freq : nat) (n_bands mask_band : Z)
    : result (list string) :=
  let betas := MapAttributes.range 0 (2 + 2 * Z.of_nat n_freq) in
  bands ← list_remove (mask_band + 1) (MapAttributes.range 1 (n_bands + 1));
  Ok ((i ← betas; b ← bands;
         ["$Band " +:+ pretty b +:+ " \beta_" +:+ pretty i +:+ "$"])
      ++ (i ← betas; b ← bands;
            ["$Band " +:+ pretty b +:+ " RMSE_" +:+ pretty i +:+ "$"])).

End Plots.

(** ** yatsm/config_parser.py *)

Module ConfigParser.

(** [parse_config_file], given the version string of the ['metadata']
    section and what [_parse_config_v_zero_pt_one] does on the file. *)
Definition parse_config_file {A} (version_string : string)
    (_parse_config_v_zero_pt_one : result A) : result (option A) :=
  let version := Text.split_on Text.dot version_string in
  v0 ← py_index version 0;
  if decide (v0 = "0") then
    v1 ← py_index version 1;
    if decide (v1 = "1") then
      config ← _parse_config_v_zero_pt_one; Ok (Some config)
    else Ok None
  else Ok None.

End ConfigParser.

(** ** yatsm/cli/train_mult.py: cache and result attributes *)

Module TrainSetup.

(** What the file system says about the cache file and the training
    image. *)
Record files := {
  cache_is_file : bool;
  cache_mtime : Z;
  training_mtime : Z
}.

(** Truth value of an optional file name: [None] and the empty string are
    false. *)
Definition configured (name : option string) : bool :=
  match name with
  | Some s => negb (bool_decide (s = EmptyString))
  | None => false
  end.

(** [is_cache_old]. *)
Definition is_cache_old (cache_file : option string) (fs : files) : bool :=
  if configured cache_file && cache_is_file fs
  then cache_mtime fs <? training_mtime fs
  else false.

(** The decisions [train] takes about the training data: whether [X] and
    [y] are read from the result files (rather than from the cache), and
    whether they are saved to the cache file afterwards. *)
Definition cache_plan (training_cache : option string) (fs : files) : bool * bool :=
  let has_cache :=
    if configured training_cache
    then (if negb (cache_is_file fs) then false else true)
    else false in
  let regenerate_cache := is_cache_old training_cache fs in
  let read_inputs := negb has_cache || regenerate_cache in
  let save_cache := negb has_cache && configured training_cache in
  (read_inputs, save_cache).

(** [find_result_attributes]: the design information of the first result
    file that gives one; [None] stands for a file that fails to load or has
    no ['design_matrix']. *)
Fixpoint find_result_attributes {D} (results : list (option D)) : result D :=
  match results with
  | [] => Raise (AttributeError
                   "Could not find following attributes in results: ['design_info']")
  | Some d :: _ => Ok d
  | None :: rest => find_result_attributes rest
  end.

End TrainSetup.

(** ** Further predicates used in the statements *)

(** The record [r] matches the query of the training lookup: it starts
    before the training start, ends after the training end and sits in
    the pixel column [_col]. *)
Definition model_matches (training_start training_end _col : Z)
    (r : Saved.segment) : Prop :=
  Saved.start r < training_start /\ training_end < Saved.end_ r
  /\ Saved.px r = _col.

(** The features taken from a record with intercept row [c0], slope row
    [c1] and further rows [rest]: the intercepts moved to the midpoint of
    the segment, the other coefficients as stored, then the RMSE. *)
Definition midpoint_features (r : Saved.segment) (c0 c1 : list Q)
    (rest : list (list Q)) : list Q :=
  (zip_with (fun a b =>
               (a + b * inject_Z (wrap_i4 (Saved.start r + Saved.end_ r)) / 2)%Q)
            c0 c1
   ++ c1 ++ concat rest) ++ Saved.rmse r.

(** The record [r] sits at the raster cell [(y, x)]. *)
Definition at_pixel (ysize xsize y x : Z) (r : Saved.segment) : Prop :=
  Raster.norm_index ysize (Saved.py r) = Ok y
  /\ Raster.norm_index xsize (Saved.px r) = Ok x.

(** [r'] is [r] up to the first row of the coefficient matrix in use. *)
Definition same_but_intercept (use_robust : bool) (r r' : Saved.segment) : Prop :=
  Saved.start r' = Saved.start r /\ Saved.end_ r' = Saved.end_ r
  /\ Saved.break r' = Saved.break r
  /\ Saved.px r' = Saved.px r /\ Saved.py r' = Saved.py r
  /\ Saved.rmse r' = Saved.rmse r /\ Saved.robust_rmse r' = Saved.robust_rmse r
  /\ Saved.get_coef (negb use_robust) r' = Saved.get_coef (negb use_robust) r
  /\ drop 1 (Saved.get_coef use_robust r') = drop 1 (Saved.get_coef use_robust r).

(** A record that [get_prediction] can handle: as many coefficient rows as
    the design row has entries, every asked band in every row, and a pixel
    inside the raster. *)
Definition predictable (X : list Q) (i_bands : list Z) (ysize xsize : Z)
    (r : Saved.segment) : Prop :=
  length (Saved.coef r) = length X
  /\ Forall (fun row => Forall (fun b => exists c, py_index row b = Ok c) i_bands)
            (Saved.coef r)
  /\ (exists y, Raster.norm_index ysize (Saved.py r) = Ok y)
  /\ (exists x, Raster.norm_index xsize (Saved.px r) = Ok x).

(** The record array of a result file has the two fields the scan asks
    for. *)
Definition has_fields (use_robust : bool) (f : MapAttributes.result_file) : Prop :=
  (if use_robust then "robust_coef" else "coef") ∈ MapAttributes.dtype_names f
  /\ (if use_robust then "robust_rmse" else "rmse") ∈ MapAttributes.dtype_names f.

(** The record array has an element and its coefficient field has the
    two-dimensional shape [(c, b)]. *)
Definition shaped (use_robust : bool) (f : MapAttributes.result_file)
    (c b : nat) : Prop :=
  MapAttributes.n_elements f <> 0%nat
  /\ (if use_robust then MapAttributes.robust_coef_shape f
      else MapAttributes.coef_shape f) = [c; b].

(** A file the scan passes over: it cannot be loaded, or its array has no
    fields, or it has the fields but no element or no two-dimensional
    coefficient field. *)
Definition skipped_file (use_robust : bool)
    (o : option MapAttributes.result_file) : Prop :=
  match o with
  | None => True
  | Some f => MapAttributes.dtype_names f = []
              \/ (has_fields use_robust f /\ forall c b, ~ shaped use_robust f c b)
  end.

(** A file the scan stops at with the shape [(c, b)]. *)
Definition usable_file (use_robust : bool) (f : MapAttributes.result_file)
    (c b : nat) : Prop :=
  has_fields use_robust f /\ shaped use_robust f c b.

(** Band 0 apart, every cell of the raster holds the no-data value. *)
Definition band0_raster (nb : nat) (ndv : Z) (r : Raster.t Z) : Prop :=
  Raster.nband r = nb /\ Raster.ndv r = ndv
  /\ forall y x, length (Raster.cell r y x) = nb
                 /\ drop 1 (Raster.cell r y x) = replicate (nb - 1) ndv.

(** [v] is the converted label, or with [pred_proba] the converted
    probability, of a record that [find_indices] selects in one of the
    files and that sits at the cell [(y, x)]. *)
Definition classified (astype : Z -> Z) (date : Z)
    (records : list Classification.labelled) (ysize xsize : Z)
    (after before pred_proba : bool) (y x v : Z) : Prop :=
  exists rec index i r c,
    rec ∈ records
    /\ index ∈ YatsmMap.find_indices (Classification.segments rec) date after before
    /\ i ∈ index /\ Classification.segments rec !! i = Some r
    /\ at_pixel ysize xsize y x r
    /\ (if pred_proba then Classification.class_proba rec
        else Classification.class rec) ≫= (fun column => column !! i) = Some c
    /\ v = astype c.

(** ** Further inputs for the instances *)

Module MoreExamples.

(** A fitted segment over days 10 to 13 with intercept 1 and slope 1. *)
Definition fitted : YATSM.segment :=
  {| YATSM.start := 10; YATSM.end_ := 13; YATSM.break := 0;
     YATSM.coef := [[1%Q]; [1%Q]]; YATSM.px := 0; YATSM.py := 0 |}.



(** A classified result file with one segment, label 3, probability 7. *)
Definition labelled_10_20 : Classification.labelled :=
  {| Classification.segments := [Examples.segment_10_20];
     Classification.class := Some [3];
     Classification.class_proba := Some [7] |}.

(** A result file with a record of two coefficients over one band. *)
Definition usable : MapAttributes.result_file :=
  {| MapAttributes.dtype_names :=
       ["start"; "end"; "break"; "coef"; "rmse"; "px"; "py"];
     MapAttributes.n_elements := 1;
     MapAttributes.coef_shape := [2; 1]%nat;
     MapAttributes.robust_coef_shape := [];
     MapAttributes.freq := [1] |}.

(** The same with the three frequencies of a harmonic model. *)
Definition harmonic : MapAttributes.result_file :=
  {| MapAttributes.dtype_names := MapAttributes.dtype_names usable;
     MapAttributes.n_elements := 1;
     MapAttributes.coef_shape := [2; 1]%nat;
     MapAttributes.robust_coef_shape := [];
     MapAttributes.freq := [1; 2; 3] |}.

(** A file whose ['record'] entry is an array without fields. *)
Definition fieldless : MapAttributes.result_file :=
  {| MapAttributes.dtype_names := [];
     MapAttributes.n_elements := 0;
     MapAttributes.coef_shape := [];
     MapAttributes.robust_coef_shape := [];
     MapAttributes.freq := [1] |}.

(** Parsed arguments of a classification run and of a coefficient run for
    day 15, with [--ndv -9999]. *)
Definition class_args : MapMain.arguments :=
  {| MapMain.class := true; MapMain.coef := false; MapMain.predict := false;
     MapMain.date := 15; MapMain.bands := MapAttributes.AllBands;
     MapMain.coefs := ["all"]; MapMain.use_robust := false;
     MapMain.after := false; MapMain.before := false;
     MapMain.pred_proba := true; MapMain.ndv := (-9999)%Q |}.

Definition coef_args : MapMain.arguments :=
  {| MapMain.class := false; MapMain.coef := true; MapMain.predict := false;
     MapMain.date := 15; MapMain.bands := MapAttributes.AllBands;
     MapMain.coefs := ["all"]; MapMain.use_robust := false;
     MapMain.after := false; MapMain.before := false;
     MapMain.pred_proba := false; MapMain.ndv := (-9999)%Q |}.

(** The name of the result file of a row, and a directory that holds the
    file of row 0 only. *)
Definition output_name (_row : Z) : result string :=
  Ok ("yatsm_r" +:+ pretty _row +:+ ".npz").

Definition load_record (name : string) : result (list Saved.segment) :=
  if decide (name = "yatsm_r0.npz") then Ok Examples.training_record
  else Raise (IOError "no such file").

(** A training image without labels whose only sample sits at row 0,
    column 0 and has the label 7, with the training dates 12 to 18 and 10
    to 20. *)
Definition image_12_18
  : result (Z * Z * list (Z * Z * Z) * option (list (list Z))) :=
  Ok (12, 18, [(0, 0, 7)], None).

Definition image_10_20
  : result (Z * Z * list (Z * Z * Z) * option (list (list Z))) :=
  Ok (10, 20, [(0, 0, 7)], None).

(** One result file on disk, holding the segment of days 10 to 20. *)
Definition result_disk : Store.disk :=
  {[ "yatsm_r0.npz" := {| Store.attributes := usable;
                          Store.record := [Examples.segment_10_20] |} ]}.

(** [make_X] for a design of intercept and slope, whatever the
    frequencies. *)
Definition linear_X (freq : list Z) (d : Z) : list Q := Examples.linear_row d.

End MoreExamples.

(** * Properties *)

(** ** The error monad *)

Lemma bind_Ok {A B} (m : result A) (f : A -> result B) (b : B) :
  m ≫= f = Ok b -> exists a, m = Ok a /\ f a = Ok b.
Proof. destruct m as [a|e]; simpl; [eauto | discriminate]. Qed.

Lemma bind_Raise {A B} (f : A -> result B) (e : exn) :
  (Raise e : result A) ≫= f = Raise e.
Proof. reflexivity. Qed.

(** Destructs hypotheses of the form [m ≫= f = Ok b]. *)
Ltac inv_bind :=
  repeat match goal with
  | H : _ ≫= _ = Ok _ |- _ =>
      let a := fresh "a" in
      let Ha := fresh "Ha" in
      apply bind_Ok in H; destruct H as (a & Ha & H)
  | H : Ok _ = Ok _ |- _ => injection H as H; try subst
  | H : Raise _ = Ok _ |- _ => discriminate H
  end.

Lemma for_each_app {S A} (body : A -> S -> result S) (l1 l2 : list A) (s : S) :
  for_each body (l1 ++ l2) s = for_each body l1 s ≫= for_each body l2.
Proof.
  revert s; induction l1 as [|x l1 IH]; intros s; simpl; [done|].
  destruct (body x s) as [s'|e]; simpl; [apply IH | done].
Qed.

(** A property kept by every iteration that returns is kept by the loop. *)
Lemma for_each_invariant {S A} (body : A -> S -> result S) (I : S -> Prop)
    (l : list A) :
  (forall x s s', x ∈ l -> I s -> body x s = Ok s' -> I s') ->
  forall s s', I s -> for_each body l s = Ok s' -> I s'.
Proof.
  induction l as [|x l IH]; intros Hbody s s' Hs Hrun; simpl in Hrun.
  - by injection Hrun as <-.
  - inv_bind. eapply IH; [| |exact Hrun].
    + intros y t t' Hy. apply Hbody. by right.
    + eapply Hbody; [by left|exact Hs|exact Ha].
Qed.

Lemma map_result_Ok {A B} (f : A -> result B) (l : list A) (l' : list B) :
  map_result f l = Ok l' -> Forall2 (fun x y => f x = Ok y) l l'.
Proof.
  revert l'; induction l as [|x l IH]; intros l' H; simpl in H.
  - injection H as <-. constructor.
  - inv_bind. constructor; [done|]. by apply IH.
Qed.

(** ** The constructor of the base class *)

Section Constructor.
Import YATSM.

Variable next_init : gmap string Z -> result unit.

(** What a returning constructor has computed. *)
Lemma init_Ok fit design test kwargs m :
  __init__ next_init fit design test kwargs = Ok m ->
  exists sl l,
    term_name_slices design !! "x" = Some sl
    /\ fit = PySeq l
    /\ next_init kwargs = Ok tt
    /\ m = {| fit_indices := Array1 l;
              design_info := design;
              i_x := slice_start sl;
              test_indices := np_asarray test;
              record_template :=
                set_py (kwargs_get kwargs "py" 0)
                  (set_px (kwargs_get kwargs "px" 0)
                     (np_zeros 1 (length (column_names design)) (length l)));
              n_record := 0;
              record :=
                set_py (kwargs_get kwargs "py" 0)
                  (set_px (kwargs_get kwargs "px" 0)
                     (np_zeros 1 (length (column_names design)) (length l))) |}.
Proof.
  unfold __init__. intros H.
  destruct (term_name_slices design !! "x") as [sl|] eqn:Hx; [|discriminate].
  destruct fit as [|l]; simpl in H; [discriminate|].
  destruct (next_init kwargs) as [[]|e] eqn:Hn; simpl in H; [|discriminate].
  injection H as <-. by exists sl, l.
Qed.

(** C4 (amended): a design without a term named "x" makes the constructor
    raise [AttributeError], whatever the other arguments are and before
    the record template is built or the next initialiser runs; with the
    term present, a model that is returned exposes the start of the
    term's slice as [i_x], and the constructor does return one when the
    fit indices are a sequence and the next initialiser accepts the
    keyword arguments. *)
Theorem C4_slope_term_required fit design test kwargs :
  (term_name_slices design !! "x" = None ->
     __init__ next_init fit design test kwargs = Raise (AttributeError no_slope_msg))
  /\ (forall sl, term_name_slices design !! "x" = Some sl ->
        (forall m, __init__ next_init fit design test kwargs = Ok m ->
                   i_x m = slice_start sl)
        /\ (forall l, fit = PySeq l -> next_init kwargs = Ok tt ->
              exists m, __init__ next_init fit design test kwargs = Ok m
                        /\ i_x m = slice_start sl)).
Proof.
  split.
  - intros Hx. unfold __init__. by rewrite Hx.
  - intros sl Hx. split.
    + intros m Hm. apply init_Ok in Hm as (sl' & l & Hx' & _ & _ & ->).
      simpl. congruence.
    + intros l -> Hn. unfold __init__. rewrite Hx. simpl. rewrite Hn. simpl.
      eexists. split; reflexivity.
Qed.

(** C8: a constructor that returns was given a sequence of fit indices,
    and the ['coef'] entry of the record template has one row per column
    of the design matrix and one column per index of that sequence, both
    in the declared shape of the field and in the zero matrix it holds. *)
Theorem C8_coef_shape fit design test kwargs m :
  __init__ next_init fit design test kwargs = Ok m ->
  exists l,
    fit = PySeq l
    /\ fit_indices m = Array1 l
    /\ coef_shape (record_template m) = (length (column_names design), length l)
    /\ exists r, items (record_template m) = [r]
         /\ length (coef r) = length (column_names design)
         /\ Forall (fun row => length row = length l) (coef r).
Proof.
  intros Hm. apply init_Ok in Hm as (sl & l & _ & -> & _ & ->).
  exists l. simpl. repeat split. eexists. split; [reflexivity|]. simpl.
  split.
  - apply length_replicate.
  - apply Forall_replicate. apply length_replicate.
Qed.

(** C10: a model that was just constructed already holds one record:
    [__len__] is 1 although [n_record] is 0, and iteration yields one
    record whose [start], [end], [break] and coefficients are 0 and whose
    [px] and [py] are the keyword arguments of those names stored as ['u2'],
    0 when absent. *)
Theorem C10_initial_record fit design test kwargs m :
  __init__ next_init fit design test kwargs = Ok m ->
  __len__ m = 1%nat
  /\ n_record m = 0
  /\ exists r, __iter__ m = [r]
       /\ start r = 0 /\ end_ r = 0 /\ break r = 0
       /\ Forall (Forall (fun c => c = 0%Q)) (coef r)
       /\ px r = to_u2 (kwargs_get kwargs "px" 0)
       /\ py r = to_u2 (kwargs_get kwargs "py" 0)
       /\ (kwargs !! "px" = None -> px r = 0)
       /\ (kwargs !! "py" = None -> py r = 0)
       /\ (forall v, kwargs !! "px" = Some v -> 0 <= v < 65536 -> px r = v)
       /\ (forall v, kwargs !! "py" = Some v -> 0 <= v < 65536 -> py r = v).
Proof.
  intros Hm. apply init_Ok in Hm as (sl & l & _ & _ & _ & ->).
  unfold __len__, __iter__, kwargs_get. simpl. repeat split.
  eexists. split; [reflexivity|]. simpl. repeat split.
  - apply Forall_replicate, Forall_replicate. reflexivity.
  - by intros ->.
  - by intros ->.
  - intros v -> Hv. simpl. unfold to_u2. by apply Z.mod_small.
  - intros v -> Hv. simpl. unfold to_u2. by apply Z.mod_small.
Qed.

End Constructor.

(** ** NumPy helpers *)

Lemma elem_of_where_from {A} (p : A -> bool) (k : nat) (a : list A) (i : nat) :
  i ∈ where_from p k a <->
  exists j x, i = (k + j)%nat /\ a !! j = Some x /\ p x = true.
Proof.
  revert k; induction a as [|y a IH]; intros k; simpl.
  - split; [by intros ?%elem_of_nil | by intros (j & x & _ & ? & _)].
  - assert (i ∈ where_from p (S k) a <->
            exists j x, i = (k + S j)%nat /\ a !! j = Some x /\ p x = true) as IH'.
    { rewrite IH. split; intros (j & x & -> & ? & ?); exists j, x; split_and!; auto; lia. }
    destruct (p y) eqn:Hy.
    + rewrite elem_of_cons, IH'. split.
      * intros [->|(j & x & -> & ? & ?)].
        -- exists 0%nat, y. split_and!; auto; lia.
        -- exists (S j), x. by split_and!.
      * intros (j & x & -> & Hj & Hx). destruct j as [|j]; simpl in Hj.
        -- left; lia.
        -- right. by exists j, x.
    + rewrite IH'. split.
      * intros (j & x & -> & ? & ?). exists (S j), x. by split_and!.
      * intros (j & x & -> & Hj & Hx). destruct j as [|j]; simpl in Hj.
        -- congruence.
        -- by exists j, x.
Qed.

Lemma elem_of_np_where {A} (p : A -> bool) (a : list A) (i : nat) :
  i ∈ np_where p a <-> exists x, a !! i = Some x /\ p x = true.
Proof.
  unfold np_where. rewrite elem_of_where_from. split.
  - intros (j & x & -> & ? & ?). by exists x.
  - intros (x & ? & ?). by exists i, x.
Qed.

Lemma where_from_sorted {A} (p : A -> bool) (k : nat) (a : list A) :
  StronglySorted lt (where_from p k a).
Proof.
  revert k; induction a as [|y a IH]; intros k; simpl; [constructor|].
  destruct (p y); [|apply IH].
  constructor; [apply IH|]. apply Forall_forall. intros i Hi.
  apply elem_of_where_from in Hi as (j & x & -> & _). lia.
Qed.

Lemma StronglySorted_lookup_lt (l : list nat) (j k i i' : nat) :
  StronglySorted lt l -> l !! j = Some i -> l !! k = Some i' ->
  (j < k)%nat -> (i < i')%nat.
Proof.
  intros Hs; revert j k; induction Hs as [|x l Hs IH Hx]; intros j k Hj Hk Hlt.
  - by rewrite lookup_nil in Hj.
  - destruct k as [|k]; [lia|]. destruct j as [|j]; simpl in *.
    + injection Hj as ->. rewrite Forall_forall in Hx. apply Hx.
      by eapply list_elem_of_lookup_2.
    + eapply IH; eauto. lia.
Qed.

Lemma np_where_NoDup {A} (p : A -> bool) (a : list A) : NoDup (np_where p a).
Proof.
  unfold np_where. generalize (where_from_sorted p 0 a).
  induction 1 as [|x l Hs IH Hx]; constructor; [|done].
  intros Hin. rewrite Forall_forall in Hx. specialize (Hx _ Hin). lia.
Qed.

Lemma np_where_lookup_lt {A} (p : A -> bool) (a : list A) (j k i i' : nat) :
  np_where p a !! j = Some i -> np_where p a !! k = Some i' ->
  (i < i')%nat -> (j < k)%nat.
Proof.
  intros Hj Hk Hlt.
  destruct (decide (j < k)%nat) as [|Hge]; [done|exfalso].
  destruct (decide (j = k)) as [->|Hne]; [rewrite Hj in Hk; injection Hk; lia|].
  assert (i' < i)%nat; [|lia].
  eapply (StronglySorted_lookup_lt _ k j); eauto using where_from_sorted. lia.
Qed.

Lemma lookup_take_indices {A} (a : list A) (idx : list nat) (j : nat) :
  Forall (fun i => is_Some (a !! i)) idx ->
  take_indices a idx !! j = idx !! j ≫= (a !!.).
Proof.
  unfold take_indices. intros H; revert j; induction H as [|i idx [x Hx] H IH]; intros j.
  - done.
  - simpl. rewrite Hx. destruct j as [|j]; simpl; [by rewrite Hx|apply IH].
Qed.

Lemma first_index_Some (v : Z) (l : list Z) (j : nat) :
  first_index v l = Some j <->
  l !! j = Some v /\ forall k, (k < j)%nat -> l !! k <> Some v.
Proof.
  revert j; induction l as [|x l IH]; intros j; simpl.
  - split; [done|by intros [? _]].
  - destruct (Z.eqb_spec x v) as [->|Hne].
    + split.
      * intros [= <-]. split; [done|lia].
      * intros [Hj Hmin]. destruct j as [|j]; [done|].
        exfalso. apply (Hmin 0%nat); [lia|done].
    + rewrite fmap_Some. split.
      * intros (j' & Hf & ->). apply IH in Hf as [Hj Hmin]. split; [done|].
        intros [|k] Hk; simpl; [congruence|]. apply Hmin. lia.
      * intros [Hj Hmin]. destruct j as [|j]; simpl in Hj; [congruence|].
        exists j. split; [|done]. apply IH. split; [done|].
        intros k Hk. apply (Hmin (S k)). lia.
Qed.

Lemma first_index_is_Some (v : Z) (l : list Z) :
  v ∈ l -> exists j, first_index v l = Some j.
Proof.
  induction 1 as [x l|x y l _ IH]; simpl.
  - rewrite Z.eqb_refl. eauto.
  - destruct (Z.eqb y x); [eauto|]. destruct IH as [j ->]. simpl. eauto.
Qed.

Lemma elem_of_insert_unique (v x : Z) (l : list Z) :
  x ∈ insert_unique v l <-> x = v \/ x ∈ l.
Proof.
  induction l as [|y l IH]; simpl.
  - rewrite list_elem_of_singleton, elem_of_nil. tauto.
  - destruct (Z.ltb_spec v y); [by rewrite elem_of_cons|].
    destruct (Z.eqb_spec v y) as [->|]; [rewrite elem_of_cons; tauto|].
    rewrite !elem_of_cons, IH. tauto.
Qed.

Lemma elem_of_np_unique (x : Z) (l : list Z) : x ∈ np_unique l <-> x ∈ l.
Proof.
  unfold np_unique. induction l as [|y l IH]; simpl; [done|].
  rewrite elem_of_insert_unique, elem_of_cons, IH. tauto.
Qed.

(** The positions returned next to the distinct values are those of first
    occurrences, one for every value that occurs. *)
Lemma elem_of_np_unique_index (l : list Z) (j : nat) :
  j ∈ np_unique_index l <->
  exists v, l !! j = Some v /\ forall k, (k < j)%nat -> l !! k <> Some v.
Proof.
  unfold np_unique_index. rewrite list_elem_of_omap. split.
  - intros (v & _ & Hf). exists v. by apply first_index_Some.
  - intros (v & Hj & Hmin). exists v. split.
    + apply elem_of_np_unique. by eapply list_elem_of_lookup_2.
    + apply first_index_Some. by split.
Qed.

(** ** [find_indices] *)

Section FindIndices.
Import Saved YatsmMap.

Variable record : list segment.
Variable date : Z.

Lemma elem_of_index_before (i : nat) :
  i ∈ index_before date record <->
  exists r, record !! i = Some r /\ end_ r <= date /\ break r = 0.
Proof.
  unfold index_before. rewrite elem_of_np_where.
  split; intros (r & Hr & H); exists r; (split; [done|]).
  - apply andb_true_iff in H as [?%Z.leb_le ?%Z.eqb_eq]. done.
  - apply andb_true_iff. destruct H. split; [by apply Z.leb_le|by apply Z.eqb_eq].
Qed.

Lemma elem_of_index_intersecting (i : nat) :
  i ∈ index_intersecting date record <->
  exists r, record !! i = Some r /\ start r <= date <= end_ r.
Proof.
  unfold index_intersecting. rewrite elem_of_np_where.
  split; intros (r & Hr & H); exists r; (split; [done|]).
  - apply andb_true_iff in H as [?%Z.leb_le ?%Z.geb_le]. done.
  - apply andb_true_iff. destruct H. split; [by apply Z.leb_le|by apply Z.geb_le].
Qed.

(** The candidates of the "after" lookup and their pixel columns. *)
Let candidates : list nat := np_where (fun r => start r >=? date) record.
Let columns : list Z := px <$> take_indices record candidates.

Lemma elem_of_candidates (i : nat) :
  i ∈ candidates <-> exists r, record !! i = Some r /\ date <= start r.
Proof.
  unfold candidates. rewrite elem_of_np_where.
  split; intros (r & Hr & H); exists r; (split; [done|]).
  - by apply Z.geb_le.
  - by apply Z.geb_le.
Qed.

Lemma candidates_in_range : Forall (fun i => is_Some (record !! i)) candidates.
Proof.
  apply Forall_forall. intros i (r & Hr & _)%elem_of_candidates. by exists r.
Qed.

Lemma lookup_columns (j : nat) (v : Z) :
  columns !! j = Some v <->
  exists i r, candidates !! j = Some i /\ record !! i = Some r /\ px r = v.
Proof.
  unfold columns. rewrite list_lookup_fmap, lookup_take_indices by apply candidates_in_range.
  destruct (candidates !! j) as [i|] eqn:Hc; simpl.
  - destruct (record !! i) as [r|] eqn:Hr; simpl.
    + split; [intros [= <-]; by exists i, r|].
      intros (i' & r' & [= <-] & Hr' & <-). congruence.
    + split; [done|]. intros (i' & r' & [= <-] & ? & _). congruence.
  - split; [done|]. intros (i' & r' & ? & _). done.
Qed.

Lemma elem_of_index_after (i : nat) :
  i ∈ index_after date record <->
  exists r, record !! i = Some r /\ date <= start r
    /\ forall j r', (j < i)%nat -> record !! j = Some r' -> date <= start r' ->
                    px r' <> px r.
Proof.
  unfold index_after. fold candidates. fold columns.
  unfold take_indices at 1. rewrite list_elem_of_omap. split.
  - intros (j & Hj & Hi). apply elem_of_np_unique_index in Hj as (v & Hv & Hmin).
    apply lookup_columns in Hv as (i' & r & Hi' & Hr & <-).
    assert (i' = i) as -> by congruence.
    exists r. split; [done|]. split.
    { assert (i ∈ candidates) as (r0 & Hr0 & ?)%elem_of_candidates
        by (by eapply list_elem_of_lookup_2).
      congruence. }
    intros j' r' Hlt Hr' Hstart Hpx.
    assert (j' ∈ candidates) as (k & Hk)%list_elem_of_lookup_1.
    { apply elem_of_candidates. by exists r'. }
    apply (Hmin k).
    + eapply np_where_lookup_lt; [exact Hk|exact Hi|exact Hlt].
    + apply lookup_columns. by exists j', r'.
  - intros (r & Hr & Hstart & Hfirst).
    assert (i ∈ candidates) as (j & Hj)%list_elem_of_lookup_1.
    { apply elem_of_candidates. by exists r. }
    exists j. split; [|done].
    apply elem_of_np_unique_index. exists (px r). split.
    + apply lookup_columns. by exists i, r.
    + intros k Hk (i' & r' & Hi' & Hr' & Hpx)%lookup_columns.
      apply (Hfirst i' r'); [|done| |done].
      * eapply (StronglySorted_lookup_lt _ k j); eauto.
        apply where_from_sorted.
      * assert (i' ∈ candidates) as (r0 & Hr0 & ?)%elem_of_candidates
          by (by eapply list_elem_of_lookup_2).
        congruence.
Qed.

(** C6: the lookup yields, in this order, the "before" indices when asked
    for (exactly the records with [end <= date] and [break = 0]), the
    "after" indices when asked for (among the records with
    [start >= date], the first one of each pixel column), and last, always,
    the indices of the records with [start <= date <= end]. *)
Theorem C6_find_indices_order (after before : bool) :
  find_indices record date after before =
    (if before then [index_before date record] else [])
    ++ (if after then [index_after date record] else [])
    ++ [index_intersecting date record]
  /\ last (find_indices record date after before)
     = Some (index_intersecting date record)
  /\ (forall i, i ∈ index_before date record <->
        exists r, record !! i = Some r /\ end_ r <= date /\ break r = 0)
  /\ (forall i, i ∈ index_after date record <->
        exists r, record !! i = Some r /\ date <= start r
          /\ forall j r', (j < i)%nat -> record !! j = Some r' ->
               date <= start r' -> px r' <> px r)
  /\ (forall i, i ∈ index_intersecting date record <->
        exists r, record !! i = Some r /\ start r <= date <= end_ r)
  /\ NoDup (index_before date record)
  /\ NoDup (index_intersecting date record).
Proof.
  split_and!.
  - unfold find_indices, find_indices_steps. by destruct before, after.
  - unfold find_indices, find_indices_steps. by destruct before, after.
  - apply elem_of_index_before.
  - apply elem_of_index_after.
  - apply elem_of_index_intersecting.
  - apply np_where_NoDup.
  - apply np_where_NoDup.
Qed.

End FindIndices.

(** ** Rasters *)

Lemma assign_cell_Ok {V} (r r' : Raster.t V) (y x : Z) (lo hi : nat) (vs : list V) :
  Raster.assign_cell r y x lo hi vs = Ok r' ->
  exists y' x',
    Raster.norm_index (Raster.ysize r) y = Ok y'
    /\ Raster.norm_index (Raster.xsize r) x = Ok x'
    /\ length vs = (hi `min` Raster.nband r - lo)%nat
    /\ r' = {| Raster.ysize := Raster.ysize r; Raster.xsize := Raster.xsize r;
               Raster.nband := Raster.nband r; Raster.ndv := Raster.ndv r;
               Raster.cells :=
                 <[(y', x') := take lo (Raster.cell r y' x') ++ vs
                               ++ drop (lo + length vs) (Raster.cell r y' x')]>
                   (Raster.cells r) |}.
Proof.
  unfold Raster.assign_cell. intros H. inv_bind.
  destruct (decide _) as [Hlen|]; [|discriminate].
  injection H as <-. eauto 10.
Qed.

(** A property of the raster kept by every single-cell assignment is kept
    by an assignment through index arrays. *)
Lemma assign_invariant {V} (I : Raster.t V -> Prop) (lo hi : nat) :
  forall (yxs : list (Z * Z)) (rows : list (list V)) (r r' : Raster.t V),
    (forall j y x vs r1 r2, yxs !! j = Some (y, x) -> rows !! j = Some vs ->
       I r1 -> Raster.assign_cell r1 y x lo hi vs = Ok r2 -> I r2) ->
    I r -> Raster.assign r yxs lo hi rows = Ok r' -> I r'.
Proof.
  induction yxs as [|[y x] yxs IH]; intros rows r r' Hstep Hr Hrun; simpl in Hrun.
  - by injection Hrun as <-.
  - destruct rows as [|vs rows]; [by injection Hrun as <-|].
    inv_bind. eapply IH; [| |exact Hrun].
    + intros j. apply (Hstep (S j)).
    + by apply (Hstep 0%nat y x vs r).
Qed.

(** ** [get_prediction] and [plot_results] *)

Section Prediction.
Import Saved YatsmMap.

Variable make_X : Z -> list Q.
Variable astype_int : Q -> Z.
Variables (date : Z) (records : list (list segment)).
Variables (ysize xsize : Z) (i_bands : list Z) (after before : bool).

Local Abbreviation predicted :=
  (predicted make_X astype_int date records ysize xsize i_bands after before).
Local Abbreviation prediction_raster :=
  (prediction_raster make_X astype_int date records ysize xsize i_bands
                     after before).

Lemma tensordot_Ok (X : list Q) (r : segment) (yhat : list Q) :
  tensordot i_bands X r = Ok yhat ->
  length (coef r) = length X
  /\ Forall2 (fun b v => exists col, is_column b (coef r) col
                                     /\ v = sum_product col X) i_bands yhat.
Proof.
  unfold tensordot. destruct (decide _) as [Hlen|]; [|discriminate].
  intros H%map_result_Ok. split; [done|].
  eapply Forall2_impl; [exact H|]. simpl. intros b v Hb. inv_bind.
  exists a. split; [|done]. by apply map_result_Ok.
Qed.

Lemma predicted_length y x vs : predicted y x vs -> length vs = length i_bands.
Proof.
  intros (rec & i & r & yhat & _ & _ & _ & _ & _ & _ & -> & H).
  rewrite length_map. symmetry. by eapply Forall2_length.
Qed.

Lemma cell_length (r : Raster.t Z) (y x : Z) :
  prediction_raster r -> length (Raster.cell r y x) = Raster.nband r.
Proof.
  intros (_ & _ & Hnb & Hcells). unfold Raster.cell.
  destruct (Raster.cells r !! (y, x)) as [vs|] eqn:Hvs; simpl.
  - rewrite Hnb. eapply predicted_length, Hcells, Hvs.
  - apply length_replicate.
Qed.

Lemma predict_index_invariant (rec : list segment) (index : list nat)
    (r r' : Raster.t Z) :
  rec ∈ records -> index ∈ find_indices rec date after before ->
  prediction_raster r ->
  predict_index astype_int i_bands (make_X date) rec index r = Ok r' ->
  prediction_raster r'.
Proof.
  intros Hrec Hindex Hr. unfold predict_index.
  destruct index as [|i0 index0] eqn:Hidx; [by intros [= <-]|].
  rewrite <- Hidx in *. clear Hidx i0 index0. intros H. inv_bind.
  rename a into sel, a0 into yhat.
  apply map_result_Ok in Ha, Ha0.
  revert H. apply assign_invariant; [|done].
  intros j y x vs r1 r2 Hyx Hvs Hr1 Hcell.
  rewrite list_lookup_fmap in Hyx.
  destruct (sel !! j) as [s|] eqn:Hs; [|done]. injection Hyx as <- <-.
  change (map (map astype_int) yhat) with (fmap (map astype_int) yhat) in Hvs.
  rewrite list_lookup_fmap in Hvs.
  destruct (yhat !! j) as [yh|] eqn:Hyh; [|done]. injection Hvs as <-.
  destruct (Forall2_lookup_r _ _ _ _ _ Ha Hs) as (i & Hi & Hat).
  pose proof (Forall2_lookup_lr _ _ _ _ _ _ Ha0 Hs Hyh) as Htd.
  apply tensordot_Ok in Htd as [Hlen Hcols].
  unfold at_index in Hat.
  destruct (rec !! i) as [s'|] eqn:Hri; [|done]. injection Hat as ->.
  apply assign_cell_Ok in Hcell as (y' & x' & Hy & Hx & Hvl & ->).
  pose proof (cell_length r1 y' x' Hr1) as Hold.
  destruct Hr1 as (Hys & Hxs & Hnb & Hcells).
  rewrite Hys in Hy. rewrite Hxs in Hx.
  split_and!; simpl; try done.
  intros y0 x0 vs0. rewrite lookup_insert. case_decide as Hk.
  - injection Hk as <- <-. intros [= <-].
    destruct Hr as (_ & _ & Hnb0 & _).
    rewrite Hnb0, Hnb, Nat.min_id, Nat.sub_0_r in Hvl.
    rewrite drop_ge by lia. rewrite app_nil_r. simpl.
    exists rec, i, s, yh. split_and!; try done.
    exists index. split; [done|]. by eapply list_elem_of_lookup_2.
  - apply Hcells.
Qed.

Lemma predict_rec_invariant (rec : list segment) (r r' : Raster.t Z) :
  rec ∈ records -> prediction_raster r ->
  predict_rec astype_int i_bands (make_X date) date after before rec r = Ok r' ->
  prediction_raster r'.
Proof.
  intros Hrec. unfold predict_rec. apply for_each_invariant.
  intros step s s' Hstep Hs. apply predict_index_invariant; [done| |done].
  unfold find_indices. apply list_elem_of_fmap. by exists step.
Qed.

Lemma fromordinal_Ok (n m : Z) :
  Datetime.fromordinal n = Ok m -> m = n /\ 1 <= n <= Datetime.MAXORDINAL.
Proof.
  unfold Datetime.fromordinal.
  destruct (Z.ltb_spec n 1); [done|].
  destruct (Z.ltb_spec Datetime.MAXORDINAL n); [done|].
  intros [= <-]. lia.
Qed.





End Prediction.

(** ** [get_training_inputs] *)

Lemma py_index_lookup {A} (l : list A) (i : nat) (x : A) :
  l !! i = Some x -> py_index l (Z.of_nat i) = Ok x.
Proof.
  intros Hi. unfold py_index.
  pose proof (lookup_lt_Some _ _ _ Hi) as Hlt.
  destruct (Z.ltb_spec (Z.of_nat i) 0) as [|_]; [lia|].
  destruct (Z.leb_spec 0 (Z.of_nat i)) as [_|]; [|lia].
  destruct (Z.ltb_spec (Z.of_nat i) (Z.of_nat (length l))) as [_|]; [|lia].
  simpl. by rewrite Nat2Z.id, Hi.
Qed.

Section Training.
Import Saved TrainMult.

Variable load : Z -> result (list segment).
Variable exit_on_missing : bool.
Variables training_start training_end : Z.

Local Abbreviation sample :=
  (TrainMult.sample load exit_on_missing training_start training_end).

(** The features of a record whose matrix has an intercept and a slope
    row: the rescaled intercepts, the other coefficients, the RMSE. *)
Lemma features_Ok (r : segment) (c0 c1 : list Q) (rest : list (list Q)) :
  coef r = c0 :: c1 :: rest ->
  features r =
    Ok ((zip_with (fun a b => (a + b * inject_Z (wrap_i4 (start r + end_ r)) / 2)%Q)
                  c0 c1
         ++ c1 ++ concat rest) ++ rmse r).
Proof.
  intros Hc. unfold features, rescale_intercept. rewrite Hc.
  rewrite (py_index_lookup _ 0 c0), (py_index_lookup _ 1 c1) by done.
  reflexivity.
Qed.

End Training.

(** ** Temporal order of the emitted records *)

Lemma temporally_ordered_nil : temporally_ordered [].
Proof. split; [intros i a b Ha; by rewrite lookup_nil in Ha|constructor]. Qed.

Lemma temporally_ordered_snoc (l : list (Z * Z)) (x : Z * Z) :
  temporally_ordered l -> (forall a, a ∈ l -> a.2 <= x.1) -> x.1 <= x.2 ->
  temporally_ordered (l ++ [x]).
Proof.
  intros [Hpairs Hspans] Hlast Hx. split.
  - intros i a b Ha Hb.
    destruct (decide (S i < length l)%nat) as [Hlt|Hge].
    + rewrite lookup_app_l in Ha, Hb by lia. by eapply Hpairs.
    + pose proof (lookup_lt_Some _ _ _ Hb) as Hlen.
      rewrite length_app in Hlen. simpl in Hlen.
      rewrite lookup_app_l in Ha by lia.
      rewrite lookup_app_r in Hb by lia.
      replace (S i - length l)%nat with 0%nat in Hb by lia.
      injection Hb as <-. apply Hlast. by eapply list_elem_of_lookup_2.
  - apply Forall_app. split; [done|]. by constructor.
Qed.

Section DetectorInvariant.
Import Detector.

Variable Fit : Type.
Variable fit : list Observation -> option Fit.
Variable fit_coef : Fit -> list (list Q).
Variable fit_rmse : Fit -> list Q.
Variable statistic : Fit -> Observation -> Q.
Variable usable : Observation -> bool.
Variable cfg : Config.
Variables pixel_x pixel_y : Z.

Local Abbreviation state := (Detector.state Fit).
Local Abbreviation pending := (pending Fit).
Local Abbreviation detector_invariant := (detector_invariant Fit).
Local Abbreviation step :=
  (Detector.step Fit fit fit_coef fit_rmse statistic cfg pixel_x pixel_y).
Local Abbreviation try_fit := (Detector.try_fit Fit fit cfg).

Lemma pending_try_fit (w : list Observation) (n : nat) :
  w <> [] ->
  (pending (try_fit w n) = w \/ pending (try_fit w n) = [])
  /\ match try_fit w n with
     | MONITORING _ w' _ _ => w' <> []
     | _ => True
     end.
Proof.
  intros Hw. unfold Detector.try_fit.
  destruct (_ <=? _)%nat; [|by auto].
  destruct (fit w); [|destruct (_ <? _)%nat]; simpl; rewrite ?app_nil_r; auto.
Qed.

Lemma first_le_last (w run : list Observation) :
  w <> [] -> StronglySorted not_later (w ++ run) ->
  first_date w <= last_date (w ++ run).
Proof.
  destruct w as [|x w]; [done|]. intros _ Hs.
  assert (exists y, last ((x :: w) ++ run) = Some y /\ (y = x \/ y ∈ w ++ run))
    as (y & Hy & Hin).
  { simpl. rewrite last_cons. destruct (last (w ++ run)) as [z|] eqn:Hz.
    - exists z. split; [done|]. right. by apply last_Some_elem_of.
    - exists x. by split; [|left]. }
  unfold last_date. rewrite Hy. simpl.
  destruct Hin as [->|Hin]; [lia|].
  simpl in Hs. apply StronglySorted_cons in Hs as [Hx _].
  rewrite Forall_forall in Hx. by apply Hx.
Qed.

Lemma last_date_elem_of (w : list Observation) :
  w <> [] -> exists o, o ∈ w /\ last_date w = date o.
Proof.
  intros Hw. unfold last_date. destruct (last w) as [o|] eqn:Ho.
  - exists o. split; [by apply last_Some_elem_of|done].
  - by apply last_None in Ho.
Qed.

Lemma first_date_elem_of (w : list Observation) :
  w <> [] -> exists o, o ∈ w /\ first_date w = date o.
Proof. destruct w as [|o w]; [done|]. intros _. exists o. split; [by left|done]. Qed.

(** Dropping a stretch of observations keeps what the invariant says about
    the observations. *)
Lemma observations_shrink (recs : list SegmentRecord) (a b c : list Observation) :
  StronglySorted not_later (a ++ b ++ c) ->
  (forall r o, r ∈ recs -> o ∈ a ++ b ++ c -> end_ r <= date o) ->
  StronglySorted not_later (a ++ c)
  /\ (forall r o, r ∈ recs -> o ∈ a ++ c -> end_ r <= date o).
Proof.
  intros Hs Hend. split.
  - apply StronglySorted_app in Hs as (Hab & Ha & Hbc).
    apply StronglySorted_app_1_r in Hbc.
    apply StronglySorted_app_2; [|done|done].
    intros x1 x2 H1 H2. apply Hab; [done|]. apply elem_of_app. by right.
  - intros r o Hr Ho. apply Hend; [done|].
    rewrite !elem_of_app. apply elem_of_app in Ho. tauto.
Qed.

Lemma try_fit_invariant (recs : list SegmentRecord) (b w rest : list Observation)
    (n : nat) :
  w <> [] ->
  StronglySorted not_later (b ++ w ++ rest) ->
  (forall r o, r ∈ recs -> o ∈ w ++ rest -> end_ r <= date o) ->
  temporally_ordered (spans recs) ->
  detector_invariant (try_fit w n, recs) rest.
Proof.
  intros Hw Hs Hend Hord.
  apply StronglySorted_app_1_r in Hs.
  destruct (pending_try_fit w n Hw) as [[Hp|Hp] Hne]; unfold detector_invariant; simpl;
    rewrite Hp; split_and!; try done.
  - by apply (observations_shrink recs [] w rest).
  - intros r o Hr Ho. apply Hend; [done|]. apply elem_of_app. by right.
Qed.

Lemma step_invariant (st : state * list SegmentRecord) (o : Observation)
    (rest : list Observation) :
  detector_invariant st (o :: rest) -> detector_invariant (step st o) rest.
Proof.
  destruct st as [s recs]. intros (Hs & Hend & Hord & Hne). simpl in *.
  unfold Detector.step. simpl. destruct s as [w n|w f run|]; simpl in *.
  - apply (try_fit_invariant recs []); simpl; try done.
    + by destruct w.
    + by rewrite <- app_assoc.
    + intros r o'. rewrite <- app_assoc. apply Hend.
  - destruct (exceeds _ _ _ _ _).
    + destruct (_ <=? _)%nat.
      * rewrite <- !app_assoc in Hs, Hend. simpl in Hs, Hend.
        destruct (last_date_elem_of w Hne) as (ol & Hol & Hlast).
        destruct (first_date_elem_of w Hne) as (o1 & Ho1 & Hfirst).
        apply (try_fit_invariant _ w); simpl.
        -- by destruct run.
        -- by rewrite <- !app_assoc.
        -- intros r o' [Hr|Hr%list_elem_of_singleton]%elem_of_app Ho'.
           ++ apply (Hend r o' Hr). apply elem_of_app. right.
              by rewrite <- !app_assoc in Ho'.
           ++ subst r. simpl. rewrite Hlast.
              eapply (StronglySorted_app_1_elem_of _ _ _ _ _ Hs Hol).
              by rewrite <- !app_assoc in Ho'.
        -- unfold spans. rewrite fmap_app. simpl.
           apply temporally_ordered_snoc; [done| |]; simpl.
           ++ intros a (r & -> & Hr)%list_elem_of_fmap. simpl. rewrite Hfirst.
              apply (Hend r o1 Hr). apply elem_of_app. by left.
           ++ pose proof (first_le_last w [] Hne) as Hle.
              rewrite app_nil_r in Hle. apply Hle.
              by apply StronglySorted_app_1_l in Hs.
      * unfold detector_invariant. simpl. rewrite <- !app_assoc in *. simpl.
        by split_and!.
    + unfold detector_invariant. simpl. rewrite app_nil_r.
      rewrite <- !app_assoc in Hs, Hend. simpl in Hs, Hend.
      destruct (remove_noise cfg).
      * rewrite <- !app_assoc. simpl.
        destruct (observations_shrink recs w run (o :: rest) Hs Hend).
        split_and!; try done. by destruct w.
      * rewrite <- !app_assoc. simpl. split_and!; try done. by destruct w.
  - unfold detector_invariant. simpl.
    destruct (observations_shrink recs [] [o] rest Hs Hend).
    by split_and!.
Qed.

Lemma run_invariant (series : list Observation) (st : state * list SegmentRecord) :
  detector_invariant st series -> detector_invariant (foldl step st series) [].
Proof.
  revert st; induction series as [|o series IH]; intros st Hst; simpl; [done|].
  by apply IH, step_invariant.
Qed.

Lemma finish_ordered (st : state * list SegmentRecord) :
  detector_invariant st [] ->
  temporally_ordered (spans (finish Fit fit_coef fit_rmse pixel_x pixel_y st)).
Proof.
  destruct st as [s recs]. intros (Hs & Hend & Hord & Hne). simpl in *.
  unfold finish. simpl. destruct s as [w n|w f run|]; simpl in *; try done.
  rewrite app_nil_r in Hs, Hend.
  destruct (first_date_elem_of w Hne) as (o1 & Ho1 & Hfirst).
  unfold spans. rewrite fmap_app. simpl.
  apply temporally_ordered_snoc; [done| |]; simpl.
  - intros a (r & -> & Hr)%list_elem_of_fmap. simpl. rewrite Hfirst.
    apply (Hend r o1 Hr). apply elem_of_app. by left.
  - by apply first_le_last.
Qed.

Lemma usable_series_sorted (obs : list Observation) :
  Sorted Z.le (date <$> obs) ->
  StronglySorted not_later (filter (fun o => usable o = true) obs).
Proof.
  intros Hs%Sorted_StronglySorted; [|apply _].
  induction obs as [|x obs IH]; simpl in *; [constructor|].
  apply StronglySorted_cons in Hs as [Hx Hs]. rewrite filter_cons.
  destruct (decide (usable x = true)); [|by apply IH].
  constructor; [by apply IH|]. apply Forall_forall.
  intros y [_ Hy]%list_elem_of_filter. rewrite Forall_forall in Hx.
  apply Hx. apply list_elem_of_fmap. by exists y.
Qed.

(** C7: the records held by a model are in temporal order and do not
    overlap.  For the base class, whose [fit] is not implemented, this is
    the single record the constructor creates.  For the detector of the
    specification, run on observations given in time order, every emitted
    record has [start <= end] and ends no later than the next one starts. *)
Theorem C7_records_temporally_ordered :
  (forall next_init fit_arg design test kwargs m,
     YATSM.__init__ next_init fit_arg design test kwargs = Ok m ->
     temporally_ordered
       ((fun r => (YATSM.start r, YATSM.end_ r)) <$> YATSM.__iter__ m))
  /\ (forall obs recs,
        Sorted Z.le (date <$> obs) ->
        detect Fit fit fit_coef fit_rmse statistic usable cfg pixel_x pixel_y obs
        = Records recs ->
        temporally_ordered (spans recs)).
Proof.
  split.
  - intros next_init fit_arg design test kwargs m Hm.
    apply init_Ok in Hm as (sl & l & _ & _ & _ & ->).
    unfold YATSM.__iter__. simpl.
    apply (temporally_ordered_snoc [] (0, 0)); simpl; [|by intros a ?%elem_of_nil|done].
    apply temporally_ordered_nil.
  - intros obs recs Hsorted. unfold detect.
    destruct (valid_config cfg); [|discriminate].
    destruct (_ <? _)%nat; intros [= <-]; [apply temporally_ordered_nil|].
    apply finish_ordered, run_invariant.
    unfold detector_invariant. simpl. split_and!; try done.
    + by apply usable_series_sorted.
    + by intros r o ?%elem_of_nil.
Qed.

End DetectorInvariant.

(** ** The claims at concrete inputs *)

Section Instances.
Import Examples.

(** C1 (failing input): with [before] set and the date equal to the end of
    an unbroken segment, the segment is yielded twice (as "before" and as
    "intersecting") and the intercept written for it is
    [1 + 2 * (1 * 15) = 31], not [1 + 1 * (10 + 20) / 2 = 16]; the slope is
    written unchanged. *)
Theorem C1_intercept_normalized_twice :
  YatsmMap.find_indices [segment_10_20] 20 false true = [[0%nat]; [0%nat]]
  /\ exists raster recs,
       YatsmMap.get_coefficients 20 [[segment_10_20]] 1 1 [0] [0; 1] false
                                 false false true (-9999)%Q
       = Ok (raster, recs)
       /\ Forall2 Qeq (Raster.cell raster 0 0) [31%Q; 1%Q]
       /\ (1 + 1 * ((10 + 20) / 2) == 16)%Q
       /\ ~ (31 == 16)%Q.
Proof.
  split; [reflexivity|]. eexists _, _. split; [vm_compute; reflexivity|].
  split; [|split; [reflexivity|discriminate]].
  repeat constructor.
Qed.

(** C9 (failing input): constructed without [test_indices], the model keeps
    the zero-dimensional array made from [None]; it is not the array of fit
    indices. *)
Theorem C9_test_indices_not_defaulted :
  exists m,
    YATSM.__init__ YATSM.object_init (YATSM.PySeq [0; 1; 2]) design_with_slope
                   YATSM.PyNone ∅ = Ok m
    /\ YATSM.fit_indices m = YATSM.Array1 [0; 1; 2]
    /\ YATSM.test_indices m = YATSM.Array0_object
    /\ YATSM.test_indices m <> YATSM.fit_indices m.
Proof.
  eexists. split; [vm_compute; reflexivity|]. simpl. by split_and!.
Qed.

(** The error raised for a design without slope term is an
    [AttributeError]; no [ConfigurationError] is raised. *)
Lemma C4_not_ConfigurationError :
  exists e,
    YATSM.__init__ YATSM.object_init (YATSM.PySeq [0; 1; 2])
                   design_without_slope YATSM.PyNone ∅ = Raise e
    /\ exn_class e = "AttributeError"
    /\ exn_class e <> "ConfigurationError".
Proof. eexists. split; [vm_compute; reflexivity|]. by split. Qed.

Lemma C4_slope_term_witness :
  YATSM.__init__ YATSM.object_init (YATSM.PySeq [0; 1; 2])
                 design_without_slope YATSM.PyNone ∅
  = Raise (AttributeError YATSM.no_slope_msg)
  /\ exists m,
       YATSM.__init__ YATSM.object_init (YATSM.PySeq [0; 1; 2])
                      design_with_slope YATSM.PyNone ∅ = Ok m
       /\ YATSM.i_x m = 1.
Proof.
  split.
  - apply (proj1 (C4_slope_term_required YATSM.object_init (YATSM.PySeq [0; 1; 2])
                    design_without_slope YATSM.PyNone ∅)).
    reflexivity.
  - apply (proj2 (proj2 (C4_slope_term_required YATSM.object_init
                           (YATSM.PySeq [0; 1; 2]) design_with_slope
                           YATSM.PyNone ∅)
                    {| YATSM.slice_start := 1; YATSM.slice_stop := 2 |}
                    eq_refl) [0; 1; 2]); reflexivity.
Defined.

Lemma C8_coef_shape_witness :
  exists m,
    YATSM.__init__ cooperative_init (YATSM.PySeq [0; 1; 2]) design_with_slope
                   YATSM.PyNone {[ "px" := 3; "py" := 4 ]} = Ok m
    /\ YATSM.coef_shape (YATSM.record_template m) = (2%nat, 3%nat)
    /\ exists r, YATSM.items (YATSM.record_template m) = [r]
         /\ length (YATSM.coef r) = 2%nat
         /\ Forall (fun row => length row = 3%nat) (YATSM.coef r).
Proof.
  eexists.
  assert (Hm := C8_coef_shape cooperative_init (YATSM.PySeq [0; 1; 2])
                  design_with_slope YATSM.PyNone {[ "px" := 3; "py" := 4 ]} _ eq_refl).
  destruct Hm as (l & Hfit & _ & Hshape). injection Hfit as <-.
  split; [reflexivity|exact Hshape].
Defined.

Lemma C10_initial_record_witness :
  exists m r,
    YATSM.__init__ cooperative_init (YATSM.PySeq [0; 1; 2]) design_with_slope
                   YATSM.PyNone {[ "px" := 3; "py" := 4 ]} = Ok m
    /\ YATSM.__len__ m = 1%nat
    /\ YATSM.__iter__ m = [r]
    /\ YATSM.start r = 0 /\ YATSM.end_ r = 0 /\ YATSM.break r = 0
    /\ YATSM.px r = 3 /\ YATSM.py r = 4.
Proof.
  eexists.
  assert (Hm := C10_initial_record cooperative_init (YATSM.PySeq [0; 1; 2])
                  design_with_slope YATSM.PyNone {[ "px" := 3; "py" := 4 ]} _ eq_refl).
  destruct Hm as (Hlen & _ & r & Hr & Hs & He & Hb & _ & _ & _ & _ & _ & Hpx & Hpy).
  exists r. split_and!; try done.
  - apply Hpx; [reflexivity|lia].
  - apply Hpy; [reflexivity|lia].
Defined.


Lemma C6_find_indices_witness :
  YatsmMap.find_indices broken_series 22 true true
  = [[0%nat]; [2%nat; 3%nat]; []]
  /\ 2%nat ∈ YatsmMap.index_after 22 broken_series.
Proof.
  destruct (C6_find_indices_order broken_series 22 true true)
    as (Heq & _ & _ & Hafter & _).
  split; [exact Heq|]. apply Hafter.
  exists (saved 26 30 0 1 1 0 0). split; [reflexivity|]. split; [simpl; lia|].
  intros [|[|j]] r' Hj Hr' Hstart; [| |lia]; injection Hr' as <-; simpl in Hstart; lia.
Defined.

Lemma C7_records_ordered_witness :
  exists r1 r2,
    level_detect step_series = Detector.Records [r1; r2]
    /\ Detector.break r1 = 4 /\ Detector.break r2 = 0
    /\ temporally_ordered (spans [r1; r2]).
Proof.
  eexists _, _. split; [vm_compute; reflexivity|]. split; [reflexivity|].
  split; [reflexivity|].
  apply (proj2 (C7_records_temporally_ordered Q level_fit (fun f => [[f]])
                  (fun _ => [0%Q]) level_statistic (fun _ => true)
                  level_config 0 0) step_series).
  - repeat constructor; simpl; lia.
  - vm_compute; reflexivity.
Defined.

End Instances.

(** * Further properties of the code *)

(** ** More on [find_indices] *)

Section FindIndicesMore.
Import Saved YatsmMap.

Variable record : list segment.
Variable date : Z.

(** X1: a record is yielded both as "before" and as "intersecting" exactly
    when it has no break and ends on the date itself (having started by
    then); a record yielded both as "after" and as "intersecting" starts on
    the date.  Every other record is yielded at most once by these pairs. *)
Theorem find_indices_overlap (i : nat) :
  (i ∈ index_before date record /\ i ∈ index_intersecting date record <->
     exists r, record !! i = Some r /\ start r <= date /\ end_ r = date
               /\ break r = 0)
  /\ (i ∈ index_after date record -> i ∈ index_intersecting date record ->
        exists r, record !! i = Some r /\ start r = date /\ date <= end_ r).
Proof.
  split.
  - rewrite elem_of_index_before, elem_of_index_intersecting. split.
    + intros [(r & Hr & He & Hb) (r' & Hr' & Hs & He')].
      assert (r' = r) as -> by congruence. exists r. split_and!; auto; lia.
    + intros (r & Hr & Hs & He & Hb). split; exists r; split_and!; auto; lia.
  - intros (r & Hr & Hs & _)%elem_of_index_after
           (r' & Hr' & Hs' & He')%elem_of_index_intersecting.
    assert (r' = r) as -> by congruence. exists r. split_and!; auto; lia.
Qed.

(** X2: the "after" indices are positions of the array, hold at most one
    record per pixel column, and leave out no column: every record that
    starts on or after the date has a yielded record of its column at or
    before its own position. *)
Theorem index_after_one_per_column :
  (forall i, i ∈ index_after date record -> (i < length record)%nat)
  /\ (forall i j ri rj,
        i ∈ index_after date record -> j ∈ index_after date record ->
        record !! i = Some ri -> record !! j = Some rj -> px ri = px rj ->
        i = j)
  /\ (forall k r, record !! k = Some r -> date <= start r ->
        exists i r', i ∈ index_after date record /\ (i <= k)%nat
                     /\ record !! i = Some r' /\ px r' = px r).
Proof.
  split_and!.
  - intros i (r & Hr & _)%elem_of_index_after. by eapply lookup_lt_Some.
  - intros i j ri rj (ri' & Hi & Hsi & Hmi)%elem_of_index_after
           (rj' & Hj & Hsj & Hmj)%elem_of_index_after Hri Hrj Hpx.
    assert (ri' = ri) as -> by congruence.
    assert (rj' = rj) as -> by congruence.
    destruct (lt_eq_lt_dec i j) as [[Hlt| ->]|Hlt]; [|done|].
    + exfalso. by apply (Hmj i ri).
    + exfalso. by apply (Hmi j rj).
  - intros k r Hr Hs.
    assert (k ∈ np_where (fun r => start r >=? date) record)
      as (j & Hj)%list_elem_of_lookup_1.
    { apply elem_of_candidates. by exists r. }
    assert ((px <$> take_indices record
                      (np_where (fun r => start r >=? date) record)) !! j
            = Some (px r)) as Hcol.
    { apply lookup_columns. by exists k, r. }
    destruct (first_index_is_Some (px r) _ (list_elem_of_lookup_2 _ _ _ Hcol))
      as (j0 & Hfirst).
    apply first_index_Some in Hfirst as [Hj0 Hmin].
    pose proof Hj0 as (i & r' & Hi & Hr' & Hpx)%lookup_columns.
    exists i, r'. split_and!; auto.
    + unfold index_after, take_indices at 1. apply list_elem_of_omap.
      exists j0. split; [|done]. apply elem_of_np_unique_index.
      by exists (px r).
    + destruct (decide (j0 = j)) as [->|Hne]; [by simplify_eq|].
      assert (j0 < j)%nat as Hlt.
      { destruct (decide (j0 < j)%nat); [done|].
        exfalso. apply (Hmin j); [lia|done]. }
      pose proof (StronglySorted_lookup_lt _ _ _ _ _
                    (where_from_sorted _ 0 record) Hi Hj Hlt). lia.
Qed.

(** The indices of every yielded set are positions of the array. *)
Lemma find_indices_in_range (after before : bool) (index : list nat) (i : nat) :
  index ∈ find_indices record date after before -> i ∈ index ->
  exists r, record !! i = Some r.
Proof.
  unfold find_indices, find_indices_steps. intros Hin Hi.
  apply list_elem_of_fmap in Hin as (step & -> & Hstep).
  rewrite !elem_of_app in Hstep. destruct Hstep as [Hs|[Hs|Hs]].
  - destruct before; [|by apply elem_of_nil in Hs].
    apply list_elem_of_singleton in Hs as ->.
    apply elem_of_index_before in Hi as (r & ? & _). by exists r.
  - destruct after; [|by apply elem_of_nil in Hs].
    apply list_elem_of_singleton in Hs as ->.
    apply elem_of_index_after in Hi as (r & ? & _). by exists r.
  - apply list_elem_of_singleton in Hs as ->.
    apply elem_of_index_intersecting in Hi as (r & ? & _). by exists r.
Qed.

End FindIndicesMore.

(** ** More on loops and rasters *)

(** A loop returns when every iteration returns on the states the loop can
    be in. *)
Lemma for_each_returns {S A} (body : A -> S -> result S) (I : S -> Prop)
    (l : list A) :
  (forall x s, x ∈ l -> I s -> exists s', body x s = Ok s' /\ I s') ->
  forall s, I s -> exists s', for_each body l s = Ok s' /\ I s'.
Proof.
  induction l as [|x l IH]; intros Hbody s Hs; simpl; [by exists s|].
  destruct (Hbody x s) as (s1 & -> & Hs1); [by left|done|]. simpl.
  apply IH; [|done]. intros y t Hy. apply Hbody. by right.
Qed.

Lemma map_result_returns {A B} (f : A -> result B) (l : list A) :
  Forall (fun x => exists y, f x = Ok y) l -> exists l', map_result f l = Ok l'.
Proof.
  induction 1 as [|x l [y Hy] _ [l' IH]]; simpl; [by eexists|].
  rewrite Hy, IH. simpl. by eexists.
Qed.

Lemma map_result_length {A B} (f : A -> result B) (l : list A) (l' : list B) :
  map_result f l = Ok l' -> length l' = length l.
Proof. intros H%map_result_Ok. symmetry. by eapply Forall2_length. Qed.

(** An assignment through index arrays keeps the shape of the raster and
    its no-data value. *)
Lemma assign_shape {V} (lo hi : nat) (yxs : list (Z * Z)) (rows : list (list V))
    (r r' : Raster.t V) :
  Raster.assign r yxs lo hi rows = Ok r' ->
  Raster.ysize r' = Raster.ysize r /\ Raster.xsize r' = Raster.xsize r
  /\ Raster.nband r' = Raster.nband r /\ Raster.ndv r' = Raster.ndv r.
Proof.
  apply (assign_invariant
           (fun r1 => Raster.ysize r1 = Raster.ysize r
                      /\ Raster.xsize r1 = Raster.xsize r
                      /\ Raster.nband r1 = Raster.nband r
                      /\ Raster.ndv r1 = Raster.ndv r)); [|done].
  intros j y x vs r1 r2 _ _ (? & ? & ? & ?) (y' & x' & _ & _ & _ & ->)%assign_cell_Ok.
  by simpl.
Qed.

(** The last write to a cell stays: after an assignment through index
    arrays a cell is either as before and no position pointed at it, or it
    holds the row of the last position that pointed at it. *)
Lemma assign_last_hit {V} (lo hi : nat) (y x : Z) :
  forall (yxs : list (Z * Z)) (rows : list (list V)) (r r' : Raster.t V),
    Raster.assign r yxs lo hi rows = Ok r' ->
    (Raster.cells r' !! (y, x) = Raster.cells r !! (y, x)
     /\ forall j y0 x0 vs, yxs !! j = Some (y0, x0) -> rows !! j = Some vs ->
          ~ (Raster.norm_index (Raster.ysize r) y0 = Ok y
             /\ Raster.norm_index (Raster.xsize r) x0 = Ok x))
    \/ (exists j y0 x0 vs old,
          yxs !! j = Some (y0, x0) /\ rows !! j = Some vs
          /\ Raster.norm_index (Raster.ysize r) y0 = Ok y
          /\ Raster.norm_index (Raster.xsize r) x0 = Ok x
          /\ length vs = (hi `min` Raster.nband r - lo)%nat
          /\ Raster.cells r' !! (y, x)
             = Some (take lo old ++ vs ++ drop (lo + length vs) old)
          /\ forall j' y1 x1 vs', (j < j')%nat -> yxs !! j' = Some (y1, x1) ->
               rows !! j' = Some vs' ->
               ~ (Raster.norm_index (Raster.ysize r) y1 = Ok y
                  /\ Raster.norm_index (Raster.xsize r) x1 = Ok x)).
Proof.
  induction yxs as [|[y0 x0] yxs IH]; intros rows r r' Hrun; simpl in Hrun.
  { injection Hrun as <-. left. split; [done|]. intros j ? ? ? Hj. by rewrite lookup_nil in Hj. }
  destruct rows as [|vs rows].
  { injection Hrun as <-. left. split; [done|]. intros j ? ? ? _ Hj. by rewrite lookup_nil in Hj. }
  inv_bind. rename a into r1.
  apply assign_cell_Ok in Ha as (y' & x' & Hy' & Hx' & Hlen & Hr1).
  assert (Raster.ysize r1 = Raster.ysize r /\ Raster.xsize r1 = Raster.xsize r
          /\ Raster.nband r1 = Raster.nband r) as (Hys & Hxs & Hnb) by (by subst r1).
  destruct (IH rows r1 r' Hrun) as [[Hsame Hno]|Hhit].
  - rewrite Hys, Hxs in Hno.
    destruct (decide ((y', x') = (y, x))) as [Heq|Hne].
    + injection Heq as -> ->. right.
      exists 0%nat, y0, x0, vs, (Raster.cell r y x). split_and!; try done.
      * rewrite Hsame, Hr1. simpl. by rewrite lookup_insert_eq.
      * intros [|j'] y1 x1 vs' Hlt Hj1 Hj2; [lia|]. by eapply Hno.
    + left. split.
      * rewrite Hsame, Hr1. simpl. by rewrite lookup_insert_ne.
      * intros [|j] y1 x1 vs' Hj1 Hj2; simpl in *.
        -- injection Hj1 as -> ->. intros [? ?]. apply Hne. congruence.
        -- by eapply Hno.
  - destruct Hhit as (j & y1 & x1 & vs1 & old & Hj1 & Hj2 & Hy1 & Hx1 & Hl & Hc & Hlast).
    rewrite Hys in Hy1. rewrite Hxs in Hx1. rewrite Hnb in Hl.
    right. exists (S j), y1, x1, vs1, old. split_and!; try done.
    intros [|j'] y2 x2 vs2 Hlt Hj'1 Hj'2; [lia|]. simpl in *.
    rewrite <- Hys, <- Hxs. eapply Hlast; [|done|done]. lia.
Qed.

Lemma assign_positions {V} (lo hi : nat) :
  forall (yxs : list (Z * Z)) (rows : list (list V)) (r r' : Raster.t V),
    Raster.assign r yxs lo hi rows = Ok r' ->
    forall j y0 x0 vs, yxs !! j = Some (y0, x0) -> rows !! j = Some vs ->
      exists y x, Raster.norm_index (Raster.ysize r) y0 = Ok y
                  /\ Raster.norm_index (Raster.xsize r) x0 = Ok x.
Proof.
  induction yxs as [|[y1 x1] yxs IH]; intros rows r r' Hrun j y0 x0 vs Hj1 Hj2.
  { by rewrite lookup_nil in Hj1. }
  destruct rows as [|vs1 rows]; [by rewrite lookup_nil in Hj2|].
  simpl in Hrun. inv_bind.
  apply assign_cell_Ok in Ha as (y' & x' & Hy' & Hx' & _ & Hr1).
  destruct j as [|j]; simpl in *.
  - injection Hj1 as -> ->. eauto.
  - destruct (IH rows a r' Hrun j y0 x0 vs Hj1 Hj2) as (y & x & Hy & Hx).
    subst a. simpl in *. eauto.
Qed.

Lemma assign_returns {V} (lo hi : nat) :
  forall (yxs : list (Z * Z)) (rows : list (list V)) (r : Raster.t V),
    Forall (fun yx => exists y x,
              Raster.norm_index (Raster.ysize r) yx.1 = Ok y
              /\ Raster.norm_index (Raster.xsize r) yx.2 = Ok x) yxs ->
    Forall (fun vs => length vs = (hi `min` Raster.nband r - lo)%nat) rows ->
    exists r', Raster.assign r yxs lo hi rows = Ok r'.
Proof.
  induction yxs as [|[y0 x0] yxs IH]; intros rows r Hyxs Hrows; simpl; [by eexists|].
  destruct rows as [|vs rows]; [by eexists|].
  apply Forall_cons in Hyxs as [(y & x & Hy & Hx) Hyxs].
  apply Forall_cons in Hrows as [Hvs Hrows].
  unfold Raster.assign_cell. simpl in Hy, Hx. rewrite Hy, Hx. simpl.
  rewrite decide_True by done. simpl. by apply IH.
Qed.

(** ** More on [get_prediction] *)

Section PredictionMore.
Import Saved YatsmMap.

Variable make_X : Z -> list Q.
Variable astype_int : Q -> Z.
Variables (date : Z) (records : list (list segment)).
Variables (ysize xsize : Z) (i_bands : list Z) (after before : bool).

Local Abbreviation prediction_raster :=
  (prediction_raster make_X astype_int date records ysize xsize i_bands
                     after before).
Local Abbreviation predict_index :=
  (YatsmMap.predict_index astype_int i_bands (make_X date)).
Local Abbreviation predict_rec :=
  (YatsmMap.predict_rec astype_int i_bands (make_X date) date after before).

Lemma tensordot_returns (r : segment) :
  predictable (make_X date) i_bands ysize xsize r ->
  exists yhat, tensordot i_bands (make_X date) r = Ok yhat.
Proof.
  intros (Hlen & Hrows & _). unfold tensordot. rewrite decide_True by done.
  apply map_result_returns. apply Forall_forall. intros b Hb.
  destruct (map_result_returns (fun row => py_index row b) (coef r)) as [col Hcol].
  { eapply Forall_impl; [exact Hrows|]. simpl. intros row Hrow.
    rewrite Forall_forall in Hrow. by apply Hrow. }
  rewrite Hcol. simpl. by eexists.
Qed.

(** The loops of [get_prediction] return a raster whenever every record
    of every file has as many coefficient rows as the design row has
    entries, holds every asked band, and sits at a pixel of the raster. *)
Lemma prediction_loops_return (ndv : Z) :
  (forall rec r, rec ∈ records -> r ∈ rec ->
     predictable (make_X date) i_bands ysize xsize r) ->
  exists raster,
    get_prediction make_X astype_int date records ysize xsize i_bands
                   after before ndv = Ok raster.
Proof.
  intros Hok. unfold get_prediction.
  set (shape := fun r : Raster.t Z =>
         Raster.ysize r = ysize /\ Raster.xsize r = xsize
         /\ Raster.nband r = length i_bands).
  destruct (for_each_returns predict_rec shape records) with
    (s := Raster.create ysize xsize (length i_bands) ndv) as (raster & Hr & _);
    [|done|by exists raster].
  intros rec r0 Hrec Hr0. unfold YatsmMap.predict_rec.
  apply for_each_returns; [|done].
  intros step r1 Hstep (Hys & Hxs & Hnb).
  assert (step rec ∈ find_indices rec date after before) as Hindex.
  { unfold find_indices. apply list_elem_of_fmap. by exists step. }
  unfold YatsmMap.predict_index.
  destruct (step rec) as [|i0 index0] eqn:Hidx; [by exists r1|].
  rewrite <- Hidx in *.
  destruct (map_result_returns (at_index rec) (step rec)) as [sel Hsel].
  { apply Forall_forall. intros i Hi.
    destruct (find_indices_in_range rec date after before _ i Hindex Hi) as [r Hr].
    exists r. unfold at_index. by rewrite Hr. }
  rewrite Hsel. simpl.
  assert (Forall (fun r => r ∈ rec) sel) as Hin.
  { apply map_result_Ok in Hsel. apply Forall_forall. intros r Hr.
    apply list_elem_of_lookup_1 in Hr as [j Hj].
    destruct (Forall2_lookup_r _ _ _ _ _ Hsel Hj) as (i & _ & Hat).
    unfold at_index in Hat. destruct (rec !! i) eqn:Hri; [|done].
    injection Hat as ->. by eapply list_elem_of_lookup_2. }
  destruct (map_result_returns (tensordot i_bands (make_X date)) sel) as [yhat Hyhat].
  { eapply Forall_impl; [exact Hin|]. simpl. intros r Hr.
    apply tensordot_returns. by eapply Hok. }
  rewrite Hyhat. simpl.
  destruct (assign_returns 0 (Raster.nband r1)
              ((fun r => (py r, px r)) <$> sel) (map (map astype_int) yhat) r1)
    as [r2 Hr2].
  - apply Forall_fmap. eapply Forall_impl; [exact Hin|]. simpl. intros r Hr.
    destruct (Hok rec r Hrec Hr) as (_ & _ & [y Hy] & [x Hx]).
    exists y, x. by rewrite Hys, Hxs.
  - change (map (map astype_int) yhat) with (fmap (map astype_int) yhat).
    apply Forall_fmap. apply map_result_Ok in Hyhat.
    apply Forall_forall. intros yh Hyh.
    apply list_elem_of_lookup_1 in Hyh as [j Hj].
    destruct (Forall2_lookup_r _ _ _ _ _ Hyhat Hj) as (r & _ & Htd).
    apply tensordot_Ok in Htd as [_ Hf]. simpl. rewrite length_map.
    apply Forall2_length in Hf. lia.
  - exists r2. split; [done|].
    apply assign_shape in Hr2 as (? & ? & ? & _). unfold shape. by split_and!; congruence.
Qed.

(** X4: a cell at which no selected record sits keeps the no-data value in
    every band. *)
Theorem get_prediction_nodata (ndv : Z) (raster : Raster.t Z) (y x : Z) :
  get_prediction make_X astype_int date records ysize xsize i_bands
                 after before ndv = Ok raster ->
  (forall rec index i r,
     rec ∈ records -> index ∈ find_indices rec date after before ->
     i ∈ index -> rec !! i = Some r -> ~ at_pixel ysize xsize y x r) ->
  Raster.cell raster y x = replicate (length i_bands) ndv.
Proof.
  intros Hrun Hfree.
  set (untouched := fun r : Raster.t Z =>
         Raster.ysize r = ysize /\ Raster.xsize r = xsize
         /\ Raster.nband r = length i_bands /\ Raster.ndv r = ndv
         /\ Raster.cells r !! (y, x) = None).
  assert (untouched raster) as (_ & _ & Hnb & Hndv & Hc).
  { revert Hrun. unfold get_prediction. apply for_each_invariant; [|done].
    intros rec r0 r0' Hrec Hr0. unfold YatsmMap.predict_rec.
    revert r0 r0' Hr0. apply for_each_invariant.
    intros step r1 r1' Hstep Hr1.
    assert (step rec ∈ find_indices rec date after before) as Hindex.
    { unfold find_indices. apply list_elem_of_fmap. by exists step. }
    unfold YatsmMap.predict_index.
    destruct (step rec) as [|i0 index0] eqn:Hidx; [by intros [= <-]|].
    rewrite <- Hidx in *. intros H. inv_bind. rename a into sel.
    apply map_result_Ok in Ha.
    revert H. apply assign_invariant; [|done].
    intros j y0 x0 vs r2 r3 Hyx _ (Hys & Hxs & Hnb & Hndv & Hc) Hcell.
    rewrite list_lookup_fmap in Hyx.
    destruct (sel !! j) as [s|] eqn:Hs; [|done]. injection Hyx as <- <-.
    destruct (Forall2_lookup_r _ _ _ _ _ Ha Hs) as (i & Hi & Hat).
    unfold at_index in Hat. destruct (rec !! i) as [s'|] eqn:Hri; [|done].
    injection Hat as ->.
    apply assign_cell_Ok in Hcell as (y' & x' & Hy & Hx & _ & ->).
    unfold untouched. simpl. split_and!; try done.
    rewrite lookup_insert_ne; [done|]. intros [= -> ->].
    apply (Hfree rec (step rec) i s); auto.
    - by eapply list_elem_of_lookup_2.
    - split; congruence. }
  unfold Raster.cell. by rewrite Hc, Hnb, Hndv.
Qed.

End PredictionMore.

Section PredictionLast.
Import Saved YatsmMap.

Variable make_X : Z -> list Q.
Variable astype_int : Q -> Z.
Variables (date : Z) (pre : list (list segment)) (rec : list segment).
Variables (ysize xsize : Z) (i_bands : list Z) (after before : bool).

Local Abbreviation records := (pre ++ [rec]).
Local Abbreviation prediction_raster :=
  (prediction_raster make_X astype_int date records ysize xsize i_bands
                     after before).

(** X5: the intersecting segment wins.  In the file processed last, a
    record whose span holds the date has its pixel filled with the
    prediction of a record of that file whose span holds the date too,
    whatever the "before" and "after" lookups wrote there. *)
Theorem get_prediction_intersecting_wins (ndv : Z) (raster : Raster.t Z)
    (i : nat) (r : segment) :
  get_prediction make_X astype_int date records ysize xsize i_bands
                 after before ndv = Ok raster ->
  rec !! i = Some r -> start r <= date <= end_ r ->
  exists y x i' r' yhat,
    at_pixel ysize xsize y x r
    /\ rec !! i' = Some r' /\ start r' <= date <= end_ r'
    /\ at_pixel ysize xsize y x r'
    /\ tensordot i_bands (make_X date) r' = Ok yhat
    /\ Raster.cell raster y x = map astype_int yhat.
Proof.
  intros Hrun Hr Hspan.
  assert (rec ∈ records) as Hrec.
  { apply elem_of_app. right. by left. }
  unfold get_prediction in Hrun. rewrite for_each_app in Hrun.
  inv_bind. rename a into r0.
  simpl in Hrun. inv_bind. rename Ha0 into Hlast, Ha into Hpre.
  assert (prediction_raster r0) as Hr0.
  { revert Hpre. apply for_each_invariant; [|done].
    intros rec' s s' Hrec' Hs. apply predict_rec_invariant; [|done].
    apply elem_of_app. by left. }
  unfold YatsmMap.predict_rec, find_indices_steps in Hlast.
  rewrite app_assoc, for_each_app in Hlast. inv_bind. rename a into r1.
  simpl in Hlast. inv_bind. rename Ha0 into Hlast.
  assert (prediction_raster r1) as Hr1.
  { revert Ha. apply for_each_invariant; [|done].
    intros step s s' Hstep Hs. apply predict_index_invariant; [done| |done].
    unfold find_indices, find_indices_steps. apply list_elem_of_fmap.
    exists step. split; [done|]. rewrite app_assoc. apply elem_of_app. by left. }
  assert (index_intersecting date rec ∈ find_indices rec date after before) as Hfi.
  { unfold find_indices, find_indices_steps. apply list_elem_of_fmap.
    exists (index_intersecting date). split; [done|].
    rewrite !elem_of_app. right. right. by left. }
  pose proof (predict_index_invariant _ _ _ _ _ _ _ _ _ _ _ _ _ Hrec Hfi Hr1 Hlast)
    as Hfinal.
  assert (i ∈ index_intersecting date rec) as (j & Hj)%list_elem_of_lookup_1.
  { apply elem_of_index_intersecting. by exists r. }
  unfold YatsmMap.predict_index in Hlast.
  destruct (index_intersecting date rec) as [|i0 index0] eqn:Hidx;
    [by rewrite lookup_nil in Hj|].
  rewrite <- Hidx in *. inv_bind. rename a into sel, a0 into yhats.
  apply map_result_Ok in Ha0, Ha1.
  destruct (Forall2_lookup_l _ _ _ _ _ Ha0 Hj) as (s & Hs & Hat).
  unfold at_index in Hat. rewrite Hr in Hat. injection Hat as <-.
  destruct (Forall2_lookup_l _ _ _ _ _ Ha1 Hs) as (yh & Hyh & _).
  destruct Hr1 as (Hys & Hxs & Hnb & _).
  destruct (assign_positions _ _ _ _ _ _ Hlast j (py r) (px r) (map astype_int yh))
    as (y & x & Hy & Hx).
  { by rewrite list_lookup_fmap, Hs. }
  { change (map (map astype_int) yhats) with (fmap (map astype_int) yhats).
    by rewrite list_lookup_fmap, Hyh. }
  destruct (assign_last_hit _ _ y x _ _ _ _ Hlast) as [[_ Hno]|Hhit].
  { exfalso. eapply (Hno j (py r) (px r)); [| |done].
    - by rewrite list_lookup_fmap, Hs.
    - change (map (map astype_int) yhats) with (fmap (map astype_int) yhats).
      by rewrite list_lookup_fmap, Hyh. }
  destruct Hhit as (j' & y0 & x0 & vs & old & Hyx & Hrow & Hy0 & Hx0 & Hlen & Hcell & _).
  rewrite list_lookup_fmap in Hyx.
  destruct (sel !! j') as [r'|] eqn:Hs'; [|done]. injection Hyx as <- <-.
  change (map (map astype_int) yhats) with (fmap (map astype_int) yhats) in Hrow.
  rewrite list_lookup_fmap in Hrow.
  destruct (yhats !! j') as [yh'|] eqn:Hyh'; [|done]. injection Hrow as <-.
  destruct (Forall2_lookup_r _ _ _ _ _ Ha0 Hs') as (i' & Hi' & Hat').
  unfold at_index in Hat'. destruct (rec !! i') as [r''|] eqn:Hri'; [|done].
  injection Hat' as ->.
  pose proof (Forall2_lookup_lr _ _ _ _ _ _ Ha1 Hs' Hyh') as Htd.
  assert (start r' <= date <= end_ r') as Hspan'.
  { assert (i' ∈ index_intersecting date rec) as Hin
      by (by eapply list_elem_of_lookup_2).
    apply elem_of_index_intersecting in Hin as (r'' & Hr'' & Hspan'').
    by simplify_eq. }
  exists y, x, i', r', yh'. rewrite Hys in Hy, Hy0. rewrite Hxs in Hx, Hx0.
  split; [done|]. split; [done|]. split; [done|]. split; [done|].
  split; [done|].
  - destruct Hfinal as (_ & _ & Hnb' & Hcells).
    pose proof (predicted_length _ _ _ _ _ _ _ _ _ _ _ _ (Hcells _ _ _ Hcell)) as Hl.
    rewrite Nat.min_id, Nat.sub_0_r, Hnb in Hlen.
    simpl in Hcell, Hl. rewrite length_app in Hl.
    unfold Raster.cell. rewrite Hcell. simpl.
    rewrite (nil_length_inv (drop _ old)) by lia. by rewrite app_nil_r.
Qed.

End PredictionLast.

(** ** More on [get_coefficients] *)

Lemma foldl_alter_lookup_notin {A B} (g : B -> A -> A) (l : list (nat * B))
    (a : list A) (i : nat) :
  i ∉ l.*1 ->
  foldl (fun a ir => alter (g ir.2) ir.1 a) a l !! i = a !! i.
Proof.
  revert a; induction l as [|[i0 b0] l IH]; intros a Hi; simpl; [done|].
  rewrite fmap_cons, not_elem_of_cons in Hi. destruct Hi as [Hne Hi].
  rewrite IH by done. simpl in Hne. by rewrite list_lookup_alter_ne.
Qed.

Lemma foldl_alter_lookup_in {A B} (g : B -> A -> A) (l : list (nat * B))
    (a : list A) (i : nat) (b : B) :
  NoDup l.*1 -> (i, b) ∈ l ->
  foldl (fun a ir => alter (g ir.2) ir.1 a) a l !! i = g b <$> a !! i.
Proof.
  revert a; induction l as [|[i0 b0] l IH]; intros a Hnd Hin; simpl.
  { by apply elem_of_nil in Hin. }
  rewrite fmap_cons in Hnd. apply NoDup_cons in Hnd as [Hi0 Hnd]. simpl in Hi0.
  apply elem_of_cons in Hin as [[= -> ->]|Hin].
  - rewrite foldl_alter_lookup_notin by done. apply list_lookup_alter_eq.
  - rewrite IH by done. rewrite list_lookup_alter_ne; [done|].
    intros ->. apply Hi0. apply list_elem_of_fmap. by exists (i, b).
Qed.

Lemma length_bind_const {A B} (f : A -> list B) (n : nat) (l : list A) :
  (forall x, length (f x) = n) -> length (l ≫= f) = (length l * n)%nat.
Proof.
  intros Hf. induction l as [|x l IH]; [done|]. csimpl.
  rewrite length_app, Hf, IH. lia.
Qed.

Section CoefficientsMore.
Import Saved YatsmMap.

Variables (use_robust : bool) (i_coefs i_bands : list Z) (use_rmse : bool).
Variable date : Z.

Lemma same_but_intercept_refl (r : segment) : same_but_intercept use_robust r r.
Proof. by unfold same_but_intercept. Qed.

Lemma same_but_intercept_set (r0 r : segment) (row : list Q) :
  same_but_intercept use_robust r0 r ->
  same_but_intercept use_robust r0 (set_intercept use_robust row r).
Proof.
  unfold same_but_intercept, set_intercept, set_coef, get_coef.
  intros (? & ? & ? & ? & ? & ? & ? & Hother & Hrest).
  destruct use_robust; simpl in *; split_and!; try done.
  - rewrite <- Hrest. by destruct (robust_coef r).
  - rewrite <- Hrest. by destruct (coef r).
Qed.

Lemma normalize_intercepts_frame (index : list nat) (rec rec' : list segment) :
  normalize_intercepts use_robust index rec = Ok rec' ->
  Forall2 (same_but_intercept use_robust) rec rec'.
Proof.
  unfold normalize_intercepts. intros H. inv_bind.
  generalize (zip index a). intros l.
  assert (Forall2 (same_but_intercept use_robust) rec rec) as Hrefl.
  { apply Forall_Forall2_diag, Forall_forall. intros. apply same_but_intercept_refl. }
  revert Hrefl. generalize rec at 2 4. induction l as [|[i row] l IH]; intros cur Hcur; simpl; [done|].
  apply IH. apply Forall2_alter_r; [done|]. intros x y _ _. apply same_but_intercept_set.
Qed.

(** What one pass of the loop body does to the state. *)
Lemma export_index_Ok (index : list nat) (raster raster' : Raster.t Q)
    (rec rec' : list segment) :
  export_index use_robust i_coefs i_bands use_rmse index (raster, rec)
  = Ok (raster', rec') ->
  (index = [] /\ raster' = raster /\ rec' = rec)
  \/ (index <> [] /\ normalize_intercepts use_robust index rec = Ok rec'
      /\ Raster.nband raster' = Raster.nband raster
      /\ Raster.ysize raster' = Raster.ysize raster
      /\ Raster.xsize raster' = Raster.xsize raster).
Proof.
  unfold export_index. destruct index as [|i0 index0] eqn:Hidx.
  { intros [= <- <-]. by left. }
  rewrite <- Hidx. intros H. right. split; [by rewrite Hidx|].
  inv_bind. destruct use_rmse; simpl in H; inv_bind;
    repeat match goal with
    | Hs : Raster.assign _ _ _ _ _ = Ok _ |- _ =>
        apply assign_shape in Hs as (? & ? & ? & _)
    end; split_and!; congruence.
Qed.

Lemma frame_trans (l1 l2 l3 : list segment) :
  Forall2 (same_but_intercept use_robust) l1 l2 ->
  Forall2 (same_but_intercept use_robust) l2 l3 ->
  Forall2 (same_but_intercept use_robust) l1 l3.
Proof.
  intros H12; revert l3; induction H12 as [|x y l k Hxy _ IH]; intros l3 H23.
  - by apply Forall2_nil_inv_l in H23 as ->.
  - apply Forall2_cons_inv_l in H23 as (z & l3' & Hyz & H23 & ->).
    constructor; [|by apply IH].
    unfold same_but_intercept in *. destruct_and!. split_and!; congruence.
Qed.

Lemma export_rec_frame (after before : bool) (rec rec' : list segment)
    (raster raster' : Raster.t Q) :
  export_rec use_robust i_coefs i_bands use_rmse date after before rec raster
  = Ok (raster', rec') ->
  Forall2 (same_but_intercept use_robust) rec rec'
  /\ Raster.nband raster' = Raster.nband raster
  /\ Raster.ysize raster' = Raster.ysize raster
  /\ Raster.xsize raster' = Raster.xsize raster.
Proof.
  unfold export_rec.
  apply (for_each_invariant _
           (fun st => Forall2 (same_but_intercept use_robust) rec st.2
                      /\ Raster.nband st.1 = Raster.nband raster
                      /\ Raster.ysize st.1 = Raster.ysize raster
                      /\ Raster.xsize st.1 = Raster.xsize raster)
           _ ); [|simpl; split_and!; try done].
  - intros step [r1 rec1] [r2 rec2] _ (Hf & Hnb & Hys & Hxs) Hstep. simpl in *.
    apply export_index_Ok in Hstep as [(_ & -> & ->)|(_ & Hn & ? & ? & ?)]; [done|].
    split_and!; try congruence.
    eapply frame_trans; [exact Hf|]. by eapply normalize_intercepts_frame.
  - apply Forall_Forall2_diag, Forall_forall. intros. apply same_but_intercept_refl.
Qed.

Lemma where_from_Forall2 {A B} (p : A -> bool) (q : B -> bool) (k : nat)
    (l : list A) (l' : list B) :
  Forall2 (fun a b => p a = q b) l l' -> where_from p k l = where_from q k l'.
Proof.
  intros H; revert k; induction H as [|a b l l' Hab _ IH]; intros k; simpl; [done|].
  rewrite Hab, (IH (S k)). done.
Qed.

Lemma find_indices_frame (after before : bool) (rec rec' : list segment) :
  Forall2 (same_but_intercept use_robust) rec rec' ->
  find_indices rec' date after before = find_indices rec date after before.
Proof.
  intros Hf.
  assert (forall p : Z -> Z -> Z -> bool,
            np_where (fun r => p (start r) (end_ r) (break r)) rec'
            = np_where (fun r => p (start r) (end_ r) (break r)) rec) as Hwhere.
  { intros p. unfold np_where. symmetry. apply where_from_Forall2.
    eapply Forall2_impl; [exact Hf|]. simpl.
    intros r r' (-> & -> & -> & _). done. }
  assert (forall idx, px <$> take_indices rec' idx = px <$> take_indices rec idx)
    as Hpx.
  { induction idx as [|i idx IH]; [done|]. unfold take_indices in *. simpl.
    pose proof (proj1 (Forall2_lookup _ _ _) Hf i) as Hi.
    destruct Hi as [r r' (_ & _ & _ & Hpx & _)|]; csimpl; [|done].
    by rewrite IH, Hpx. }
  unfold find_indices, find_indices_steps.
  assert (index_before date rec' = index_before date rec) as Hb.
  { apply (Hwhere (fun s e b => (e <=? date) && (b =? 0))). }
  assert (index_intersecting date rec' = index_intersecting date rec) as Hi.
  { apply (Hwhere (fun s e b => (s <=? date) && (e >=? date))). }
  assert (index_after date rec' = index_after date rec) as Ha.
  { unfold index_after.
    rewrite (Hwhere (fun s e b => s >=? date)). by rewrite Hpx. }
  destruct before, after; simpl; by rewrite ?Hb, ?Ha, ?Hi.
Qed.

Lemma export_records_Forall2 (after before : bool)
    (P : list segment -> list segment -> Prop) :
  (forall rec raster raster' rec',
     export_rec use_robust i_coefs i_bands use_rmse date after before rec raster
     = Ok (raster', rec') -> P rec rec') ->
  forall records raster raster' recs',
    export_records use_robust i_coefs i_bands use_rmse date after before
                   records raster = Ok (raster', recs') ->
    Forall2 P records recs'.
Proof.
  intros HP. induction records as [|rec records IH]; intros raster raster' recs' H;
    simpl in H.
  - injection H as <- <-. constructor.
  - inv_bind. destruct a as [r1 rec1]. inv_bind. destruct a as [r2 recs2].
    injection H as <- <-. constructor; [by eapply HP|by eapply IH].
Qed.

Lemma export_records_shape (after before : bool) :
  forall records raster raster' recs',
    export_records use_robust i_coefs i_bands use_rmse date after before
                   records raster = Ok (raster', recs') ->
    Raster.nband raster' = Raster.nband raster
    /\ Raster.ysize raster' = Raster.ysize raster
    /\ Raster.xsize raster' = Raster.xsize raster.
Proof.
  induction records as [|rec records IH]; intros raster raster' recs' H; simpl in H.
  - by injection H as <- <-.
  - inv_bind. destruct a as [r1 rec1]. inv_bind. destruct a as [r2 recs2].
    injection H as <- <-.
    apply export_rec_frame in Ha as (_ & ? & ? & ?).
    apply IH in Ha0 as (? & ? & ?). split_and!; congruence.
Qed.

(** X6: exporting coefficients keeps every loaded array at its length and
    every record at its [start], [end], [break], [px], [py], RMSE and all
    coefficient rows but the first of the matrix in use; so the lookup
    yields on the arrays as the export left them what it yields on the
    arrays as loaded. *)
Theorem get_coefficients_frame (records : list (list segment))
    (ysize xsize : Z) (after before : bool) (ndv : Q)
    (raster : Raster.t Q) (recs' : list (list segment)) :
  get_coefficients date records ysize xsize i_bands i_coefs use_rmse
                   use_robust after before ndv = Ok (raster, recs') ->
  Forall2 (Forall2 (same_but_intercept use_robust)) records recs'
  /\ Forall2 (fun rec rec' => find_indices rec' date after before
                              = find_indices rec date after before)
             records recs'.
Proof.
  unfold get_coefficients. intros H.
  assert (Forall2 (Forall2 (same_but_intercept use_robust)) records recs') as Hf.
  { revert H. apply export_records_Forall2.
    intros rec r r' rec' Hrec. by apply export_rec_frame in Hrec as [? _]. }
  split; [done|]. eapply Forall2_impl; [exact Hf|].
  intros rec rec'. apply find_indices_frame.
Qed.

(** X7: the raster returned by [get_coefficients] has one band per name in
    the list of band names (one per pair of coefficient and band, then one
    per band for the RMSE when asked for), and the size it was created
    with. *)
Theorem get_coefficients_band_names (records : list (list segment))
    (ysize xsize : Z) (after before : bool) (ndv : Q)
    (raster : Raster.t Q) (recs' : list (list segment)) :
  get_coefficients date records ysize xsize i_bands i_coefs use_rmse
                   use_robust after before ndv = Ok (raster, recs') ->
  Raster.nband raster
  = length (MapAttributes.band_names i_coefs i_bands use_rmse)
  /\ Raster.ysize raster = ysize /\ Raster.xsize raster = xsize.
Proof.
  unfold get_coefficients. intros (Hnb & Hys & Hxs)%export_records_shape.
  simpl in *. split; [|done]. rewrite Hnb.
  unfold MapAttributes.band_names. rewrite length_app.
  rewrite (length_bind_const _ (length i_bands)).
  2:{ intros c. rewrite (length_bind_const _ 1); [lia|done]. }
  destruct use_rmse.
  - rewrite (length_bind_const _ 1) by done. lia.
  - rewrite (length_bind_const _ 0) by done. lia.
Qed.

(** X8: without the "before" and "after" lookups every record is handled
    once: a record whose span holds the date gets the midpoint term added
    to its intercept row exactly once, and every other record is left as
    loaded. *)
Theorem get_coefficients_normalizes_once (records : list (list segment))
    (ysize xsize : Z) (ndv : Q) (raster : Raster.t Q)
    (recs' : list (list segment)) :
  get_coefficients date records ysize xsize i_bands i_coefs use_rmse
                   use_robust false false ndv = Ok (raster, recs') ->
  Forall2 (fun rec rec' =>
             forall i r, rec !! i = Some r ->
               (start r <= date <= end_ r ->
                  exists row, normalized_intercept use_robust r = Ok row
                              /\ rec' !! i = Some (set_intercept use_robust row r))
               /\ (~ start r <= date <= end_ r -> rec' !! i = Some r))
          records recs'.
Proof.
  unfold get_coefficients. apply export_records_Forall2.
  intros rec r0 r0' rec' Hrec i r Hr.
  unfold export_rec, find_indices_steps in Hrec. simpl in Hrec. inv_bind.
  change (export_index use_robust i_coefs i_bands use_rmse
                       (index_intersecting date rec) (r0, rec)
          = Ok (r0', rec')) in Ha.
  apply export_index_Ok in Ha as [(Hidx & _ & ->)|(_ & Hn & _)].
  - split; [|done]. intros Hspan.
    assert (i ∈ index_intersecting date rec) as Hin.
    { apply elem_of_index_intersecting. by exists r. }
    rewrite Hidx in Hin. by apply elem_of_nil in Hin.
  - unfold normalize_intercepts in Hn. inv_bind. rename a into rows.
    pose proof (map_result_length _ _ _ Ha) as Hlen.
    apply map_result_Ok in Ha.
    assert ((zip (index_intersecting date rec) rows).*1
            = index_intersecting date rec) as Hfst.
    { apply fst_zip. lia. }
    split.
    + intros Hspan.
      assert (i ∈ index_intersecting date rec) as (j & Hj)%list_elem_of_lookup_1.
      { apply elem_of_index_intersecting. by exists r. }
      destruct (Forall2_lookup_l _ _ _ _ _ Ha Hj) as (row & Hrow & Hnorm).
      unfold at_index in Hnorm. rewrite Hr in Hnorm. simpl in Hnorm.
      exists row. split; [done|].
      rewrite (foldl_alter_lookup_in (set_intercept use_robust) _ _ i row).
      * by rewrite Hr.
      * rewrite Hfst. apply np_where_NoDup.
      * apply list_elem_of_lookup_2 with j. apply lookup_zip_with_Some.
        by exists i, row.
    + intros Hspan.
      rewrite (foldl_alter_lookup_notin (set_intercept use_robust)); [done|].
      rewrite Hfst. intros (r' & Hr' & Hspan')%elem_of_index_intersecting.
      apply Hspan. congruence.
Qed.

End CoefficientsMore.

(** ** More on [get_training_inputs] *)

Lemma py_index_Raise {A} (l : list A) (i : Z) (e : exn) :
  py_index l i = Raise e -> e = IndexError "index out of bounds".
Proof.
  unfold py_index. destruct (if _ && _ then _ else _); [done|]. by intros [= <-].
Qed.

Section TrainingMore.
Import Saved TrainMult.

Variable load : Z -> result (list segment).
Variable exit_on_missing : bool.
Variables training_start training_end : Z.

Local Abbreviation sample :=
  (TrainMult.sample load exit_on_missing training_start training_end).

Lemma load_result_outputs (_row : Z) (s s1 : locals) :
  load_result load exit_on_missing _row s = Ok (Some s1) ->
  X s1 = X s /\ out_y s1 = out_y s /\ out_row s1 = out_row s
  /\ out_col s1 = out_col s.
Proof.
  unfold load_result. destruct (decide _); [by intros [= <-]|].
  destruct (load _row); [by intros [= <-]|]. by destruct exit_on_missing.
Qed.

(** One sample either leaves the outputs alone or extends each of them by
    one entry, the label, row and column being those of the sample. *)
Lemma sample_outputs (_row _col _y : Z) (s s' : locals) :
  sample (_row, _col, _y) s = Ok s' ->
  (X s' = X s /\ out_y s' = out_y s /\ out_row s' = out_row s
   /\ out_col s' = out_col s)
  \/ (exists x, X s' = X s ++ [x] /\ out_y s' = out_y s ++ [_y]
                /\ out_row s' = out_row s ++ [_row]
                /\ out_col s' = out_col s ++ [_col]).
Proof.
  unfold TrainMult.sample. intros H. inv_bind. destruct a as [s1|].
  - pose proof (load_result_outputs _ _ _ Ha) as (HX & Hy & Hr & Hc).
    destruct (find_model _ _ _ _) as [|i [|i' l]]; [| |done].
    + injection H as <-. by left.
    + inv_bind. right. exists a0. simpl. by rewrite HX, Hy, Hr, Hc.
  - injection H as <-. by left.
Qed.

Lemma loop_outputs (samples : list (Z * Z * Z)) :
  forall s s', for_each sample samples s = Ok s' ->
    exists extra : list (Z * Z * Z * list Q),
      extra.*1 `sublist_of` samples
      /\ X s' = X s ++ extra.*2
      /\ out_y s' = out_y s ++ ((fun e => e.1.2) <$> extra)
      /\ out_row s' = out_row s ++ ((fun e => e.1.1.1) <$> extra)
      /\ out_col s' = out_col s ++ ((fun e => e.1.1.2) <$> extra).
Proof.
  induction samples as [|[[_row _col] _y] samples IH]; intros s s' H;
    cbn [for_each] in H.
  - injection H as <-. exists []. simpl. rewrite !app_nil_r. by split_and!.
  - apply bind_Ok in H as (s1 & Ha & H).
    destruct (IH _ _ H) as (extra & Hsub & HX & Hy & Hr & Hc).
    apply sample_outputs in Ha as [(HX1 & Hy1 & Hr1 & Hc1)|(x & HX1 & Hy1 & Hr1 & Hc1)].
    + exists extra. split_and!; [by apply sublist_cons|congruence..].
    + exists ((_row, _col, _y, x) :: extra). simpl. split_and!.
      * by apply sublist_skip.
      * rewrite HX, HX1. by rewrite <- app_assoc.
      * rewrite Hy, Hy1. by rewrite <- app_assoc.
      * rewrite Hr, Hr1. by rewrite <- app_assoc.
      * rewrite Hc, Hc1. by rewrite <- app_assoc.
Qed.

Lemma zip_outputs (extra : list (Z * Z * Z * list Q)) :
  zip (zip ((fun e => e.1.1.1) <$> extra) ((fun e => e.1.1.2) <$> extra))
      ((fun e => e.1.2) <$> extra) = extra.*1.
Proof.
  induction extra as [|[[[r c] y] x] extra IH]; [done|]. csimpl. by rewrite IH.
Qed.

(** X9: the four outputs of [get_training_inputs] have one entry per kept
    sample: they are equally long, and the rows, columns and labels put
    side by side are samples of the input, in the order of the input. *)
Theorem training_outputs_aligned (samples : list (Z * Z * Z))
    (features : list (list Q)) (ys rows cols : list Z) :
  get_training_inputs load exit_on_missing training_start training_end samples
  = Ok (features, ys, rows, cols) ->
  length features = length ys /\ length rows = length ys
  /\ length cols = length ys
  /\ zip (zip rows cols) ys `sublist_of` samples.
Proof.
  unfold get_training_inputs. intros H. inv_bind.
  destruct (loop_outputs _ _ _ Ha) as (extra & Hsub & -> & -> & -> & ->).
  unfold init. cbn [X out_y out_row out_col]. rewrite !app_nil_l.
  rewrite !length_fmap. split_and!; try done.
  by rewrite zip_outputs.
Qed.

End TrainingMore.

(** ** [get_training_inputs] from its first line *)

Lemma NoDup_two {A} (l : list A) (i j : A) :
  NoDup l -> i ∈ l -> j ∈ l -> i <> j -> (1 < length l)%nat.
Proof.
  intros Hnd Hi Hj Hne. destruct l as [|a [|b l]]; simpl; [| |lia].
  - by apply elem_of_nil in Hi.
  - apply list_elem_of_singleton in Hi, Hj. congruence.
Qed.

Lemma NoDup_only {A} (l : list A) (i : A) :
  NoDup l -> i ∈ l -> (forall j, j ∈ l -> j = i) -> l = [i].
Proof.
  intros Hnd Hi Hall. destruct l as [|a [|b l]].
  - by apply elem_of_nil in Hi.
  - f_equal. apply Hall. by left.
  - exfalso. apply NoDup_cons in Hnd as [Hab _]. apply Hab.
    rewrite (Hall a), (Hall b); [by left| |by left]. right. by left.
Qed.

(** The positions the lookup finds are those of the records that match
    the query. *)
Lemma elem_of_find_model (training_start training_end _col : Z)
    (rec : list Saved.segment) (i : nat) :
  i ∈ TrainMult.find_model training_start training_end _col rec
  <-> exists r, rec !! i = Some r
                /\ model_matches training_start training_end _col r.
Proof.
  unfold TrainMult.find_model, model_matches. rewrite elem_of_np_where.
  split; intros (r & Hr & H); exists r; (split; [done|]).
  - apply andb_true_iff in H as [H Hpx]. apply andb_true_iff in H as [Hs He].
    apply Z.ltb_lt in Hs. apply Z.gtb_lt in He. apply Z.eqb_eq in Hpx. done.
  - destruct H as (Hs & He & Hpx). apply andb_true_iff. split.
    + apply andb_true_iff. split; [by apply Z.ltb_lt|by apply Z.gtb_lt].
    + by apply Z.eqb_eq.
Qed.

Section TrainingCall.
Import Saved TrainMult TrainingInputs.

Variable training_data
  : result (Z * Z * list (Z * Z * Z) * option (list (list Z))).
Variable get_output_name : Z -> result string.
Variable np_load : string -> result (list segment).
Variable exit_on_missing : bool.

Local Abbreviation load_result :=
  (TrainingInputs.load_result get_output_name np_load exit_on_missing).
Local Abbreviation sample :=
  (TrainingInputs.sample get_output_name np_load exit_on_missing).
Local Abbreviation get_training_inputs :=
  (TrainingInputs.get_training_inputs training_data get_output_name np_load
                                      exit_on_missing).

Lemma load_result_keeps (_row : Z) (s s1 : locals) :
  load_result _row s = Ok (Some s1) ->
  X s1 = X s /\ out_y s1 = out_y s /\ out_row s1 = out_row s
  /\ out_col s1 = out_col s.
Proof.
  unfold TrainingInputs.load_result. destruct (decide _); [by intros [= <-]|].
  destruct (get_output_name _row) as [name|]; simpl; [|done].
  destruct (np_load name); [by intros [= <-]|]. by destruct exit_on_missing.
Qed.

Lemma sample_keeps_or_appends (ts te _row _col _y : Z) (s s' : locals) :
  sample ts te (_row, _col, _y) s = Ok s' ->
  (X s' = X s /\ out_y s' = out_y s /\ out_row s' = out_row s
   /\ out_col s' = out_col s)
  \/ (exists x, X s' = X s ++ [x] /\ out_y s' = out_y s ++ [_y]
                /\ out_row s' = out_row s ++ [_row]
                /\ out_col s' = out_col s ++ [_col]).
Proof.
  unfold TrainingInputs.sample. intros H.
  apply bind_Ok in H as ([s1|] & Ha & H).
  - pose proof (load_result_keeps _ _ _ Ha) as (HX & Hy & Hr & Hc).
    destruct (find_model _ _ _ _) as [|i [|i' l]]; [| |done].
    + injection H as <-. by left.
    + inv_bind. right. exists a0. simpl. by rewrite HX, Hy, Hr, Hc.
  - injection H as <-. by left.
Qed.

Lemma samples_append (ts te : Z) (samples : list (Z * Z * Z)) :
  forall s s', for_each (sample ts te) samples s = Ok s' ->
    exists extra : list (Z * Z * Z * list Q),
      extra.*1 `sublist_of` samples
      /\ X s' = X s ++ extra.*2
      /\ out_y s' = out_y s ++ ((fun e => e.1.2) <$> extra)
      /\ out_row s' = out_row s ++ ((fun e => e.1.1.1) <$> extra)
      /\ out_col s' = out_col s ++ ((fun e => e.1.1.2) <$> extra).
Proof.
  induction samples as [|[[_row _col] _y] samples IH]; intros s s' H;
    cbn [for_each] in H.
  - injection H as <-. exists []. simpl. rewrite !app_nil_r. by split_and!.
  - apply bind_Ok in H as (s1 & Ha & H).
    destruct (IH _ _ H) as (extra & Hsub & HX & Hy & Hr & Hc).
    apply sample_keeps_or_appends in Ha
      as [(HX1 & Hy1 & Hr1 & Hc1)|(x & HX1 & Hy1 & Hr1 & Hc1)].
    + exists extra. split_and!; [by apply sublist_cons|congruence..].
    + exists ((_row, _col, _y, x) :: extra). simpl. split_and!.
      * by apply sublist_skip.
      * rewrite HX, HX1. by rewrite <- app_assoc.
      * rewrite Hy, Hy1. by rewrite <- app_assoc.
      * rewrite Hr, Hr1. by rewrite <- app_assoc.
      * rewrite Hc, Hc1. by rewrite <- app_assoc.
Qed.

(** What the sample does when exactly one record matches. *)
Lemma sample_one (ts te _row _col _y : Z) (s s1 : locals) (i : nat)
    (r : segment) (c0 c1 : list Q) (rest : list (list Q)) :
  load_result _row s = Ok (Some s1) ->
  rec s1 !! i = Some r -> model_matches ts te _col r ->
  (forall j r', rec s1 !! j = Some r' -> model_matches ts te _col r' -> j = i) ->
  coef r = c0 :: c1 :: rest ->
  sample ts te (_row, _col, _y) s
  = Ok {| rec := rec s1; _row_previous := _row_previous s1;
          X := X s ++ [midpoint_features r c0 c1 rest];
          out_y := out_y s ++ [_y];
          out_row := out_row s ++ [_row];
          out_col := out_col s ++ [_col] |}.
Proof.
  intros Hload Hi Hm Honly Hc.
  pose proof (load_result_keeps _ _ _ Hload) as (HX & Hy & Hr & Hcol).
  unfold TrainingInputs.sample. cbv beta iota. rewrite Hload.
  cbn [mbind result_bind].
  rewrite (NoDup_only (find_model ts te _col (rec s1)) i).
  - unfold at_index. rewrite Hi. simpl.
    rewrite (features_Ok r c0 c1 rest Hc). simpl.
    by rewrite HX, Hy, Hr, Hcol.
  - apply np_where_NoDup.
  - apply elem_of_find_model. by exists r.
  - intros j (r' & Hj & Hm')%elem_of_find_model. by eapply Honly.
Qed.

(** What the sample does when two records match. *)
Lemma sample_many (ts te _row _col _y : Z) (s s1 : locals) (i j : nat)
    (ri rj : segment) :
  load_result _row s = Ok (Some s1) ->
  i <> j -> rec s1 !! i = Some ri -> rec s1 !! j = Some rj ->
  model_matches ts te _col ri -> model_matches ts te _col rj ->
  sample ts te (_row, _col, _y) s = Raise (TrainingDataException _y _col _row).
Proof.
  intros Hload Hne Hi Hj Hmi Hmj.
  unfold TrainingInputs.sample. cbv beta iota. rewrite Hload.
  cbn [mbind result_bind].
  assert (1 < length (find_model ts te _col (rec s1)))%nat as Hlen.
  { apply (NoDup_two _ i j); [apply np_where_NoDup| | |done];
      apply elem_of_find_model; eauto. }
  destruct (find_model _ _ _ _) as [|a [|b l]]; simpl in Hlen; [lia|lia|done].
Qed.

(** C5: take the sample [(_row, _col, _y)] of the training image and the
    record array in use when the loop reaches it.  When two records of the
    array at different positions match the query (start before the training
    start, end after the training end, same pixel column),
    [get_training_inputs] raises [TrainingDataException] for this sample.
    When exactly one record matches, whatever [get_training_inputs] returns
    holds, at the position of this sample, the coefficients of that record
    (intercepts moved to the midpoint) followed by its RMSE, with the
    sample's label, row and column; and when the sample is the last one
    and the image has no labels, the call does return. *)
Theorem C5_ambiguous_model_raises (pre post : list (Z * Z * Z))
    (training_start training_end _row _col _y : Z)
    (labels : option (list (list Z))) (s s1 : locals) :
  training_data
  = Ok (training_start, training_end, pre ++ (_row, _col, _y) :: post, labels) ->
  for_each (sample training_start training_end) pre init = Ok s ->
  load_result _row s = Ok (Some s1) ->
  (forall i j ri rj,
     i <> j -> rec s1 !! i = Some ri -> rec s1 !! j = Some rj ->
     model_matches training_start training_end _col ri ->
     model_matches training_start training_end _col rj ->
     get_training_inputs = Raise (TrainingDataException _y _col _row))
  /\ (forall i r c0 c1 rest,
        rec s1 !! i = Some r ->
        model_matches training_start training_end _col r ->
        (forall j r', rec s1 !! j = Some r' ->
           model_matches training_start training_end _col r' -> j = i) ->
        coef r = c0 :: c1 :: rest ->
        (forall Xs ys rows cols labels',
           get_training_inputs = Ok (Xs, ys, rows, cols, labels') ->
           Xs !! length (X s) = Some (midpoint_features r c0 c1 rest)
           /\ ys !! length (X s) = Some _y
           /\ rows !! length (X s) = Some _row
           /\ cols !! length (X s) = Some _col)
        /\ (post = [] -> labels = None ->
              get_training_inputs
              = Ok (X s ++ [midpoint_features r c0 c1 rest], out_y s ++ [_y],
                    out_row s ++ [_row], out_col s ++ [_col], None))).
Proof.
  intros Hdata Hpre Hload. split.
  - intros i j ri rj Hne Hi Hj Hmi Hmj.
    unfold TrainingInputs.get_training_inputs. rewrite Hdata. simpl.
    rewrite for_each_app, Hpre. cbn [mbind result_bind for_each].
    by rewrite (sample_many training_start training_end _row _col _y s s1
                  i j ri rj Hload Hne Hi Hj Hmi Hmj).
  - intros i r c0 c1 rest Hi Hm Honly Hc.
    pose proof (sample_one training_start training_end _row _col _y s s1 i r
                  c0 c1 rest Hload Hi Hm Honly Hc) as Hsample.
    destruct (samples_append _ _ _ _ _ Hpre) as (done & _ & HX & Hy & Hr & Hcol).
    unfold init in HX, Hy, Hr, Hcol. cbn [X out_y out_row out_col] in *.
    rewrite app_nil_l in HX, Hy, Hr, Hcol.
    assert (length (out_y s) = length (X s)
            /\ length (out_row s) = length (X s)
            /\ length (out_col s) = length (X s)) as (Hly & Hlr & Hlc).
    { rewrite HX, Hy, Hr, Hcol. by rewrite !length_fmap. }
    split.
    + intros Xs ys rows cols labels'.
      unfold TrainingInputs.get_training_inputs. rewrite Hdata. simpl.
      rewrite for_each_app, Hpre. cbn [mbind result_bind for_each].
      rewrite Hsample. cbn [mbind result_bind]. intros H.
      apply bind_Ok in H as (s3 & Hpost & H).
      apply bind_Ok in H as (lab & _ & H). injection H as <- <- <- <- _.
      destruct (samples_append _ _ _ _ _ Hpost)
        as (more & _ & HX3 & Hy3 & Hr3 & Hc3).
      cbn [X out_y out_row out_col] in *.
      rewrite HX3, Hy3, Hr3, Hc3. split_and!.
      * rewrite <- app_assoc. by apply list_lookup_middle.
      * rewrite <- app_assoc. by apply list_lookup_middle.
      * rewrite <- app_assoc. by apply list_lookup_middle.
      * rewrite <- app_assoc. by apply list_lookup_middle.
    + intros -> ->.
      unfold TrainingInputs.get_training_inputs. rewrite Hdata. simpl.
      rewrite for_each_app, Hpre. cbn [mbind result_bind for_each].
      rewrite Hsample. reflexivity.
Qed.

(** X10: with [exit_on_missing] off, an exception that leaves
    [get_training_inputs] was raised before the loop (reading the image,
    parsing the dates, masking), or by [get_output_name] for the row of a
    sample, or is the [TrainingDataException] of a sample, or is an
    [IndexError] (a record without intercept or slope row, or the indexing
    of the labels).  An exception of [np.load] is not among them: a result
    file that cannot be read makes the loop go on to the next sample. *)
Theorem training_exceptions (e : exn) :
  exit_on_missing = false ->
  get_training_inputs = Raise e ->
  training_data = Raise e
  \/ exists ts te samples labels,
       training_data = Ok (ts, te, samples, labels)
       /\ ((exists _row _col _y,
              (_row, _col, _y) ∈ samples
              /\ (get_output_name _row = Raise e
                  \/ e = TrainingDataException _y _col _row))
           \/ e = IndexError "index out of bounds").
Proof.
  intros Heom. unfold TrainingInputs.get_training_inputs.
  destruct training_data as [[[[ts te] samples] labels]|e0]; simpl;
    [|intros [= ->]; by left].
  intros Hrun. right. exists ts, te, samples, labels. split; [done|].
  destruct (for_each _ samples init) as [s|e'] eqn:Hloop; simpl in Hrun.
  - right. destruct labels as [l|]; [|done]. simpl in Hrun.
    unfold index_labels in Hrun.
    destruct (map_result _ _) as [v|e'] eqn:Hmap; simpl in Hrun; [done|].
    injection Hrun as ->. clear -Hmap.
    revert Hmap. generalize (zip (out_row s) (out_col s)).
    induction l0 as [|rc l0 IH]; simpl; [done|].
    destruct (py_index l rc.1) as [row|e'] eqn:Hrow; simpl;
      [|intros [= <-]; by eapply py_index_Raise].
    destruct (py_index row rc.2) as [v|e'] eqn:Hv; simpl;
      [|intros [= <-]; by eapply py_index_Raise].
    destruct (map_result _ l0) as [vs|e'] eqn:Hrest; simpl; [done|].
    intros [= <-]. by apply IH.
  - injection Hrun as ->. revert Hloop. generalize init.
    induction samples as [|[[_row _col] _y] samples IH]; intros s Hloop;
      cbn [for_each] in Hloop; [done|].
    destruct (sample ts te (_row, _col, _y) s) as [s1|e'] eqn:Hs;
      simpl in Hloop.
    + destruct (IH _ Hloop) as [(r & c & y & Hin & H)|H]; [|by right].
      left. exists r, c, y. split; [by right|done].
    + injection Hloop as ->. unfold TrainingInputs.sample in Hs.
      destruct (load_result _row s) as [[s1|]|e'] eqn:Hl; simpl in Hs.
      * destruct (find_model _ _ _ _) as [|i [|i' l]]; [done| |].
        -- right. unfold at_index in Hs.
           destruct (rec s1 !! i) as [r|]; simpl in Hs; [|by injection Hs as <-].
           unfold features, rescale_intercept in Hs.
           destruct (py_index (coef r) 0) as [c0|e0] eqn:H0; simpl in Hs;
             [|injection Hs as <-; by eapply py_index_Raise].
           destruct (py_index (coef r) 1) as [c1|e1] eqn:H1; simpl in Hs;
             [done|injection Hs as <-; by eapply py_index_Raise].
        -- injection Hs as <-. left. exists _row, _col, _y.
           split; [by left|by right].
      * done.
      * injection Hs as ->. left. exists _row, _col, _y. split; [by left|].
        left. unfold TrainingInputs.load_result in Hl. rewrite Heom in Hl.
        destruct (decide _); [done|].
        destruct (get_output_name _row) as [name|e']; simpl in Hl;
          [|by injection Hl as ->].
        by destruct (np_load name).
Qed.

End TrainingCall.

(** ** Python strings *)

Section TextFacts.
Import Text.

Variable sep : Ascii.ascii.

Lemma split_on_nonempty (s : string) : split_on sep s <> [].
Proof.
  destruct s as [|c s]; simpl; [done|].
  destruct (decide (c = sep)); [done|]. by destruct (split_on sep s).
Qed.

Lemma join_cons (p : string) (ps : list string) :
  ps <> [] -> join sep (p :: ps) = p +:+ String sep (join sep ps).
Proof. by destruct ps. Qed.

Lemma split_on_clean (p : string) :
  sep ∉ chars p -> split_on sep p = [p].
Proof.
  induction p as [|c p IH]; simpl; [done|]. intros Hc.
  apply not_elem_of_cons in Hc as [Hne Hc].
  rewrite decide_False by done. by rewrite IH.
Qed.

Lemma split_on_app (p rest : string) :
  sep ∉ chars p ->
  split_on sep (p +:+ String sep rest) = p :: split_on sep rest.
Proof.
  induction p as [|c p IH]; simpl; intros Hc.
  - by rewrite decide_True.
  - apply not_elem_of_cons in Hc as [Hne Hc].
    rewrite decide_False by done. by rewrite IH.
Qed.

Lemma join_split_on (s : string) : join sep (split_on sep s) = s.
Proof.
  induction s as [|c s IH]; simpl; [done|].
  destruct (decide (c = sep)) as [->|Hne].
  - rewrite join_cons by apply split_on_nonempty. simpl. by rewrite IH.
  - pose proof (split_on_nonempty s) as Hs.
    destruct (split_on sep s) as [|p ps]; [done|].
    destruct ps as [|p' ps]; simpl in *; by rewrite <- IH.
Qed.

(** X11: splitting and joining on a separator undo each other: the pieces
    of a string, joined, give the string back; and pieces that do not
    contain the separator, joined and split, come back as they were.  A
    split never gives an empty list, and no piece contains the separator. *)
Theorem split_join_round_trip :
  (forall s, join sep (split_on sep s) = s)
  /\ (forall s, split_on sep s <> []
                /\ Forall (fun p => sep ∉ chars p) (split_on sep s))
  /\ (forall pieces, pieces <> [] -> Forall (fun p => sep ∉ chars p) pieces ->
        split_on sep (join sep pieces) = pieces).
Proof.
  split_and!.
  - apply join_split_on.
  - intros s. split; [apply split_on_nonempty|].
    induction s as [|c s IH]; simpl; [constructor; [apply not_elem_of_nil|done]|].
    destruct (decide (c = sep)) as [->|Hne].
    + constructor; [apply not_elem_of_nil|done].
    + pose proof (split_on_nonempty s) as Hs.
      destruct (split_on sep s) as [|p ps]; [done|].
      apply Forall_cons in IH as [Hp Hps]. constructor; [|done].
      simpl. by apply not_elem_of_cons.
  - induction pieces as [|p pieces IH]; [done|]. intros _ Hall.
    apply Forall_cons in Hall as [Hp Hall].
    destruct pieces as [|p' pieces]; [by apply split_on_clean|].
    rewrite join_cons by done. rewrite split_on_app by done.
    by rewrite IH.
Qed.

Lemma chars_split_on (s : string) :
  concat (chars <$> split_on sep s) = filter (fun c => c <> sep) (chars s).
Proof.
  induction s as [|c s IH]; simpl; [done|].
  rewrite filter_cons. destruct (decide (c = sep)) as [->|Hne].
  - rewrite decide_False by (by intros ?). by rewrite <- IH.
  - rewrite decide_True by done.
    pose proof (split_on_nonempty s) as Hs.
    destruct (split_on sep s) as [|p ps]; [done|].
    simpl in *. by rewrite <- IH.
Qed.

End TextFacts.

Section TokenFacts.
Import Text.

Lemma chars_replace_comma (s : string) :
  filter (fun c => c <> space) (chars (replace_char comma space s))
  = filter (fun c => c <> comma /\ c <> space) (chars s).
Proof.
  induction s as [|c s IH]; simpl; [done|]. rewrite !filter_cons, IH.
  destruct (decide (c = comma)) as [->|Hne].
  - rewrite decide_False by (by intros ?).
    by rewrite decide_False by (by intros [? _]).
  - destruct (decide (c <> space)) as [Hs|Hs].
    + by rewrite decide_True by done.
    + by rewrite decide_False by (by intros [_ ?]).
Qed.

Lemma concat_filter_nonempty (l : list string) :
  concat (chars <$> filter (fun t => t <> EmptyString) l) = concat (chars <$> l).
Proof.
  induction l as [|t l IH]; [done|]. rewrite filter_cons.
  destruct (decide _) as [Ht|Ht]; csimpl; [by rewrite IH|].
  destruct t; [by rewrite IH|]. exfalso. by apply Ht.
Qed.

Lemma elem_of_concat {A} (x : A) (ls : list (list A)) :
  (exists l, x ∈ l /\ l ∈ ls) -> x ∈ concat ls.
Proof.
  intros (l & Hx & Hl). induction Hl as [l ls|l l' ls _ IH]; simpl;
    apply elem_of_app; auto.
Qed.

(** X12: the tokens taken from an option value ([--coef], [--band], the
    frequencies and test indices of a configuration file) are not empty and
    hold neither comma nor blank; put one after the other they are the
    value with its commas and blanks taken out, so no other character is
    lost or added. *)
Theorem tokens_spec (s : string) :
  Forall (fun t => t <> EmptyString /\ (comma ∉ chars t) /\ (space ∉ chars t))
         (tokens s)
  /\ concat (chars <$> tokens s)
     = filter (fun c => c <> comma /\ c <> space) (chars s).
Proof.
  assert (concat (chars <$> tokens s)
          = filter (fun c => c <> comma /\ c <> space) (chars s)) as Hcat.
  { unfold tokens. rewrite concat_filter_nonempty, chars_split_on.
    apply chars_replace_comma. }
  split; [|done]. apply Forall_forall. intros t Ht.
  assert (forall c, c ∈ chars t -> c <> comma /\ c <> space) as Hc.
  { intros c Hin.
    assert (c ∈ concat (chars <$> tokens s)) as Hin'.
    { apply elem_of_concat. exists (chars t). split; [done|].
      apply list_elem_of_fmap. by exists t. }
    rewrite Hcat in Hin'. by apply list_elem_of_filter in Hin' as [? _]. }
  split_and!.
  - unfold tokens in Ht. by apply list_elem_of_filter in Ht as [? _].
  - intros Hin. by destruct (Hc _ Hin).
  - intros Hin. by destruct (Hc _ Hin).
Qed.

End TokenFacts.

(** ** [parse_config_file] *)

(** X13: [parse_config_file] hands the file to the parser of version 0.1
    exactly when the version string is "0.1" or starts with "0.1."; the
    version string "0" makes it raise [IndexError]; every other version
    string gives no configuration and no error. *)
Theorem parse_config_file_versions {A} (version : string) (parser : result A) :
  (version = "0.1" \/ (exists rest, version = "0.1." +:+ rest) ->
     ConfigParser.parse_config_file version parser
     = (config ← parser; Ok (Some config)))
  /\ (version = "0" ->
        ConfigParser.parse_config_file version parser
        = Raise (IndexError "index out of bounds"))
  /\ (version <> "0" -> version <> "0.1" ->
      (forall rest, version <> "0.1." +:+ rest) ->
        ConfigParser.parse_config_file version parser = Ok None).
Proof.
  unfold ConfigParser.parse_config_file. split_and!.
  - intros [->|[rest ->]]; [done|].
    assert (Text.split_on Text.dot ("0.1." +:+ rest)
            = "0" :: "1" :: Text.split_on Text.dot rest) as ->.
    { reflexivity. }
    rewrite (py_index_lookup _ 0 "0") by done. simpl.
    by rewrite (py_index_lookup _ 1 "1") by done.
  - by intros ->.
  - intros H0 H01 H01x.
    pose proof (join_split_on Text.dot version) as Hjoin.
    pose proof (split_on_nonempty Text.dot version) as Hne.
    destruct (Text.split_on Text.dot version) as [|v0 vs]; [done|].
    rewrite (py_index_lookup _ 0 v0) by done. simpl.
    destruct (decide (v0 = "0")) as [->|]; [|done].
    destruct vs as [|v1 vs]; [by simpl in Hjoin|].
    rewrite (py_index_lookup _ 1 v1) by done. simpl.
    destruct (decide (v1 = "1")) as [->|]; [|done].
    destruct vs as [|v2 vs]; [by simpl in Hjoin|].
    exfalso. apply (H01x (Text.join Text.dot (v2 :: vs))).
    rewrite <- Hjoin. rewrite !join_cons by done. done.
Qed.

(** ** [find_result_attributes] and the parsed arguments *)

Section Attributes.
Import MapAttributes.

Lemma elem_of_range (a b x : Z) : x ∈ range a b <-> a <= x < b.
Proof.
  unfold range. rewrite list_elem_of_fmap. split.
  - intros (k & -> & Hk%elem_of_seq). lia.
  - intros Hx. exists (Z.to_nat (x - a)). split; [lia|].
    apply elem_of_seq. lia.
Qed.

Lemma length_range (a b : Z) : length (range a b) = Z.to_nat (b - a).
Proof. unfold range. by rewrite length_fmap, length_seq. Qed.

(** X14: a list of band numbers passes the check of
    [find_result_attributes] exactly when none of them exceeds the number
    of bands by more than one.  So the band number one past the last band
    is let through, and reading that band from a record then raises
    [IndexError]; with ['all'] every index is a band of the results. *)
Theorem select_bands_check (result_bands : nat) (l : list Z) :
  (Forall (fun b => b <= Z.of_nat result_bands + 1) l ->
     select_bands (Bands l) result_bands = Return ((fun b => b - 1) <$> l))
  /\ (~ Forall (fun b => b <= Z.of_nat result_bands + 1) l ->
        select_bands (Bands l) result_bands = Exit 1)
  /\ (forall use_robust r,
        length (Saved.get_rmse use_robust r) = result_bands ->
        select_bands (Bands [Z.of_nat result_bands + 1]) result_bands
        = Return [Z.of_nat result_bands]
        /\ YatsmMap.extract_rmse use_robust [Z.of_nat result_bands] r
           = Raise (IndexError "index out of bounds"))
  /\ (exists i_bands, select_bands AllBands result_bands = Return i_bands
        /\ length i_bands = result_bands
        /\ Forall (fun b => 0 <= b < Z.of_nat result_bands) i_bands).
Proof.
  assert (forall l', existsb (fun b => b >? Z.of_nat result_bands)
                       ((fun b => b - 1) <$> l') = false
                     <-> Forall (fun b => b <= Z.of_nat result_bands + 1) l') as Hex.
  { induction l' as [|b l' IH]; simpl; [by split; [constructor|]|].
    rewrite orb_false_iff, IH, Forall_cons.
    destruct (Z.gtb_spec (b - 1) (Z.of_nat result_bands)); split; intros [? ?];
      split; auto; try lia; done. }
  split_and!.
  - intros Hall. unfold select_bands. by rewrite (proj2 (Hex l) Hall).
  - intros Hnot. unfold select_bands.
    destruct (existsb _ _) eqn:He; [done|]. exfalso. by apply Hnot, Hex.
  - intros use_robust r Hlen. split.
    + unfold select_bands. rewrite (proj2 (Hex _)).
      * simpl. do 2 f_equal. lia.
      * constructor; [lia|constructor].
    + unfold YatsmMap.extract_rmse. simpl. unfold py_index. rewrite Hlen.
      destruct (Z.ltb_spec (Z.of_nat result_bands) 0); [lia|].
      rewrite Z.ltb_irrefl, andb_false_r. done.
  - eexists. split; [reflexivity|]. split.
    + rewrite length_range. lia.
    + apply Forall_forall. intros b Hb%elem_of_range. lia.
Qed.

End Attributes.

Section AttributesScan.
Import MapAttributes.

Variable use_robust : bool.

Lemma has_fields_test (f : result_file) :
  bool_decide ((if use_robust then "robust_coef" else "coef") ∈ dtype_names f)
  && bool_decide ((if use_robust then "robust_rmse" else "rmse") ∈ dtype_names f)
  = true <-> has_fields use_robust f.
Proof.
  unfold has_fields. rewrite andb_true_iff, !bool_decide_eq_true. done.
Qed.

Lemma scan_skipped (o : option result_file) (rest : list (option result_file))
    (seen : option (list Z)) :
  skipped_file use_robust o ->
  exists seen', scan_results use_robust (o :: rest) seen
                = scan_results use_robust rest seen'.
Proof.
  destruct o as [f|]; simpl; [|by eexists].
  intros [Hnames|[Hfields Hshape]].
  - rewrite Hnames. by eexists.
  - destruct (dtype_names f) as [|n ns] eqn:Hn; [by eexists|].
    rewrite <- Hn. rewrite (proj2 (has_fields_test f)) by done.
    destruct (n_elements f) as [|k] eqn:Hk; [by eexists|].
    destruct (if use_robust then robust_coef_shape f else coef_shape f)
      as [|c [|b [|x xs]]] eqn:Hs; try by eexists.
    exfalso. apply (Hshape c b). split; [lia|done].
Qed.

Lemma scan_skipped_all (pre rest : list (option result_file)) :
  Forall (skipped_file use_robust) pre ->
  forall seen, exists seen',
    scan_results use_robust (pre ++ rest) seen
    = scan_results use_robust rest seen'.
Proof.
  induction 1 as [|o pre Ho _ IH]; intros seen; [by eexists|].
  destruct (scan_skipped o (pre ++ rest) seen Ho) as [seen1 H1].
  destruct (IH seen1) as [seen2 H2]. exists seen2.
  by rewrite <- app_comm_cons, H1.
Qed.

Lemma scan_usable (f : result_file) (c b : nat)
    (rest : list (option result_file)) (seen : option (list Z)) :
  usable_file use_robust f c b ->
  scan_results use_robust (Some f :: rest) seen
  = Return (Some (c, b), Some (freq f)).
Proof.
  intros [Hfields [Hn Hs]]. simpl.
  destruct (dtype_names f) as [|n ns] eqn:Hnames.
  { destruct Hfields as [H _]. rewrite Hnames in H. by apply elem_of_nil in H. }
  rewrite <- Hnames. rewrite (proj2 (has_fields_test f)) by done.
  destruct (n_elements f); [done|]. by rewrite Hs.
Qed.

(** X15: [find_result_attributes] takes the shape and the frequencies from
    the first result file that has the coefficient and RMSE fields, an
    element and a two-dimensional coefficient field: the files passed over
    before it and all files after it make no difference.  When every file
    is passed over it exits; and it exits at a file whose array has fields
    but not these two, even if a complete file follows. *)
Theorem find_result_attributes_first_usable
    (pre post : list (option result_file)) (f : result_file)
    (output_bands : band_choice) (output_coefs : option (list string)) :
  Forall (skipped_file use_robust) pre ->
  (forall c b, usable_file use_robust f c b ->
     find_result_attributes (pre ++ Some f :: post) output_bands output_coefs
                            use_robust
     = find_result_attributes [Some f] output_bands output_coefs use_robust)
  /\ find_result_attributes pre output_bands output_coefs use_robust = Exit 1
  /\ (dtype_names f <> [] -> ~ has_fields use_robust f ->
        find_result_attributes (pre ++ Some f :: post) output_bands output_coefs
                               use_robust = Exit 1).
Proof.
  intros Hpre. split_and!.
  - intros c b Hf. unfold find_result_attributes.
    destruct (scan_skipped_all pre (Some f :: post) Hpre None) as [seen ->].
    by rewrite !(scan_usable f c b).
  - unfold find_result_attributes.
    destruct (scan_skipped_all pre [] Hpre None) as [seen Hs].
    rewrite app_nil_r in Hs. by rewrite Hs.
  - intros Hnames Hfields. unfold find_result_attributes.
    destruct (scan_skipped_all pre (Some f :: post) Hpre None) as [seen ->].
    simpl. destruct (dtype_names f) as [|n ns] eqn:Hn; [done|].
    rewrite <- Hn.
    destruct (bool_decide _ && bool_decide _) eqn:Ht; [|done].
    exfalso. by apply Hfields, has_fields_test.
Qed.

(** X16: the saved frequencies decide whether [find_result_attributes]
    gets to the bands at all: with no frequency, or the single frequency
    0, it exits; with two or more frequencies the truth test on the array
    raises [ValueError]. *)
Theorem find_result_attributes_frequencies
    (pre post : list (option result_file)) (f : result_file) (c b : nat)
    (output_bands : band_choice) (output_coefs : option (list string)) :
  Forall (skipped_file use_robust) pre ->
  usable_file use_robust f (S c) (S b) ->
  (freq f = [] \/ freq f = [0] ->
     find_result_attributes (pre ++ Some f :: post) output_bands output_coefs
                            use_robust = Exit 1)
  /\ ((2 <= length (freq f))%nat ->
        exists msg,
          find_result_attributes (pre ++ Some f :: post) output_bands
                                 output_coefs use_robust
          = Thrown (ValueError msg)).
Proof.
  intros Hpre Hf. unfold find_result_attributes.
  destruct (scan_skipped_all pre (Some f :: post) Hpre None) as [seen ->].
  rewrite (scan_usable f (S c) (S b)) by done. split.
  - by intros [-> | ->].
  - intros Hlen. destruct (freq f) as [|k [|k' ks]]; simpl in Hlen; try lia.
    by eexists.
Qed.

End AttributesScan.

Section Coefficients.
Import MapAttributes.

Variable result_coefs : nat.

Lemma select_coefs_in_range (coefs : list string) :
  (2 <= result_coefs)%nat ->
  forall acc use_rmse,
    Forall (fun c => 0 <= c < Z.of_nat result_coefs) acc ->
    Forall (fun c => 0 <= c < Z.of_nat result_coefs)
           (select_coefs result_coefs coefs acc use_rmse).1.
Proof.
  intros Hn. induction coefs as [|c coefs IH]; intros acc use_rmse Hacc; simpl;
    [done|].
  repeat case_decide; simpl; try apply IH; try apply Forall_app;
    try split; try done; try (constructor; [lia|done]);
    apply Forall_forall; intros x Hx%elem_of_range; lia.
Qed.

Lemma select_coefs_known (coefs : list string) :
  forall acc use_rmse,
    select_coefs result_coefs coefs acc use_rmse
    = select_coefs result_coefs (filter (fun c => c ∈ _coefs) coefs) acc use_rmse.
Proof.
  induction coefs as [|c coefs IH]; intros acc use_rmse; [done|].
  rewrite filter_cons. destruct (decide (c ∈ _coefs)) as [Hc|Hc].
  - simpl. repeat case_decide; try done; by rewrite IH.
  - simpl. repeat case_decide; try (by rewrite IH); exfalso; apply Hc; subst c;
      unfold _coefs; set_solver.
Qed.

Lemma select_coefs_all (coefs : list string) :
  "all" ∈ coefs ->
  forall acc use_rmse,
    (select_coefs result_coefs coefs acc use_rmse).2 = true
    /\ exists acc', (select_coefs result_coefs coefs acc use_rmse).1
                    = acc' ++ range 0 (Z.of_nat result_coefs).
Proof.
  induction coefs as [|c coefs IH]; intros Hin acc use_rmse.
  { by apply elem_of_nil in Hin. }
  simpl. destruct (decide (c = "all")) as [->|Hne]; simpl.
  - split; [done|]. by exists acc.
  - apply elem_of_cons in Hin as [Heq|Hin]; [done|].
    repeat case_decide; by apply IH.
Qed.

(** X17: the coefficient indices chosen by [find_result_attributes] are
    rows of the coefficient matrix whenever it has at least the intercept
    and slope rows; names that are not among the five known ones select
    nothing; and once ['all'] is among the names the RMSE is included and
    the indices end with every row of the matrix. *)
Theorem select_coefs_spec (coefs : list string) :
  ((2 <= result_coefs)%nat ->
     Forall (fun c => 0 <= c < Z.of_nat result_coefs)
            (select_coefs result_coefs coefs [] false).1)
  /\ select_coefs result_coefs coefs [] false
     = select_coefs result_coefs (filter (fun c => c ∈ _coefs) coefs) [] false
  /\ ("all" ∈ coefs ->
        (select_coefs result_coefs coefs [] false).2 = true
        /\ exists acc', (select_coefs result_coefs coefs [] false).1
                        = acc' ++ range 0 (Z.of_nat result_coefs)).
Proof.
  split_and!.
  - intros Hn. by apply select_coefs_in_range.
  - apply select_coefs_known.
  - intros Hin. by apply select_coefs_all.
Qed.

Lemma lower_known (c : string) :
  Text.lower c ∈ _coefs -> (c ∈ _coefs <-> Text.lower c = c).
Proof.
  intros Hl. split.
  - unfold _coefs. rewrite !elem_of_cons, elem_of_nil.
    intros [->|[->|[->|[->|[->|[]]]]]]; reflexivity.
  - by intros <-.
Qed.

(** X18: [parse_args] accepts the [--coef] value when every token, put in
    lower case, is a known name, and exits otherwise; it passes the tokens
    on as they were typed.  [find_result_attributes] compares them as typed,
    so of the accepted tokens only those already in lower case select
    anything. *)
Theorem parse_coefs_case (arg : string) :
  (Forall (fun c => Text.lower c ∈ _coefs) (Text.tokens arg) ->
     parse_coefs arg = Return (Text.tokens arg))
  /\ (~ Forall (fun c => Text.lower c ∈ _coefs) (Text.tokens arg) ->
        parse_coefs arg = Exit 1)
  /\ (forall coefs, parse_coefs arg = Return coefs ->
        select_coefs result_coefs coefs [] false
        = select_coefs result_coefs
                       (filter (fun c => Text.lower c = c) coefs) [] false).
Proof.
  assert (forall l, forallb (fun c => bool_decide (Text.lower c ∈ _coefs)) l = true
                    <-> Forall (fun c => Text.lower c ∈ _coefs) l) as Hall.
  { induction l as [|c l IH]; simpl; [by split; [constructor|]|].
    rewrite andb_true_iff, bool_decide_eq_true, IH, Forall_cons. done. }
  unfold parse_coefs. split_and!.
  - intros H. by rewrite (proj2 (Hall _) H).
  - intros H. destruct (forallb _ _) eqn:He; [|done]. exfalso. by apply H, Hall.
  - intros coefs. destruct (forallb _ _) eqn:He; [|done]. intros [= <-].
    apply Hall in He. rewrite select_coefs_known.
    replace (filter (fun c => c ∈ _coefs) (Text.tokens arg))
      with (filter (fun c => Text.lower c = c) (Text.tokens arg)); [done|].
    induction He as [|c l Hc _ IH]; [done|]. rewrite !filter_cons, IH.
    destruct (decide (c ∈ _coefs)) as [Hin|Hin].
    + by rewrite decide_True by (by apply lower_known).
    + rewrite decide_False; [done|]. intros Heq. by apply Hin, lower_known.
Qed.

End Coefficients.

(** ** Plot helpers *)

Lemma foldl_app_concat {A B} (g : B -> list A) (l : list B) (a : list A) :
  foldl (fun acc r => acc ++ g r) a l = a ++ concat (g <$> l).
Proof.
  revert a; induction l as [|r l IH]; intros a; simpl; [by rewrite app_nil_r|].
  rewrite IH. by rewrite <- app_assoc.
Qed.

(** Position [k * n + i] of a concatenation of blocks of length [n] is
    position [i] of block [k]. *)
Lemma lookup_concat_blocks {A} (n : nat) (blocks : list (list A)) (k i : nat) :
  Forall (fun b => length b = n) blocks -> (i < n)%nat ->
  concat blocks !! (k * n + i)%nat = blocks !! k ≫= (fun b => b !! i).
Proof.
  intros Hall Hi; revert k; induction Hall as [|b blocks Hb _ IH]; intros k; simpl.
  - by rewrite !lookup_nil.
  - destruct k as [|k]; simpl.
    + rewrite lookup_app_l by lia. done.
    + rewrite lookup_app_r by lia.
      replace (n + k * n + i - length b)%nat with (k * n + i)%nat by lia.
      apply IH.
Qed.

Lemma length_concat_blocks {A} (n : nat) (blocks : list (list A)) :
  Forall (fun b => length b = n) blocks ->
  length (concat blocks) = (length blocks * n)%nat.
Proof.
  induction 1 as [|b blocks Hb _ IH]; simpl; [done|].
  rewrite length_app, IH. lia.
Qed.

(** X19: for a number of repetitions that is not negative, the three arrays
    [plot_VAL] passes to the scatter plot are equally long, [reps + 1] times
    the input; copy [k] of the days of year is the input shifted by
    [k * 366], and the years and values are repeated unchanged, so every
    point keeps its own year and value. *)
Theorem plot_VAL_aligned (doy year : list Z) (y : list Q) (reps : Z) :
  0 <= reps -> length year = length doy -> length y = length doy ->
  exists _doy _year _y,
    PixelPlots.plot_VAL doy year y reps = Ok (_doy, _year, _y)
    /\ length _doy = (Z.to_nat (reps + 1) * length doy)%nat
    /\ length _year = length _doy /\ length _y = length _doy
    /\ forall k i, (k <= Z.to_nat reps)%nat -> (i < length doy)%nat ->
         _doy !! (k * length doy + i)%nat
         = (fun d => d + Z.of_nat k * 366) <$> doy !! i
         /\ _year !! (k * length doy + i)%nat = year !! i
         /\ _y !! (k * length doy + i)%nat = y !! i.
Proof.
  intros Hreps Hyear Hy. unfold PixelPlots.plot_VAL.
  destruct (Z.ltb_spec (reps + 1) 0) as [|_]; [lia|].
  eexists _, _, _. split; [reflexivity|].
  set (n := length doy).
  set (shift := fun r : Z => (fun d => d + r * 366) <$> doy).
  assert (foldl (fun acc r => acc ++ ((fun d => d + r * 366) <$> doy)) doy
                (MapAttributes.range 1 (reps + 1))
          = concat (shift <$> MapAttributes.range 0 (reps + 1))) as Hfold.
  { rewrite (foldl_app_concat shift). unfold MapAttributes.range.
    replace (Z.to_nat (reps + 1 - 0)) with (S (Z.to_nat (reps + 1 - 1))) by lia.
    cbn [seq fmap list_fmap concat]. f_equal.
    - unfold shift. rewrite <- (list_fmap_id doy) at 1.
      apply list_fmap_ext. intros _ d _. simpl. lia.
    - rewrite <- fmap_S_seq, <- !list_fmap_compose. f_equal.
      apply list_fmap_ext. intros _ k _. simpl. f_equal. lia. }
  rewrite Hfold.
  assert (Forall (fun b => length b = n) (shift <$> MapAttributes.range 0 (reps + 1)))
    as Hblocks.
  { apply Forall_fmap, Forall_forall. intros r _. simpl. apply length_fmap. }
  assert (length (concat (shift <$> MapAttributes.range 0 (reps + 1)))
          = (Z.to_nat (reps + 1) * n)%nat) as Hlen.
  { rewrite (length_concat_blocks n) by done.
    rewrite length_fmap, length_range. f_equal. lia. }
  unfold PixelPlots.np_tile.
  split; [done|]. split.
  { rewrite Hlen, (length_concat_blocks n), length_replicate; [done|].
    by apply Forall_replicate. }
  split.
  { rewrite Hlen, (length_concat_blocks n), length_replicate; [done|].
    by apply Forall_replicate. }
  intros k i Hk Hi. split_and!.
  - rewrite (lookup_concat_blocks n) by done.
    rewrite list_lookup_fmap. unfold MapAttributes.range.
    rewrite list_lookup_fmap, lookup_seq_lt by lia. simpl.
    unfold shift. rewrite list_lookup_fmap. by rewrite Z.add_0_l.
  - rewrite (lookup_concat_blocks n); [|by apply Forall_replicate|done].
    rewrite lookup_replicate_2 by lia. done.
  - rewrite (lookup_concat_blocks n); [|by apply Forall_replicate|done].
    rewrite lookup_replicate_2 by lia. done.
Qed.

Lemma list_remove_in (x : Z) (l : list Z) :
  x ∈ l -> exists l', Plots.list_remove x l = Ok l' /\ S (length l') = length l.
Proof.
  induction l as [|y l IH]; intros Hin; [by apply elem_of_nil in Hin|]. simpl.
  destruct (decide (y = x)) as [->|Hne]; [by eexists|].
  apply elem_of_cons in Hin as [->|Hin]; [done|].
  destruct (IH Hin) as (l' & -> & Hlen). simpl. eexists. split; [done|].
  simpl. lia.
Qed.

Lemma list_remove_notin (x : Z) (l : list Z) :
  x ∉ l ->
  Plots.list_remove x l = Raise (ValueError "list.remove(x): x not in list").
Proof.
  induction l as [|y l IH]; intros Hin; [done|]. simpl.
  apply not_elem_of_cons in Hin as [Hne Hin].
  rewrite decide_False by done. by rewrite IH.
Qed.

(** X20: [plot_feature_importance] builds its tick labels only when the
    mask band is one of the bands, and raises [ValueError] otherwise; the
    labels then number twice the count of coefficients, [2 + 2 * len(freq)],
    times the count of unmasked bands. *)
Theorem feature_names_count (n_freq : nat) (n_bands mask_band : Z) :
  (0 <= mask_band < n_bands ->
     exists names,
       Plots.feature_names n_freq n_bands mask_band = Ok names
       /\ Z.of_nat (length names)
          = 2 * (2 + 2 * Z.of_nat n_freq) * (n_bands - 1))
  /\ (~ 0 <= mask_band < n_bands ->
        Plots.feature_names n_freq n_bands mask_band
        = Raise (ValueError "list.remove(x): x not in list")).
Proof.
  unfold Plots.feature_names. split.
  - intros Hm.
    destruct (list_remove_in (mask_band + 1) (MapAttributes.range 1 (n_bands + 1)))
      as (bands & -> & Hlen).
    { apply elem_of_range. lia. }
    rewrite length_range in Hlen. simpl. eexists. split; [reflexivity|].
    rewrite length_app.
    rewrite !(length_bind_const _ (length bands)).
    2,3: intros i; rewrite (length_bind_const _ 1); [lia|done].
    rewrite length_range. lia.
  - intros Hm. rewrite list_remove_notin; [done|].
    intros Hin%elem_of_range. lia.
Qed.

(** ** The training cache and the design information *)

(** X21: how [train] uses the cache file.  Without a configured cache the
    inputs are read from the results and nothing is saved.  A missing cache
    file is created from the inputs read.  A cache file at least as new as
    the training image is used as it is.  A cache file older than the
    training image is passed over, the inputs are read again, and the file
    is left as stale as it was. *)
Theorem cache_plan_cases (training_cache : option string) (fs : TrainSetup.files) :
  (TrainSetup.configured training_cache = false ->
     TrainSetup.cache_plan training_cache fs = (true, false))
  /\ (TrainSetup.configured training_cache = true ->
      TrainSetup.cache_is_file fs = false ->
        TrainSetup.cache_plan training_cache fs = (true, true))
  /\ (TrainSetup.configured training_cache = true ->
      TrainSetup.cache_is_file fs = true ->
      TrainSetup.training_mtime fs <= TrainSetup.cache_mtime fs ->
        TrainSetup.cache_plan training_cache fs = (false, false))
  /\ (TrainSetup.configured training_cache = true ->
      TrainSetup.cache_is_file fs = true ->
      TrainSetup.cache_mtime fs < TrainSetup.training_mtime fs ->
        TrainSetup.cache_plan training_cache fs = (true, false)).
Proof.
  unfold TrainSetup.cache_plan, TrainSetup.is_cache_old.
  split_and!; intros Hc; rewrite Hc; [done|intros ->; done| |].
  - intros -> Hle. simpl.
    destruct (Z.ltb_spec (TrainSetup.cache_mtime fs) (TrainSetup.training_mtime fs));
      [lia|done].
  - intros -> Hlt. simpl.
    destruct (Z.ltb_spec (TrainSetup.cache_mtime fs) (TrainSetup.training_mtime fs));
      [done|lia].
Qed.

(** X22: the design information comes from the first result file that
    yields one, whatever follows it; when no file yields one, an empty list
    of files included, [AttributeError] is raised. *)
Theorem find_design_first {D} (pre post : list (option D)) (d : D) :
  Forall (fun o => o = None) pre ->
  TrainSetup.find_result_attributes (pre ++ Some d :: post) = Ok d
  /\ exists msg, TrainSetup.find_result_attributes pre = Raise (AttributeError msg).
Proof.
  induction 1 as [|o pre -> _ [IH1 IH2]]; simpl; [split; [done|by eexists]|].
  by split.
Qed.

(** ** The dates drawn by [plot_results] *)

Lemma elem_of_arange (a b step d : Z) :
  d ∈ Pixel.arange a b step <->
  exists k, 0 <= k < (b - a) * step /\ d = a + step * k.
Proof.
  unfold Pixel.arange. rewrite list_elem_of_fmap. split.
  - intros (k & -> & Hk%elem_of_seq). exists (Z.of_nat k). split; [lia|done].
  - intros (k & Hk & ->). exists (Z.to_nat k). split.
    + by rewrite Z2Nat.id by lia.
    + apply elem_of_seq. lia.
Qed.

Lemma fromordinal_all (mx dates : list Z) :
  Forall2 (fun d d' => Datetime.fromordinal d = Ok d') mx dates ->
  dates = mx /\ Forall (fun d => 1 <= d <= Datetime.MAXORDINAL) dates.
Proof.
  induction 1 as [|d d' mx out Hd _ [IH1 IH2]]; [done|].
  apply fromordinal_Ok in Hd as [-> Hd]. split; [by f_equal|].
  by constructor.
Qed.

(** X23: in a time-series plot that [plot_results] completes, the curve
    of each record has one point per date from [start] up to, but not
    including, [end]; for a model run in reverse, from [start] down to, but
    not including, [end].  Each of these dates is a valid ordinal, from 1
    to 3652059: a record whose range holds another date makes the call
    raise.  A record with [start = end] gives a curve without points. *)
Theorem plot_results_TS_dates (design_row : Z -> list Q) (reverse : bool)
    (band : Z) (records : list YATSM.segment)
    (curves : list (list Z * list Q)) :
  Pixel.plot_results design_row "TS" reverse band records = Ok curves ->
  Forall2 (fun r curve =>
             curve.1 = Pixel.arange (YATSM.start r) (YATSM.end_ r)
                                    (if reverse then -1 else 1)
             /\ length curve.2 = length curve.1
             /\ (reverse = false ->
                   forall d, d ∈ curve.1 <-> YATSM.start r <= d < YATSM.end_ r)
             /\ (reverse = true ->
                   forall d, d ∈ curve.1 <-> YATSM.end_ r < d <= YATSM.start r)
             /\ Forall (fun d => 1 <= d <= Datetime.MAXORDINAL) curve.1
             /\ (YATSM.start r = YATSM.end_ r -> curve = ([], [])))
          records curves.
Proof.
  intros Hrun. apply map_result_Ok in Hrun.
  eapply Forall2_impl; [exact Hrun|]. simpl. intros r [mx_date my].
  unfold Pixel.plot_record. rewrite decide_True by done.
  intros H. apply bind_Ok in H as (my' & Hdot & H).
  apply bind_Ok in H as (dates & Hdates & H). injection H as <- <-.
  unfold Pixel.dot_dates in Hdot. apply bind_Ok in Hdot as (col & _ & Hdot).
  apply map_result_length in Hdot.
  apply map_result_Ok in Hdates.
  assert (dates = Pixel.arange (YATSM.start r) (YATSM.end_ r)
                               (if reverse then -1 else 1)
          /\ Forall (fun d => 1 <= d <= Datetime.MAXORDINAL) dates)
    as [Heq Hvalid].
  { by apply fromordinal_all. }
  simpl. split_and!; try done.
  - by rewrite Hdot, Heq.
  - intros -> d. rewrite Heq, elem_of_arange. split.
    + intros (k & Hk & ->). lia.
    + intros Hd. exists (d - YATSM.start r). lia.
  - intros -> d. rewrite Heq, elem_of_arange. split.
    + intros (k & Hk & ->). lia.
    + intros Hd. exists (YATSM.start r - d). lia.
  - intros Hse. rewrite Heq in *. unfold Pixel.arange in *.
    rewrite Hse, Z.sub_diag in *. simpl in *. by destruct my'.
Qed.

(** ** [get_classification] *)

Lemma for_each_Ok_each {S A} (body : A -> S -> result S) (l : list A) :
  forall s s', for_each body l s = Ok s' ->
    Forall (fun x => exists s1 s2, body x s1 = Ok s2) l.
Proof.
  induction l as [|x l IH]; intros s s' Hrun; simpl in Hrun; [constructor|].
  inv_bind. constructor; [by eauto|by eapply IH].
Qed.

Lemma assign_cell_band0 (nb : nat) (ndv : Z) (r1 r2 : Raster.t Z) (y x v : Z) :
  band0_raster nb ndv r1 ->
  Raster.assign_cell r1 y x 0 1 [v] = Ok r2 -> band0_raster nb ndv r2.
Proof.
  intros (Hnb & Hndv & Hcells) Hcell.
  apply assign_cell_Ok in Hcell as (y' & x' & _ & _ & Hlen & ->).
  split; [done|]. split; [done|]. intros y0 x0. unfold Raster.cell. simpl.
  destruct (decide ((y', x') = (y0, x0))) as [<-|Hne].
  - rewrite lookup_insert_eq. simpl.
    destruct (Hcells y' x') as [Hl Hd]. unfold Raster.cell in Hl, Hd.
    rewrite Hd, length_replicate. cbn [length] in Hlen. rewrite Hnb in Hlen.
    split; [lia|done].
  - rewrite lookup_insert_ne by done. apply (Hcells y0 x0).
Qed.

Lemma assign_band0 (nb : nat) (ndv : Z) (f : Z -> Z) (yxs : list (Z * Z))
    (l : list Z) (r r' : Raster.t Z) :
  band0_raster nb ndv r ->
  Raster.assign r yxs 0 1 ((fun v => [f v]) <$> l) = Ok r' ->
  band0_raster nb ndv r'.
Proof.
  intros Hr. apply assign_invariant; [|done].
  intros j y x vs r1 r2 _ Hrow Hr1 Hcell.
  rewrite list_lookup_fmap in Hrow.
  destruct (l !! j) as [v|]; [|done]. injection Hrow as <-.
  by eapply assign_cell_band0.
Qed.

Section ClassificationMore.
Import Saved YatsmMap Classification.

Variable astype : Z -> Z.
Variables (date : Z) (records : list labelled) (ysize xsize : Z).
Variables (after before pred_proba : bool) (ndv : Z).

Local Abbreviation nb := (if pred_proba then 2%nat else 1%nat).
Local Abbreviation classified :=
  (classified astype date records ysize xsize after before pred_proba).

(** What the loops of [get_classification] maintain. *)
Local Abbreviation classification_raster := (fun r : Raster.t Z =>
  Raster.ysize r = ysize /\ Raster.xsize r = xsize
  /\ band0_raster nb ndv r
  /\ forall y x vs, Raster.cells r !! (y, x) = Some vs ->
       exists v, classified y x v /\ head vs = Some v).

Lemma classify_index_invariant (rec : labelled) (cls proba : list Z)
    (index : list nat) (r r' : Raster.t Z) :
  rec ∈ records -> class rec = Some cls ->
  (pred_proba = true -> class_proba rec = Some proba) ->
  index ∈ find_indices (segments rec) date after before ->
  classification_raster r ->
  classify_index astype pred_proba (segments rec) cls proba index r = Ok r' ->
  classification_raster r'.
Proof.
  intros Hrec Hcls Hproba Hindex (Hys & Hxs & Hb0 & Hcells) Hrun.
  unfold classify_index in Hrun.
  destruct index as [|i0 index0] eqn:Hidx.
  { injection Hrun as <-. by split_and!. }
  rewrite <- Hidx in *. clear Hidx i0 index0.
  apply bind_Ok in Hrun as (sel & Hsel & Hrun).
  apply bind_Ok in Hrun as (labels & Hlabels & Hrun).
  apply bind_Ok in Hrun as (r1 & Hfirst & Hrun).
  pose proof (assign_shape _ _ _ _ _ _ Hfirst) as (Hys1 & Hxs1 & _ & _).
  pose proof (assign_band0 _ _ _ _ _ _ _ Hb0 Hfirst) as Hb1.
  apply map_result_Ok in Hsel, Hlabels.
  (* what a position of the index arrays stands for *)
  assert (forall j y0 x0, ((fun s => (py s, px s)) <$> sel) !! j = Some (y0, x0) ->
            exists i s, index !! j = Some i /\ segments rec !! i = Some s
                        /\ y0 = py s /\ x0 = px s) as Hpos.
  { intros j y0 x0 Hyx. rewrite list_lookup_fmap in Hyx.
    destruct (sel !! j) as [s|] eqn:Hs; [|done]. injection Hyx as <- <-.
    destruct (Forall2_lookup_r _ _ _ _ _ Hsel Hs) as (i & Hi & Hat).
    unfold at_index in Hat. destruct (segments rec !! i) as [s'|] eqn:Hri; [|done].
    injection Hat as ->. by exists i, s. }
  destruct pred_proba eqn:Hpp.
  - (* the probabilities overwrite the labels *)
    apply bind_Ok in Hrun as (ps & Hps & Hsecond).
    pose proof (assign_shape _ _ _ _ _ _ Hsecond) as (Hys2 & Hxs2 & _ & _).
    pose proof (assign_band0 _ _ _ _ _ _ _ Hb1 Hsecond) as Hb2.
    apply map_result_Ok in Hps.
    split; [congruence|]. split; [congruence|]. split; [done|].
    intros y x vs Hvs.
    destruct (assign_last_hit _ _ y x _ _ _ _ Hsecond) as [[Hsame Hno]|Hhit].
    + rewrite Hsame in Hvs.
      destruct (assign_last_hit _ _ y x _ _ _ _ Hfirst) as [[Hsame1 _]|Hhit1].
      { rewrite Hsame1 in Hvs. by apply Hcells. }
      destruct Hhit1 as (j & y0 & x0 & row & old & Hyx & Hrow & Hy0 & Hx0 & _).
      exfalso.
      destruct (Hpos j y0 x0 Hyx) as (i & s & Hi & _).
      destruct (Forall2_lookup_l _ _ _ _ _ Hps Hi) as (p & Hp & _).
      apply (Hno j y0 x0 [astype p]); [done| |].
      * by rewrite list_lookup_fmap, Hp.
      * split; congruence.
    + destruct Hhit as (j & y0 & x0 & row & old & Hyx & Hrow & Hy0 & Hx0 & _ & Hcell & _).
      rewrite Hvs in Hcell. injection Hcell as ->.
      destruct (Hpos j y0 x0 Hyx) as (i & s & Hi & Hs & -> & ->).
      rewrite list_lookup_fmap in Hrow.
      destruct (ps !! j) as [p|] eqn:Hp; [|done]. injection Hrow as <-.
      pose proof (Forall2_lookup_lr _ _ _ _ _ _ Hps Hi Hp) as Hat.
      unfold at_column in Hat. destruct (proba !! i) as [c|] eqn:Hc; [|done].
      injection Hat as ->.
      exists (astype p). split; [|done].
      exists rec, index, i, s, p. split_and!; try done.
      * by eapply list_elem_of_lookup_2.
      * split; congruence.
      * rewrite (Hproba eq_refl). done.
  - injection Hrun as <-.
    split; [congruence|]. split; [congruence|]. split; [done|].
    intros y x vs Hvs.
    destruct (assign_last_hit _ _ y x _ _ _ _ Hfirst) as [[Hsame _]|Hhit].
    { rewrite Hsame in Hvs. by apply Hcells. }
    destruct Hhit as (j & y0 & x0 & row & old & Hyx & Hrow & Hy0 & Hx0 & _ & Hcell & _).
    rewrite Hvs in Hcell. injection Hcell as ->.
    destruct (Hpos j y0 x0 Hyx) as (i & s & Hi & Hs & -> & ->).
    rewrite list_lookup_fmap in Hrow.
    destruct (labels !! j) as [c|] eqn:Hc; [|done]. injection Hrow as <-.
    pose proof (Forall2_lookup_lr _ _ _ _ _ _ Hlabels Hi Hc) as Hat.
    unfold at_column in Hat. destruct (cls !! i) as [c'|] eqn:Hc'; [|done].
    injection Hat as ->.
    exists (astype c). split; [|done].
    exists rec, index, i, s, c. split_and!; try done.
    * by eapply list_elem_of_lookup_2.
    * split; congruence.
    * rewrite Hcls. done.
Qed.

Lemma get_classification_invariant (raster : Raster.t Z) (names : list string) :
  get_classification astype date records ysize xsize after before pred_proba ndv
  = Ok (raster, names) ->
  classification_raster raster.
Proof.
  unfold get_classification. intros Hrun.
  apply bind_Ok in Hrun as (r & Hrun & Hret). injection Hret as -> <-.
  revert Hrun. apply (for_each_invariant _ classification_raster).
  - intros rec s s' Hrec Hs. unfold classify_rec.
    destruct (class rec) as [cls|] eqn:Hcls; [|done].
    assert (for_each (fun step => classify_index astype pred_proba (segments rec)
                        cls (default [] (class_proba rec)) (step (segments rec)))
                     (find_indices_steps date after before) s = Ok s' ->
            (pred_proba = true -> is_Some (class_proba rec)) ->
            classification_raster s') as Hloop.
    { intros Hloop Hsome. revert Hloop.
      apply (for_each_invariant _ classification_raster); [|done].
      intros step t t' Hstep Ht.
      apply (classify_index_invariant rec cls); try done.
      - intros Hpp. destruct (Hsome Hpp) as [proba ->]. done.
      - unfold find_indices. apply list_elem_of_fmap. by exists step. }
    destruct (class_proba rec) as [proba|] eqn:Hp.
    + intros H. apply Hloop; [by destruct pred_proba|by eauto].
    + destruct pred_proba; [done|]. intros H. by apply Hloop.
  - split; [done|]. split; [done|]. split.
    + split; [done|]. split; [done|]. intros y x. unfold Raster.cell. simpl.
      rewrite lookup_empty. simpl. rewrite length_replicate, drop_replicate.
      done.
    + intros y x vs Hvs. simpl in Hvs. by rewrite lookup_empty in Hvs.
Qed.

(** X24: a raster returned by [get_classification] comes from files that
    all have the ['class'] field and, with [pred_proba], the
    ['class_proba'] field.  Each of its cells is either no-data in every
    band or holds in band 0 the value of a record that [find_indices]
    selects at that pixel: its label without [pred_proba], its probability
    with [pred_proba].  With [pred_proba] the label is overwritten and the
    second band, named "Pred Proba", is no-data in every cell. *)
Theorem get_classification_cells (raster : Raster.t Z) (names : list string) :
  get_classification astype date records ysize xsize after before pred_proba ndv
  = Ok (raster, names) ->
  Forall (fun rec => is_Some (class rec)
                     /\ (pred_proba = true -> is_Some (class_proba rec))) records
  /\ names = (if pred_proba then ["Classification"; "Pred Proba"]
              else ["Classification"])
  /\ forall y x,
       Raster.cell raster y x = replicate nb ndv
       \/ exists v, classified y x v
                    /\ Raster.cell raster y x
                       = v :: (if pred_proba then [ndv] else []).
Proof.
  intros Hall. pose proof Hall as Hrun. unfold get_classification in Hrun.
  apply bind_Ok in Hrun as (r & Hrun & Hret). injection Hret as -> <-.
  split; [|split].
  - apply for_each_Ok_each in Hrun. eapply Forall_impl; [exact Hrun|].
    simpl. intros rec (s1 & s2 & Hbody). unfold classify_rec in Hbody.
    destruct (class rec); [|done]. split; [done|].
    intros ->. by destruct (class_proba rec).
  - by destruct pred_proba.
  - destruct (get_classification_invariant _ _ Hall) as (_ & _ & Hb0 & Hcells).
    intros y x. destruct (Raster.cells raster !! (y, x)) as [vs|] eqn:Hvs.
    + right. destruct (Hcells y x vs Hvs) as (v & Hv & Hhead).
      exists v. split; [done|].
      destruct Hb0 as (_ & _ & Hb0). destruct (Hb0 y x) as [Hl Hd].
      unfold Raster.cell in *. rewrite Hvs in *. simpl in *.
      destruct vs as [|v' vs]; [done|]. injection Hhead as ->.
      simpl in Hd. rewrite drop_0 in Hd. rewrite Hd. by destruct pred_proba.
    + left. destruct Hb0 as (Hnb & Hndv & _).
      unfold Raster.cell. rewrite Hvs. simpl. by rewrite Hnb, Hndv.
Qed.

End ClassificationMore.

(** ** [main] and [write_output] *)

Lemma band_names_length (i_coefs i_bands : list Z) (use_rmse : bool) :
  length (MapAttributes.band_names i_coefs i_bands use_rmse)
  = (length i_bands * length i_coefs
     + (if use_rmse then length i_bands else 0))%nat.
Proof.
  unfold MapAttributes.band_names. rewrite length_app.
  rewrite (length_bind_const _ (length i_bands)).
  2:{ intros c. rewrite (length_bind_const _ 1); [lia|done]. }
  destruct use_rmse.
  - rewrite (length_bind_const _ 1) by done. lia.
  - rewrite (length_bind_const _ 0) by done. lia.
Qed.

Lemma scan_results_exit (use_robust : bool)
    (results : list (option MapAttributes.result_file)) :
  forall seen code,
    MapAttributes.scan_results use_robust results seen = Exit code -> code = 1.
Proof.
  induction results as [|[f|] results IH]; intros seen code; simpl; [done| |by apply IH].
  destruct (MapAttributes.dtype_names f) as [|n ns]; [by apply IH|].
  destruct (_ && _); [|by intros [= <-]].
  destruct (MapAttributes.n_elements f); [by apply IH|].
  destruct (if use_robust then _ else _) as [|c [|b [|]]]; try by apply IH.
  done.
Qed.

Lemma find_result_attributes_exit
    (results : list (option MapAttributes.result_file))
    (output_bands : MapAttributes.band_choice)
    (output_coefs : option (list string)) (use_robust : bool) (code : Z) :
  MapAttributes.find_result_attributes results output_bands output_coefs use_robust
  = Exit code -> code = 1.
Proof.
  unfold MapAttributes.find_result_attributes.
  destruct (MapAttributes.scan_results use_robust results None)
    as [[shape seen]|c|e] eqn:Hscan; [| |done].
  - destruct shape as [[[|c] [|b]]|]; try by intros [= <-].
    destruct seen as [fr|]; [|by intros [= <-]].
    destruct (MapAttributes.array_truth fr) as [[]|]; try done;
      [|by intros [= <-]].
    unfold MapAttributes.select_bands.
    destruct output_bands as [|l].
    + by destruct (match output_coefs with Some (c0 :: cs) => _ | _ => _ end).
    + destruct (existsb _ _); [by intros [= <-]|].
      by destruct (match output_coefs with Some (c0 :: cs) => _ | _ => _ end).
  - intros [= <-]. by eapply scan_results_exit.
Qed.

Section MainMore.
Import Saved YatsmMap MapMain.

Variable make_X : list Z -> Z -> list Q.
Variable astype_int : Q -> Z.
Variable astype_uint : bool -> Z -> Z.
Variables (args : arguments) (files : list (option MapAttributes.result_file)).
Variables (records : list Classification.labelled) (ysize xsize : Z).

Local Abbreviation main :=
  (MapMain.main make_X astype_int astype_uint args files records ysize xsize).

(** X25: [main] leaves through [sys.exit] only from
    [find_result_attributes], with code 1, and never in a classification
    run: the check of the band names in [write_output] cannot fail, since
    [get_classification] and [get_coefficients] return as many names as
    their raster has bands. *)
Theorem main_exit_from_attributes (code : Z) :
  main = Exited code ->
  code = 1 /\ class args = false
  /\ exists output_coefs,
       MapAttributes.find_result_attributes files (bands args) output_coefs
                                            (use_robust args) = Exit 1.
Proof.
  unfold MapMain.main. destruct (class args).
  { destruct (Classification.get_classification _ _ _ _ _ _ _ _ _)
      as [[raster names]|e] eqn:Hrun; [|done].
    pose proof (get_classification_invariant _ _ _ _ _ _ _ _ _ _ _ Hrun)
      as (_ & _ & (Hnb & _) & _).
    unfold Classification.get_classification in Hrun.
    apply bind_Ok in Hrun as (r & _ & Hret). injection Hret as -> <-.
    unfold write_output. simpl. rewrite Hnb.
    by destruct (pred_proba args). }
  destruct (coef args).
  { destruct (MapAttributes.find_result_attributes _ _ _ _)
      as [[[[i_bands i_coefs] use_rmse] fr]|c|e] eqn:Hattr; [| |done].
    - destruct (get_coefficients _ _ _ _ _ _ _ _ _ _ _)
        as [[raster recs']|e] eqn:Hrun; [|done].
      unfold get_coefficients in Hrun.
      apply export_records_shape in Hrun as (Hnb & _). simpl in Hnb.
      unfold write_output. simpl. rewrite Hnb, band_names_length.
      rewrite decide_False; [done|]. intros Hne. apply Hne.
      destruct use_rmse; lia.
    - intros [= <-]. pose proof (find_result_attributes_exit _ _ _ _ _ Hattr) as ->.
      split; [done|]. split; [done|]. by eexists. }
  destruct (predict args); [|done].
  destruct (MapAttributes.find_result_attributes _ _ _ _)
    as [[[[i_bands i_coefs] use_rmse] fr]|c|e] eqn:Hattr; [| |done].
  - by destruct (get_prediction _ _ _ _ _ _ _ _ _ _).
  - intros [= <-]. pose proof (find_result_attributes_exit _ _ _ _ _ Hattr) as ->.
    split; [done|]. split; [done|]. by eexists.
Qed.

(** X26: in a classification run [main] does not hand [--ndv] to
    [get_classification].  The data set written declares the value of
    [--ndv] as no-data on every band, but a pixel at which no record is
    selected holds 0 in every band, whatever [--ndv] is. *)
Theorem main_class_nodata (d : dataset) :
  class args = true -> main = Written d ->
  nodata d = ndv args
  /\ exists raster,
       bands_written d = IntArray raster
       /\ Raster.ysize raster = ysize /\ Raster.xsize raster = xsize
       /\ length <$> descriptions d = Some (Raster.nband raster)
       /\ forall y x,
            (forall v, ~ classified (astype_uint (pred_proba args)) (date args)
                          records ysize xsize (after args) (before args)
                          (pred_proba args) y x v) ->
            Raster.cell raster y x = replicate (Raster.nband raster) 0.
Proof.
  unfold MapMain.main. intros ->.
  destruct (Classification.get_classification _ _ _ _ _ _ _ _ _)
    as [[raster names]|e] eqn:Hrun; [|done].
  pose proof (get_classification_invariant _ _ _ _ _ _ _ _ _ _ _ Hrun)
    as (Hys & Hxs & (Hnb & Hndv & _) & Hcells).
  unfold write_output. case_decide as Hlen; [done|]. intros [= <-]. simpl.
  simpl in Hlen.
  split; [done|]. exists raster. split; [done|]. split; [done|]. split; [done|].
  split; [by rewrite Hlen|].
  intros y x Hnone. unfold Raster.cell.
  destruct (Raster.cells raster !! (y, x)) as [vs|] eqn:Hvs.
  - destruct (Hcells y x vs Hvs) as (v & Hv & _). by destruct (Hnone v).
  - simpl. by rewrite Hndv.
Qed.

(** X27: a coefficient run that writes a data set got its indices from
    [find_result_attributes], writes the raster [get_coefficients] built
    for them, and describes its bands by the band names set up for these
    indices, one per band; the no-data value declared is [--ndv].  A
    prediction run writes the raster of [get_prediction] for the bands and
    frequencies found, writes no description, and its raster is filled
    with the integer part of [--ndv]. *)
Theorem main_coef_predict_written (d : dataset) :
  class args = false -> main = Written d ->
  nodata d = ndv args
  /\ (coef args = true ->
        exists raster recs i_bands i_coefs use_rmse fr,
          MapAttributes.find_result_attributes
            files (bands args) (Some (coefs args)) (use_robust args)
          = Return (i_bands, i_coefs, use_rmse, fr)
          /\ get_coefficients (date args) (Classification.segments <$> records)
               ysize xsize i_bands i_coefs use_rmse (use_robust args)
               (after args) (before args) (ndv args) = Ok (raster, recs)
          /\ bands_written d = FloatArray raster
          /\ descriptions d
             = Some (MapAttributes.band_names i_coefs i_bands use_rmse)
          /\ length (MapAttributes.band_names i_coefs i_bands use_rmse)
             = Raster.nband raster
          /\ Raster.ysize raster = ysize /\ Raster.xsize raster = xsize)
  /\ (coef args = false ->
        exists raster i_bands i_coefs use_rmse fr,
          MapAttributes.find_result_attributes
            files (bands args) None (use_robust args)
          = Return (i_bands, i_coefs, use_rmse, fr)
          /\ get_prediction (make_X fr) astype_int (date args)
               (Classification.segments <$> records) ysize xsize i_bands
               (after args) (before args) (Raster.truncate (ndv args))
             = Ok raster
          /\ bands_written d = IntArray raster
          /\ descriptions d = None
          /\ Raster.ndv raster = Raster.truncate (ndv args)).
Proof.
  unfold MapMain.main. intros ->. destruct (coef args).
  - destruct (MapAttributes.find_result_attributes _ _ _ _)
      as [[[[i_bands i_coefs] use_rmse] fr]|c|e] eqn:Hattr; [|done|done].
    destruct (get_coefficients _ _ _ _ _ _ _ _ _ _ _)
      as [[raster recs']|e] eqn:Hrun; [|done].
    pose proof Hrun as Hshape. unfold get_coefficients in Hshape.
    apply export_records_shape in Hshape as (Hnb & Hys & Hxs). simpl in *.
    unfold write_output. case_decide as Hlen; [done|]. intros [= <-]. simpl.
    simpl in Hlen.
    split; [done|]. split; [|done]. intros _.
    exists raster, recs', i_bands, i_coefs, use_rmse, fr.
    by split_and!.
  - destruct (predict args); [|done].
    destruct (MapAttributes.find_result_attributes _ _ _ _)
      as [[[[i_bands i_coefs] use_rmse] fr]|c|e] eqn:Hattr; [|done|done].
    destruct (get_prediction _ _ _ _ _ _ _ _ _ _) as [raster|e] eqn:Hrun; [|done].
    unfold write_output. intros [= <-]. simpl.
    split; [done|]. split; [done|]. intros _.
    exists raster, i_bands, i_coefs, use_rmse, fr.
    split; [done|]. split; [done|]. split; [done|]. split; [done|].
    revert Hrun. unfold get_prediction.
    apply (for_each_invariant _ (fun r => Raster.ndv r = Raster.truncate (ndv args)));
      [|done].
    intros rec s s' _ Hs. unfold predict_rec.
    revert s s' Hs. apply for_each_invariant.
    intros step t t' _ Ht. unfold predict_index.
    destruct (step rec); [by intros [= <-]|].
    intros H. inv_bind. apply assign_shape in H as (_ & _ & _ & Hn). congruence.
Qed.

End MainMore.

(** ** The functions of [yatsm_map.py] and the result files *)

Lemma load_each_disk (names : list string) (d : Store.disk) :
  (Store.load_each names d).2 = d.
Proof.
  induction names as [|name names IH]; [done|]. simpl.
  unfold Store.bind, Store.np_load. simpl.
  destruct (Store.load_each names d) as [os d'] eqn:Hl. simpl in *. by subst.
Qed.

Lemma find_result_attributes_disk (results : list string)
    (output_bands : MapAttributes.band_choice)
    (output_coefs : option (list string)) (use_robust : bool) (d : Store.disk) :
  (MapFunctions.find_result_attributes results output_bands output_coefs
                                       use_robust d).2 = d.
Proof.
  unfold MapFunctions.find_result_attributes, Store.bind, Store.ret.
  pose proof (load_each_disk results d) as H.
  by destruct (Store.load_each results d).
Qed.


Section StoredResults.
Import Saved Store.

Variables (date : Z) (records : list string) (ysize xsize : Z).
Variables (bands : MapAttributes.band_choice) (use_robust after before : bool).
Variable ndv : Q.


Section PredictionCall.
Variable make_X : list Z -> Z -> list Q.
Variable astype_int : Q -> Z.

(** X3: [get_prediction] ends as [find_result_attributes] ends when that
    exits or raises, and returns a raster only when that returned.  When
    it did, [get_prediction] returns a raster whenever every record of
    every file read has as many coefficient rows as the design row has
    entries, holds every band found, and sits at a pixel of the raster. *)
Theorem get_prediction_returns (d : disk) :
  (forall code,
     (MapFunctions.find_result_attributes records bands None use_robust d).1
     = Exit code ->
     (MapFunctions.get_prediction make_X astype_int date records ysize xsize
                                  bands use_robust after before ndv d).1
     = Exit code)
  /\ (forall e,
        (MapFunctions.find_result_attributes records bands None use_robust d).1
        = Thrown e ->
        (MapFunctions.get_prediction make_X astype_int date records ysize
                                     xsize bands use_robust after before ndv d).1
        = Thrown e)
  /\ (forall raster,
        (MapFunctions.get_prediction make_X astype_int date records ysize
                                     xsize bands use_robust after before ndv d).1
        = Return raster ->
        exists i_bands i_coefs use_rmse freq,
          (MapFunctions.find_result_attributes records bands None use_robust d).1
          = Return (i_bands, i_coefs, use_rmse, freq))
  /\ (forall i_bands i_coefs use_rmse freq,
        (MapFunctions.find_result_attributes records bands None use_robust d).1
        = Return (i_bands, i_coefs, use_rmse, freq) ->
        (forall rec r,
           rec ∈ (MapFunctions.iter_records records d).1 -> r ∈ rec ->
           predictable (make_X freq date) i_bands ysize xsize r) ->
        exists raster,
          (MapFunctions.get_prediction make_X astype_int date records ysize
                                       xsize bands use_robust after before
                                       ndv d).1
          = Return raster).
Proof.
  unfold MapFunctions.get_prediction, bind.
  pose proof (find_result_attributes_disk records bands None use_robust d)
    as Hattrs.
  destruct (MapFunctions.find_result_attributes _ _ _ _ d) as [attrs d1].
  simpl in Hattrs. subst d1. simpl.
  split_and!.
  - by intros code ->.
  - by intros e ->.
  - intros raster.
    destruct attrs as [[[[i_bands i_coefs] use_rmse] fr]|code|e]; [|done|done].
    intros _. by eexists _, _, _, _.
  - intros i_bands i_coefs use_rmse fr -> Hok.
    destruct (MapFunctions.iter_records records d) as [recs d2]. simpl in *.
    destruct (prediction_loops_return (make_X fr) astype_int date recs ysize
                xsize i_bands after before (Raster.truncate ndv) Hok)
      as [raster ->].
    by exists raster.
Qed.

End PredictionCall.

End StoredResults.

(** ** Instances *)

Section MoreInstances.
Import Examples MoreExamples.

Lemma get_prediction_nodata_witness :
  exists raster,
    YatsmMap.get_prediction linear_row Raster.truncate 15 [[segment_10_20]]
                            1 2 [0] false false (-9999) = Ok raster
    /\ Raster.cell raster 0 1 = [-9999].
Proof.
  eexists. split; [vm_compute; reflexivity|].
  apply (get_prediction_nodata linear_row Raster.truncate 15 [[segment_10_20]]
           1 2 [0] false false (-9999)).
  - vm_compute; reflexivity.
  - intros rec index i r ->%list_elem_of_singleton _ _ Hr [_ Hx].
    apply list_elem_of_lookup_2, list_elem_of_singleton in Hr as ->.
    vm_compute in Hx. discriminate.
Defined.

Lemma get_prediction_intersecting_wins_witness :
  exists raster,
    YatsmMap.get_prediction linear_row Raster.truncate 15
                            ([] ++ [[segment_10_20]]) 1 1 [0] true true (-9999)
    = Ok raster
    /\ exists y x i' r' yhat,
         at_pixel 1 1 y x segment_10_20
         /\ [segment_10_20] !! i' = Some r'
         /\ Saved.start r' <= 15 <= Saved.end_ r'
         /\ at_pixel 1 1 y x r'
         /\ YatsmMap.tensordot [0] (linear_row 15) r' = Ok yhat
         /\ Raster.cell raster y x = map Raster.truncate yhat.
Proof.
  eexists. split; [vm_compute; reflexivity|].
  apply (get_prediction_intersecting_wins linear_row Raster.truncate 15 []
           [segment_10_20] 1 1 [0] true true (-9999) _ 0%nat segment_10_20).
  - vm_compute; reflexivity.
  - reflexivity.
  - simpl. lia.
Defined.

Lemma get_coefficients_frame_witness :
  exists raster recs',
    YatsmMap.get_coefficients 15 [[segment_10_20]] 1 1 [0] [0; 1] true false
                              true true (-9999) = Ok (raster, recs')
    /\ Forall2 (Forall2 (same_but_intercept false)) [[segment_10_20]] recs'.
Proof.
  eexists _, _. split; [vm_compute; reflexivity|].
  eapply proj1, (get_coefficients_frame false [0; 1] [0] true 15
                   [[segment_10_20]] 1 1 true true (-9999)).
  vm_compute; reflexivity.
Defined.

Lemma get_coefficients_band_names_witness :
  exists raster recs',
    YatsmMap.get_coefficients 15 [[segment_10_20]] 1 1 [0] [0; 1] true false
                              false false (-9999) = Ok (raster, recs')
    /\ Raster.nband raster = 3%nat.
Proof.
  eexists _, _. split; [vm_compute; reflexivity|].
  eapply proj1, (get_coefficients_band_names false [0; 1] [0] true 15
                   [[segment_10_20]] 1 1 false false (-9999)).
  vm_compute; reflexivity.
Defined.

Lemma get_coefficients_normalizes_once_witness :
  exists raster recs',
    YatsmMap.get_coefficients 15 [[segment_10_20]] 1 1 [0] [0; 1] true false
                              false false (-9999) = Ok (raster, recs')
    /\ Forall2 (fun rec rec' =>
                  forall i r, rec !! i = Some r ->
                    (Saved.start r <= 15 <= Saved.end_ r ->
                       exists row,
                         YatsmMap.normalized_intercept false r = Ok row
                         /\ rec' !! i = Some (YatsmMap.set_intercept false row r))
                    /\ (~ Saved.start r <= 15 <= Saved.end_ r ->
                          rec' !! i = Some r))
               [[segment_10_20]] recs'.
Proof.
  eexists _, _. split; [vm_compute; reflexivity|].
  eapply (get_coefficients_normalizes_once false [0; 1] [0] true 15
            [[segment_10_20]] 1 1 (-9999)).
  vm_compute; reflexivity.
Defined.

Lemma training_outputs_aligned_witness :
  exists features ys rows cols,
    TrainMult.get_training_inputs load_training false 12 18 [(0, 1, 7)]
    = Ok (features, ys, rows, cols)
    /\ length features = length ys /\ length rows = length ys
    /\ length cols = length ys
    /\ zip (zip rows cols) ys `sublist_of` [(0, 1, 7)].
Proof.
  eexists _, _, _, _. split; [vm_compute; reflexivity|].
  apply (training_outputs_aligned load_training false 12 18 [(0, 1, 7)]).
  vm_compute; reflexivity.
Defined.

Lemma C5_ambiguous_model_witness :
  TrainingInputs.get_training_inputs image_12_18 output_name load_record
                                     false
  = Raise (TrainingDataException 7 0 0)
  /\ exists x,
       TrainingInputs.get_training_inputs image_10_20
                                          output_name load_record false
       = Ok ([x], [7], [0], [0], None)
       /\ x = midpoint_features (saved 5 25 0 2 1 0 0) [2%Q] [1%Q] []
       /\ Forall2 Qeq x [17; 1; 0]%Q.
Proof.
  pose (s1 := {| TrainMult.rec := training_record;
                 TrainMult._row_previous := Some 0;
                 TrainMult.X := []; TrainMult.out_y := [];
                 TrainMult.out_row := []; TrainMult.out_col := [] |}).
  split.
  - apply (proj1 (C5_ambiguous_model_raises
                    image_12_18 output_name load_record
                    false [] [] 12 18 0 0 7 None TrainMult.init s1
                    eq_refl eq_refl eq_refl)
             0%nat 1%nat (saved 10 20 0 1 1 0 0) (saved 5 25 0 2 1 0 0));
      [done|reflexivity|reflexivity| |]; unfold model_matches; simpl; lia.
  - eexists. split; [|split; [reflexivity|]].
    + apply (proj2 (proj2 (C5_ambiguous_model_raises
                             image_10_20 output_name
                             load_record false [] [] 10 20 0 0 7 None
                             TrainMult.init s1 eq_refl eq_refl eq_refl)
                      1%nat (saved 5 25 0 2 1 0 0) [2%Q] [1%Q] []
                      eq_refl
                      ltac:(unfold model_matches; simpl; lia)
                      ltac:(intros [|[|[|j]]] r' Hj Hm; try done;
                            injection Hj as <-;
                            unfold model_matches in Hm; simpl in Hm; lia)
                      eq_refl)
               eq_refl eq_refl).
    + unfold midpoint_features. simpl. repeat constructor.
Defined.

Lemma training_exceptions_witness :
  TrainingInputs.get_training_inputs image_12_18 output_name load_record
                                     false
  = Raise (TrainingDataException 7 0 0)
  /\ exists ts te samples labels,
       image_12_18 = Ok (ts, te, samples, labels)
       /\ ((exists _row _col _y,
              (_row, _col, _y) ∈ samples
              /\ (output_name _row = Raise (TrainingDataException 7 0 0)
                  \/ TrainingDataException 7 0 0
                     = TrainingDataException _y _col _row))
           \/ TrainingDataException 7 0 0 = IndexError "index out of bounds").
Proof.
  split; [vm_compute; reflexivity|].
  destruct (training_exceptions image_12_18 output_name
              load_record false (TrainingDataException 7 0 0) eq_refl
              ltac:(vm_compute; reflexivity)) as [H|H]; [discriminate H|exact H].
Defined.


Lemma get_prediction_returns_witness :
  (MapFunctions.find_result_attributes ["yatsm_r0.npz"] MapAttributes.AllBands
                                       None false result_disk).1
  = Return ([0], [], false, [1])
  /\ exists raster,
       (MapFunctions.get_prediction linear_X Raster.truncate 15
          ["yatsm_r0.npz"] 1 1 MapAttributes.AllBands false false false
          (-9999)%Q result_disk).1 = Return raster.
Proof.
  split; [vm_compute; reflexivity|].
  apply (proj2 (proj2 (proj2 (get_prediction_returns 15 ["yatsm_r0.npz"] 1 1
                                MapAttributes.AllBands false false false
                                (-9999)%Q linear_X Raster.truncate result_disk)))
           [0] [] false [1]).
  - vm_compute; reflexivity.
  - intros rec r Hrec Hr. vm_compute in Hrec.
    apply list_elem_of_singleton in Hrec as ->.
    apply list_elem_of_singleton in Hr as ->.
    split; [reflexivity|]. split.
    + repeat constructor; eexists; reflexivity.
    + split; eexists; reflexivity.
Defined.

Lemma find_result_attributes_first_usable_witness :
  Forall (skipped_file false) [None; Some fieldless]
  /\ MapAttributes.find_result_attributes
       ([None; Some fieldless] ++ Some usable :: [None])
       MapAttributes.AllBands None false
     = MapAttributes.find_result_attributes [Some usable]
                                            MapAttributes.AllBands None false.
Proof.
  assert (Forall (skipped_file false) [None; Some fieldless]) as Hpre.
  { constructor; [exact I|]. constructor; [by left|constructor]. }
  split; [exact Hpre|].
  apply (proj1 (find_result_attributes_first_usable false _ [None] usable
                  MapAttributes.AllBands None Hpre) 2%nat 1%nat).
  split; [split|split]; [| |done|reflexivity]; unfold usable; simpl; set_solver.
Defined.

Lemma find_result_attributes_frequencies_witness :
  Forall (skipped_file false) [None]
  /\ usable_file false harmonic 2 1
  /\ exists msg,
       MapAttributes.find_result_attributes ([None] ++ Some harmonic :: [])
                                            MapAttributes.AllBands None false
       = Thrown (ValueError msg).
Proof.
  assert (Forall (skipped_file false) [None]) as Hpre by (by repeat constructor).
  assert (usable_file false harmonic 2 1) as Hf.
  { split; [split|split]; [| |done|reflexivity]; unfold harmonic, usable; simpl;
      set_solver. }
  split; [exact Hpre|]. split; [exact Hf|].
  apply (proj2 (find_result_attributes_frequencies false [None] [] harmonic 1 0
                  MapAttributes.AllBands None Hpre Hf)).
  simpl. lia.
Defined.

Lemma plot_VAL_aligned_witness :
  exists _doy _year _y,
    PixelPlots.plot_VAL [10; 200] [2000; 2001] [1%Q; 2%Q] 2
    = Ok (_doy, _year, _y)
    /\ length _doy = 6%nat /\ length _year = length _doy
    /\ length _y = length _doy.
Proof.
  destruct (plot_VAL_aligned [10; 200] [2000; 2001] [1%Q; 2%Q] 2)
    as (_doy & _year & _y & Hrun & Hlen & Hyear & Hy & _);
    [lia|reflexivity|reflexivity|].
  exists _doy, _year, _y. by split_and!.
Defined.

Lemma find_design_first_witness :
  TrainSetup.find_result_attributes ([None; None] ++ Some design_with_slope :: [None])
  = Ok design_with_slope
  /\ exists msg,
       TrainSetup.find_result_attributes [None; None (A := YATSM.DesignInfo)]
       = Raise (AttributeError msg).
Proof.
  apply (find_design_first [None; None] [None] design_with_slope).
  by repeat constructor.
Defined.

Lemma plot_results_TS_dates_witness :
  exists curve,
    Pixel.plot_results linear_row "TS" false 0 [fitted] = Ok [curve]
    /\ curve.1 = [10; 11; 12]
    /\ (forall d, d ∈ curve.1 <-> 10 <= d < 13).
Proof.
  eexists. split; [vm_compute; reflexivity|]. split; [reflexivity|].
  pose proof (plot_results_TS_dates linear_row false 0 [fitted] _
                ltac:(vm_compute; reflexivity)) as Hcurves.
  apply Forall2_cons_1 in Hcurves as [(_ & _ & Hdates & _) _].
  exact (Hdates eq_refl).
Defined.

Lemma get_classification_cells_witness :
  exists raster names,
    Classification.get_classification (fun v => v) 15 [labelled_10_20] 1 2
                                      false false true (-1)
    = Ok (raster, names)
    /\ names = ["Classification"; "Pred Proba"]
    /\ Raster.cell raster 0 0 = [7; -1]
    /\ Raster.cell raster 0 1 = [-1; -1].
Proof.
  eexists _, _. split; [vm_compute; reflexivity|].
  destruct (get_classification_cells (fun v => v) 15 [labelled_10_20] 1 2
              false false true (-1) _ _ ltac:(vm_compute; reflexivity))
    as (_ & Hnames & _).
  split; [exact Hnames|]. split; reflexivity.
Defined.

Lemma main_exit_from_attributes_witness :
  MapMain.main linear_X Raster.truncate (fun _ v => v) coef_args [] [] 1 1
  = MapMain.Exited 1
  /\ MapMain.class coef_args = false.
Proof.
  split; [reflexivity|].
  apply (main_exit_from_attributes linear_X Raster.truncate (fun _ v => v)
           coef_args [] [] 1 1 1 eq_refl).
Defined.

Lemma main_class_nodata_witness :
  exists d raster,
    MapMain.main linear_X Raster.truncate (fun _ v => v) class_args
                 [Some usable] [labelled_10_20] 1 2 = MapMain.Written d
    /\ MapMain.nodata d = (-9999)%Q
    /\ MapMain.bands_written d = MapMain.IntArray raster
    /\ Raster.ysize raster = 1 /\ Raster.xsize raster = 2.
Proof.
  assert (exists d, MapMain.main linear_X Raster.truncate (fun _ v => v)
                      class_args [Some usable] [labelled_10_20] 1 2
                    = MapMain.Written d) as [d Hd].
  { eexists. vm_compute; reflexivity. }
  destruct (main_class_nodata linear_X Raster.truncate (fun _ v => v) class_args
              [Some usable] [labelled_10_20] 1 2 d eq_refl Hd)
    as (Hndv & raster & Hbands & Hys & Hxs & _).
  exists d, raster. split; [exact Hd|]. split; [exact Hndv|].
  split; [exact Hbands|]. split; [exact Hys|exact Hxs].
Defined.

Lemma main_coef_predict_written_witness :
  exists d raster,
    MapMain.main linear_X Raster.truncate (fun _ v => v) coef_args
                 [Some usable] [labelled_10_20] 1 1 = MapMain.Written d
    /\ MapMain.nodata d = (-9999)%Q
    /\ MapMain.bands_written d = MapMain.FloatArray raster
    /\ MapMain.descriptions d = Some ["B1_beta0"; "B1_beta1"; "B1_RMSE"]
    /\ Raster.nband raster = 3%nat.
Proof.
  assert (exists d, MapMain.main linear_X Raster.truncate (fun _ v => v)
                      coef_args [Some usable] [labelled_10_20] 1 1
                    = MapMain.Written d) as [d Hd].
  { eexists. vm_compute; reflexivity. }
  destruct (main_coef_predict_written linear_X Raster.truncate (fun _ v => v)
              coef_args [Some usable] [labelled_10_20] 1 1 d eq_refl Hd)
    as (Hndv & Hcoef & _).
  destruct (Hcoef eq_refl)
    as (raster & recs & i_bands & i_coefs & use_rmse & fr & Hattr & _ & Hbands
        & Hnames & Hlen & _).
  vm_compute in Hattr. injection Hattr as <- <- <- <-.
  exists d, raster. split; [exact Hd|]. split; [exact Hndv|].
  split; [exact Hbands|]. split; [exact Hnames|]. by rewrite <- Hlen.
Defined.

End MoreInstances.
